(** * Error replay debug adapter: replay runtime and protocol session

    A shallow embedding of [packages/adapter/src/index.ts]: the value
    coercion of recorded previews, the frame indexer and cursor state
    machine of [ReplayRuntime], its breakpoint store and variable cache,
    the preview formatter and the termination protocol of
    [ErrorReplaySession].

    Conventions.
    - JavaScript integers used as indices, lines and columns are [Z].
    - [undefined]/[null] properties are [option]; a JS string is a
      [string] (bytes: it agrees with UTF-16 code units on ASCII text).
    - Values of type [number] obtained from [Number(...)] are binary64
      floats ([PrimFloat.float]); the built-ins [Number] and [String] on
      them are parameters of the development.
    - [path.normalize] of Node's [path] module is a parameter
      ([normalize]); [posix_normalize] is an executable instance. *)

From Stdlib Require Import ZArith Lia Bool Ascii String List.
From Stdlib Require Import DecimalString PrimFloat.
From Stdlib Require Uint63 FloatOps DecimalPos.
From stdpp Require Import base option list gmap strings.

Local Open Scope string_scope.
Local Open Scope Z_scope.

Local Set Warnings "-register-all".

(** ** JavaScript string helpers *)

(** [s.startsWith(p)] *)
Definition startsWith (s p : string) : bool := String.prefix p s.

(** [s.slice(n)] for [0 <= n] *)
Fixpoint string_drop (n : nat) (s : string) : string :=
  match n, s with
  | O, _ => s
  | S n', EmptyString => EmptyString
  | S n', String _ r => string_drop n' r
  end.

(** [s.slice(0, n)] for [0 <= n] *)
Fixpoint string_take (n : nat) (s : string) : string :=
  match n, s with
  | O, _ => EmptyString
  | S n', EmptyString => EmptyString
  | S n', String c r => String c (string_take n' r)
  end.

(** [String(n)] and template interpolation of an integer. *)
Definition showZ (z : Z) : string := NilEmpty.string_of_int (Z.to_int z).

(** [xs.join(sep)] *)
Fixpoint join (sep : string) (xs : list string) : string :=
  match xs with
  | [] => ""
  | [x] => x
  | x :: r => x +:+ sep +:+ join sep r
  end.

Definition is_digit (c : ascii) : bool :=
  let n := N_of_ascii c in ((48 <=? n) && (n <=? 57))%N.

Fixpoint all_digits (s : string) : bool :=
  match s with
  | EmptyString => true
  | String c r => is_digit c && all_digits r
  end.

(** The regular expression [/^\d+$/]. *)
Definition is_decimal (s : string) : bool :=
  match s with
  | EmptyString => false
  | _ => all_digits s
  end.

Fixpoint parse_digits (acc : Z) (s : string) : Z :=
  match s with
  | EmptyString => acc
  | String c r => parse_digits (10 * acc + (Z.of_N (N_of_ascii c) - 48)) r
  end.

(** The integer that a string accepted by [/^\d+$/] denotes. *)
Definition decimal_value (s : string) : Z := parse_digits 0 s.

(** The values of the number type met when a length is computed from
    digit strings: a non-negative integer that binary64 represents, or
    [Infinity]. *)
Inductive JsInt : Type :=
| Finite (n : Z)
| Infinity.

(** The number nearest to a non-negative integer (round to nearest,
    ties to even): the integer itself below [2^53]; otherwise its 53
    leading bits [q], rounded on the remainder [r], or [Infinity] from
    [2^1024] on. *)
Definition binary64 (z : Z) : JsInt :=
  if z <? 2 ^ 53 then Finite z
  else
    let e := Z.log2 z - 52 in
    let q := z / 2 ^ e in
    let r := z mod 2 ^ e in
    let half := 2 ^ (e - 1) in
    let q' := if (half <? r) || ((r =? half) && Z.odd q) then q + 1 else q in
    if 2 ^ 1024 <=? q' * 2 ^ e then Infinity else Finite (q' * 2 ^ e).

(** [parseInt(k, 10)] on a string accepted by [/^\d+$/]: the number
    nearest to the integer it denotes (from the 21st significant digit
    on, the language lets an engine approximate further). *)
Definition parseInt10 (s : string) : JsInt := binary64 (decimal_value s).

(** [Math.max(a, b)] *)
Definition js_max (a b : JsInt) : JsInt :=
  match a, b with
  | Finite x, Finite y => Finite (Z.max x y)
  | _, _ => Infinity
  end.

(** [n + 1] *)
Definition js_succ (n : JsInt) : JsInt :=
  match n with
  | Finite x => binary64 (x + 1)
  | Infinity => Infinity
  end.

(** The primitive float of such a number. *)
Definition numberOf (n : JsInt) : float :=
  match n with
  | Finite z =>
      let e := Z.max 0 (Z.log2 z - 52) in
      FloatOps.Z.ldexp (PrimFloat.of_uint63 (Uint63.of_Z (z / 2 ^ e))) e
  | Infinity => PrimFloat.infinity
  end.

(** [array.findIndex(p)]: the first index satisfying [p], or [-1]. *)
Fixpoint findIndex_from {A} (p : A -> bool) (l : list A) (i : Z) : Z :=
  match l with
  | [] => -1
  | x :: r => if p x then i else findIndex_from p r (i + 1)
  end.

Definition findIndex {A} (p : A -> bool) (l : list A) : Z :=
  findIndex_from p l 0.

(** [array[i]] for an integer [i]: [undefined] out of range. *)
Definition at_index {A} (l : list A) (i : Z) : option A :=
  if 0 <=? i then l !! Z.to_nat i else None.

(** [array.slice(0, n)] for an integer [n >= 0]. *)
Definition slice0 {A} (l : list A) (n : Z) : list A := take (Z.to_nat n) l.

(** Truthiness of an optional string: [!!s]. *)
Definition truthy (s : option string) : bool :=
  match s with
  | Some (String _ _) => true
  | _ => false
  end.

(** [a ?? b] *)
Definition orElse {A} (a b : option A) : option A :=
  match a with Some _ => a | None => b end.

Infix "??" := orElse (at level 61, left associativity).

(** ** An executable instance of [path.normalize] (POSIX flavour) *)

Fixpoint split_at (sep : ascii) (cs : list ascii) : list (list ascii) :=
  match cs with
  | [] => [[]]
  | c :: r =>
      if Ascii.eqb c sep then [] :: split_at sep r
      else match split_at sep r with
           | h :: t => (c :: h) :: t
           | [] => [[c]]
           end
  end.

(** Segment resolution; [acc] is the stack of kept segments, last first. *)
Fixpoint normalize_segments (allowAboveRoot : bool) (segs acc : list string)
  : list string :=
  match segs with
  | [] => rev acc
  | s :: r =>
      if String.eqb s "" || String.eqb s "." then
        normalize_segments allowAboveRoot r acc
      else if String.eqb s ".." then
        match acc with
        | top :: rest =>
            if String.eqb top ".." then
              normalize_segments allowAboveRoot r
                (if allowAboveRoot then ".." :: acc else acc)
            else normalize_segments allowAboveRoot r rest
        | [] =>
            normalize_segments allowAboveRoot r
              (if allowAboveRoot then [".."] else [])
        end
      else normalize_segments allowAboveRoot r (s :: acc)
  end.

Definition posix_normalize (p : string) : string :=
  match p with
  | EmptyString => "."
  | String c0 _ =>
      let isAbsolute := Ascii.eqb c0 "/" in
      let trailing :=
        match rev (list_ascii_of_string p) with
        | c :: _ => Ascii.eqb c "/"
        | [] => false
        end in
      let segs := map string_of_list_ascii
                      (split_at "/"%char (list_ascii_of_string p)) in
      let body := join "/" (normalize_segments (negb isAbsolute) segs []) in
      match body with
      | EmptyString =>
          if isAbsolute then "/" else if trailing then "./" else "."
      | _ =>
          let body' := if trailing then body +:+ "/" else body in
          if isAbsolute then "/" +:+ body' else body'
      end
  end.

(** ** Variable trees and [coerceValue] *)

(** [string | number | boolean | null] *)
Inductive JsScalar : Type :=
| VStr (s : string)
| VNum (n : float)
| VBool (b : bool)
| VNull.

(** A stand-in for the built-in [Number] on the previews evaluated in
    the closed examples of this file: digit strings denote their value,
    strings with a letter are [NaN]. *)
Definition sampleNumber (s : string) : float :=
  if is_decimal s then PrimFloat.of_uint63 (Uint63.of_Z (decimal_value s))
  else PrimFloat.nan.

Section Coercion.

(** The built-in [Number(text)]. *)
Variable jsNumber : string -> float.

(** [coerceValue(valuePreview, type)]; the result [undefined] is
    [None]. *)
Definition coerceValue (valuePreview type : option string)
  : option JsScalar :=
  match valuePreview with
  | None => VStr <$> type
  | Some vp =>
      if bool_decide (type = Some "number") then
        let n := jsNumber vp in
        Some (if PrimFloat.is_nan n then VStr vp else VNum n)
      else if bool_decide (type = Some "boolean") && String.eqb vp "true"
      then Some (VBool true)
      else if bool_decide (type = Some "boolean") && String.eqb vp "false"
      then Some (VBool false)
      else if String.eqb vp "null" then Some VNull
      else Some (VStr vp)
  end.

End Coercion.

(** [VariableNode]; a [VariableMap] is the list of the object's own
    properties in [Object.keys] order. *)
Inductive VariableNode : Type :=
| Node (n_type : option string) (n_value : option JsScalar)
       (n_fields : option (list (string * VariableNode))).

Abbreviation VariableMap := (list (string * VariableNode)).

Definition node_type (n : VariableNode) : option string :=
  match n with Node t _ _ => t end.
Definition node_value (n : VariableNode) : option JsScalar :=
  match n with Node _ v _ => v end.
Definition node_fields (n : VariableNode) : option VariableMap :=
  match n with Node _ _ f => f end.

Record SnapshotCaptures : Type := mkCaptures {
  sc_locals : VariableMap;
  sc_arguments : VariableMap
}.

Definition emptyCaptures : SnapshotCaptures :=
  {| sc_locals := []; sc_arguments := [] |}.

(** [VariablePayload] of [types.ts]; objects are property lists in
    [Object.entries] order. *)
Inductive VariablePayload : Type :=
| Payload (p_type : option string) (p_value : option string)
          (p_isNull : bool)
          (p_elements : option (list VariablePayload))
          (p_entries : option (list (VariablePayload * VariablePayload)))
          (p_fields : option (list (string * VariablePayload))).

Definition payload_value (p : VariablePayload) : option string :=
  match p with Payload _ v _ _ _ _ => v end.
Definition payload_fields (p : VariablePayload)
  : option (list (string * VariablePayload)) :=
  match p with Payload _ _ _ _ _ f => f end.

Record Variables : Type := mkVariables {
  v_arguments : option (list (string * VariablePayload));
  v_locals : option (list (string * VariablePayload))
}.

(** *** Property assignment on plain objects *)

(** [obj[k]] *)
Definition obj_get {A} (k : string) (o : list (string * A)) : option A :=
  snd <$> List.find (fun e => String.eqb (fst e) k) o.

Definition obj_has {A} (k : string) (o : list (string * A)) : bool :=
  existsb (fun e => String.eqb (fst e) k) o.

(** An array index in the sense of ECMAScript: the canonical numeral of
    an integer below [2^32 - 1]. *)
Definition array_index (k : string) : option Z :=
  if is_decimal k && (String.eqb k "0" || negb (startsWith k "0"))
     && (decimal_value k <=? 4294967294)
  then Some (decimal_value k) else None.

Fixpoint obj_replace {A} (k : string) (v : A) (o : list (string * A))
  : list (string * A) :=
  match o with
  | [] => []
  | (k', v') :: r =>
      if String.eqb k' k then (k', v) :: r else (k', v') :: obj_replace k v r
  end.

Fixpoint obj_insert_index {A} (n : Z) (k : string) (v : A)
    (o : list (string * A)) : list (string * A) :=
  match o with
  | [] => [(k, v)]
  | (k', v') :: r =>
      match array_index k' with
      | Some m =>
          if m <? n then (k', v') :: obj_insert_index n k v r
          else (k, v) :: o
      | None => (k, v) :: o
      end
  end.

(** [obj[k] = v] for an object value [v], on the own properties: an
    existing property keeps its place; a new array index is enumerated
    among the indices in ascending order, any other new key last.
    Assigning to [__proto__] creates no own property. *)
Definition obj_set {A} (k : string) (v : A) (o : list (string * A))
  : list (string * A) :=
  if String.eqb k "__proto__" then o
  else if obj_has k o then obj_replace k v o
  else match array_index k with
       | Some n => obj_insert_index n k v o
       | None => (o ++ [(k, v)])%list
       end.

Definition extractKeyFromPayload (payload : VariablePayload) (idx : Z)
  : string :=
  match payload_value payload with
  | Some v => v
  | None =>
      match payload_fields payload with
      | Some flds =>
          let id :=
            (obj_get "id" flds ≫= payload_value) ??
            (obj_get "name" flds ≫= payload_value) ??
            (obj_get "key" flds ≫= payload_value) in
          default (showZ idx) id
      | None => showZ idx
      end
  end.

Section Normalization.

Variable jsNumber : string -> float.

(** [toVariableNode(payload)] for a payload that is present; an
    absent payload gives the empty node [{}]. *)
Fixpoint toVariableNode (payload : VariablePayload) : VariableNode :=
  match payload with
  | Payload type value isNull elements entries flds =>
      if isNull then Node (Some (default "null" type)) (Some VNull) None
      else match value with
      | Some v => Node type (coerceValue jsNumber (Some v) type) None
      | None =>
      match elements with
      | Some els =>
          let fields :=
            (fix each (l : list VariablePayload) (idx : Z)
                 (acc : VariableMap) : VariableMap :=
               match l with
               | [] => acc
               | el :: r =>
                   each r (idx + 1)
                        (obj_set (showZ idx) (toVariableNode el) acc)
               end) els 0 [] in
          Node (Some (default "array" type)) None (Some fields)
      | None =>
      match entries with
      | Some ents =>
          let fields :=
            (fix each (l : list (VariablePayload * VariablePayload))
                 (idx : Z) (acc : VariableMap) : VariableMap :=
               match l with
               | [] => acc
               | (keyPayload, valuePayload) :: r =>
                   each r (idx + 1)
                        (obj_set (extractKeyFromPayload keyPayload idx)
                                 (toVariableNode valuePayload) acc)
               end) ents 0 [] in
          Node (Some (default "map" type)) None (Some fields)
      | None =>
      match flds with
      | Some fl =>
          let fields :=
            (fix each (l : list (string * VariablePayload))
                 (acc : VariableMap) : VariableMap :=
               match l with
               | [] => acc
               | (key, value) :: r =>
                   each r (obj_set key (toVariableNode value) acc)
               end) fl [] in
          Node (Some (default "object" type)) None (Some fields)
      | None => Node type None None
      end end end end
  end.

Fixpoint toVariableMap_acc (record : list (string * VariablePayload))
    (result : VariableMap) : VariableMap :=
  match record with
  | [] => result
  | (key, payload) :: r =>
      toVariableMap_acc r (obj_set key (toVariableNode payload) result)
  end.

Definition toVariableMap (record : list (string * VariablePayload))
  : VariableMap := toVariableMap_acc record [].

Definition normalizeVariables (variables : option Variables)
  : SnapshotCaptures :=
  {| sc_locals := toVariableMap (default [] (variables ≫= v_locals));
     sc_arguments := toVariableMap (default [] (variables ≫= v_arguments)) |}.

End Normalization.

(** ** Loaded stack traces ([types.ts]) *)

(** The properties of a token that the runtime reads: [kind],
    [uri?.path], [location] and a string [value]. *)
Record StackTraceToken : Type := mkToken {
  t_kind : string;
  t_uri_path : option string;
  t_location : option Z;
  t_value : option string
}.

Record StackTraceFrame : Type := mkRawFrame {
  r_id : option string;             (* [Some] iff [typeof id === 'string'] *)
  r_content : option string;
  r_tokens : option (list StackTraceToken);  (* [Some] iff an array *)
  r_file : option string;
  r_function : option string;
  r_line : option Z;                (* [Some] iff [typeof line === 'number'] *)
  r_column : option Z;
  r_snapshotId : option string;
  r_snapshot_id : option string
}.

Record StackTrace : Type := mkStackTrace {
  st_id : option string;
  st_frames : list StackTraceFrame;
  st_eventId : option string;
  st_traceId : option string
}.

(** ** Normalized frames and the replay runtime *)

Record ReplayFrame : Type := mkFrame {
  f_id : Z;
  f_name : string;
  f_file : option string;
  f_line : Z;
  f_column : Z;
  f_snapshotId : option string
}.

Record StepResult : Type := mkStep {
  terminated : bool;
  stopped : bool;
  reason : option string
}.

Definition step_terminated : StepResult :=
  {| terminated := true; stopped := false; reason := None |}.

Definition step_stopped (r : string) : StepResult :=
  {| terminated := false; stopped := true; reason := Some r |}.

(** [new Set(lines)]: the distinct lines in order of first insertion. *)
Fixpoint set_of_lines_acc (seen lines : list Z) : list Z :=
  match lines with
  | [] => rev seen
  | l :: r =>
      if existsb (Z.eqb l) seen then set_of_lines_acc seen r
      else set_of_lines_acc (l :: seen) r
  end.

Definition set_of_lines (lines : list Z) : list Z := set_of_lines_acc [] lines.

(** [set.has(line)] *)
Definition set_has (s : list Z) (line : Z) : bool := existsb (Z.eqb line) s.

(** [tokens.find(t => t.kind === kind)] *)
Definition find_token (kind : string) (tokens : list StackTraceToken)
  : option StackTraceToken :=
  List.find (fun t => String.eqb (t_kind t) kind) tokens.

Definition extractRuntimeCoordinate (frame : StackTraceFrame)
  : option StackTraceToken :=
  let tokens := default [] (r_tokens frame) in
  match find_token "runtimeCoordinate" tokens with
  | Some coord => Some coord
  | None => find_token "repositoryCoordinate" tokens
  end.

Definition extractFunctionName (frame : StackTraceFrame) : option string :=
  let tokens := default [] (r_tokens frame) in
  match find_token "functionName" tokens with
  | Some func => t_value func
  | None => None
  end.

(** [frames.findIndex(...)] over the reversed copy, as in
    [findInitialFrame]. *)
Definition findInitialFrame (frames : list ReplayFrame) : Z :=
  match frames with
  | [] => 0
  | _ =>
      let idx := findIndex (fun frame => truthy (f_snapshotId frame))
                           (rev frames) in
      if 0 <=? idx then Z.of_nat (length frames) - 1 - idx
      else Z.of_nat (length frames) - 1
  end.

(** ** The external data source and asynchronous computations *)

Record LaunchArgs : Type := mkLaunchArgs {
  la_errorTitle : option string;
  la_errorId : option string;
  la_traceId : option string;
  la_startLine : option Z;          (* [Some] iff a number *)
  la_startSourcePath : option string;
  la_trace : bool
}.

(** How a promise of the data source settles. A rejection carries the
    message of the thrown [Error], or [None] for another thrown value. *)
Inductive Outcome (A : Type) : Type :=
| Resolved (a : A)
| Rejected (message : option string).
Arguments Resolved {A} a.
Arguments Rejected {A} message.

(** A computation that may call the data source and may throw. The
    continuation of a call receives the way its promise settled. *)
Inductive Prog (A : Type) : Type :=
| Ret (a : A)
| Throw (message : option string)
| LoadStackTrace (args : LaunchArgs) (k : Outcome StackTrace -> Prog A)
| LoadVariables (snapshotId : string)
                (k : Outcome (option Variables) -> Prog A).
Arguments Ret {A} a.
Arguments Throw {A} message.
Arguments LoadStackTrace {A} args k.
Arguments LoadVariables {A} snapshotId k.

Fixpoint bind {A B} (p : Prog A) (f : A -> Prog B) : Prog B :=
  match p with
  | Ret a => f a
  | Throw m => Throw m
  | LoadStackTrace args k => LoadStackTrace args (fun o => bind (k o) f)
  | LoadVariables id k => LoadVariables id (fun o => bind (k o) f)
  end.

#[export] Instance Prog_ret : MRet Prog := @Ret.
#[export] Instance Prog_bind : MBind Prog := fun A B f p => bind p f.

(** [try { p } catch (e) { h e }] *)
Fixpoint try_catch {A} (p : Prog A) (h : option string -> Prog A) : Prog A :=
  match p with
  | Ret a => Ret a
  | Throw m => h m
  | LoadStackTrace args k => LoadStackTrace args (fun o => try_catch (k o) h)
  | LoadVariables id k => LoadVariables id (fun o => try_catch (k o) h)
  end.

(** [await p]: a rejection is rethrown at the await. *)
Definition settle {A} (o : Outcome A) : Prog A :=
  match o with
  | Resolved a => Ret a
  | Rejected m => Throw m
  end.

Definition await_loadStackTrace (args : LaunchArgs) : Prog StackTrace :=
  LoadStackTrace args settle.

Definition await_loadVariables (snapshotId : string)
  : Prog (option Variables) :=
  LoadVariables snapshotId settle.

(** Calls received by the data source, in order. *)
Inductive Call : Type :=
| CallStackTrace (args : LaunchArgs)
| CallVariables (snapshotId : string).

(** A data source answers each call knowing the calls made before. *)
Record DataSource : Type := mkDataSource {
  loadStackTrace : list Call -> LaunchArgs -> Outcome StackTrace;
  loadVariables : list Call -> string -> Outcome (option Variables)
}.

Inductive Completion (A : Type) : Type :=
| Value (a : A)
| Thrown (message : option string).
Arguments Value {A} a.
Arguments Thrown {A} message.

(** Runs a computation against a data source; [log] lists the calls
    made so far, oldest first. *)
Fixpoint run {A} (ds : DataSource) (p : Prog A) (log : list Call)
  : Completion A * list Call :=
  match p with
  | Ret a => (Value a, log)
  | Throw m => (Thrown m, log)
  | LoadStackTrace args k =>
      run ds (k (loadStackTrace ds log args)) (log ++ [CallStackTrace args])
  | LoadVariables id k =>
      run ds (k (loadVariables ds log id)) (log ++ [CallVariables id])
  end.

(** Number of [loadVariables] calls for a snapshot in a log. *)
Definition is_call_for (snapshotId : string) (c : Call) : bool :=
  match c with
  | CallVariables id => String.eqb id snapshotId
  | CallStackTrace _ => false
  end.

Definition loader_calls (snapshotId : string) (log : list Call) : nat :=
  length (List.filter (is_call_for snapshotId) log).

Section Runtime.

(** The built-in [Number]. *)
Variable jsNumber : string -> float.

(** Node's [path.normalize]. *)
Variable normalize : string -> string.

Definition normalizeFilePath (maybePath : option string) : option string :=
  match maybePath with
  | None | Some EmptyString => None
  | Some p =>
      if startsWith p "file://" then Some (normalize (string_drop 7 p))
      else Some (normalize p)
  end.

(** The callback of [frames.map] in [buildFrames]. *)
Definition buildFrame (frame : StackTraceFrame) (idx : Z) : ReplayFrame :=
  let runtimeCoordinate := extractRuntimeCoordinate frame in
  let file :=
    normalizeFilePath (r_file frame) ??
    normalizeFilePath (runtimeCoordinate ≫= t_uri_path) in
  let line :=
    match r_line frame with
    | Some l => l + 1
    | None =>
        match runtimeCoordinate ≫= t_location with
        | Some loc => loc + 1
        | None => 1
        end
    end in
  let column :=
    match r_column frame with Some c => c + 1 | None => 1 end in
  let snapshotId := r_snapshotId frame ?? r_snapshot_id frame in
  let name :=
    default ("frame-" +:+ showZ idx)
      (r_function frame ?? extractFunctionName frame ?? r_content frame
         ?? r_id frame) in
  {| f_id := idx; f_name := name; f_file := file; f_line := line;
     f_column := column; f_snapshotId := snapshotId |}.

Fixpoint map_indexed (frames : list StackTraceFrame) (idx : Z)
  : list ReplayFrame :=
  match frames with
  | [] => []
  | fr :: r => buildFrame fr idx :: map_indexed r (idx + 1)
  end.

Definition buildFrames (frames : list StackTraceFrame) : list ReplayFrame :=
  rev (map_indexed frames 0).

(** The mutable part of a [ReplayRuntime] together with its frame
    list; [breakpoints] is the [Map<string, Set<number>>]. *)
Record ReplayRuntime : Type := mkRuntime {
  frames : list ReplayFrame;
  breakpoints : gmap string (list Z);
  variablesCache : gmap string SnapshotCaptures;
  cursor : Z
}.

Definition frameCount (rt : ReplayRuntime) : Z := Z.of_nat (length (frames rt)).

Definition set_cursor (rt : ReplayRuntime) (c : Z) : ReplayRuntime :=
  {| frames := frames rt; breakpoints := breakpoints rt;
     variablesCache := variablesCache rt; cursor := c |}.

(** The state built by the constructor. *)
Definition newRuntime (stackTrace : StackTrace) : ReplayRuntime :=
  let fs := buildFrames (st_frames stackTrace) in
  {| frames := fs; breakpoints := ∅; variablesCache := ∅;
     cursor := findInitialFrame fs |}.

Definition isTerminated (rt : ReplayRuntime) : bool :=
  (frameCount rt <=? cursor rt) || (cursor rt <? 0).

Definition currentFrameIndex (rt : ReplayRuntime) : Z :=
  Z.min (cursor rt) (Z.max 0 (frameCount rt - 1)).

Definition getSnapshotIdForFrame (rt : ReplayRuntime) (frameId : Z)
  : option string :=
  List.find (fun f => f_id f =? frameId) (frames rt) ≫= f_snapshotId.

Definition getCurrentSnapshotId (rt : ReplayRuntime) : option string :=
  at_index (frames rt) (currentFrameIndex rt) ≫= f_snapshotId.

Definition setCursorByFrameId (frameId : Z) (rt : ReplayRuntime)
  : ReplayRuntime :=
  let idx := findIndex (fun f => f_id f =? frameId) (frames rt) in
  if 0 <=? idx then set_cursor rt idx else rt.

Definition setCursorByLocation (filePath : option string) (line : option Z)
    (rt : ReplayRuntime) : ReplayRuntime :=
  match frames rt, line with
  | [], _ | _, None => rt
  | _, Some ln =>
      let normalizedFile :=
        if truthy filePath then normalize <$> filePath else None in
      let idx :=
        findIndex
          (fun f =>
             let sameFile :=
               if truthy normalizedFile then
                 String.eqb (normalize (default "" (f_file f)))
                            (default "" normalizedFile)
               else true in
             sameFile && (f_line f =? ln))
          (frames rt) in
      if 0 <=? idx then set_cursor rt idx else rt
  end.

(** Returns the reported lines and the updated runtime. *)
Definition setBreakpoints (sourcePath : option string) (lines : list Z)
    (rt : ReplayRuntime) : list Z * ReplayRuntime :=
  if truthy sourcePath then
    let normalized := normalize (default "" sourcePath) in
    let uniqueLines := set_of_lines lines in
    (uniqueLines,
     {| frames := frames rt;
        breakpoints := <[normalized := uniqueLines]> (breakpoints rt);
        variablesCache := variablesCache rt;
        cursor := cursor rt |})
  else ([], rt).

Definition hitsBreakpoint (bps : gmap string (list Z))
    (frame : option ReplayFrame) : bool :=
  match frame with
  | None => false
  | Some f =>
      if truthy (f_file f) then
        match bps !! normalize (default "" (f_file f)) with
        | None => false
        | Some set => set_has set (f_line f)
        end
      else false
  end.

(** The [for] loop of [findNextBreakpointIndex]: [fuel] is the number
    of iterations left, [len - i] when positive. *)
Fixpoint findNextBreakpoint_loop (rt : ReplayRuntime) (fuel : nat) (i : Z)
  : Z :=
  match fuel with
  | O => -1
  | S fuel' =>
      if hitsBreakpoint (breakpoints rt) (at_index (frames rt) i) then i
      else findNextBreakpoint_loop rt fuel' (i + 1)
  end.

Definition findNextBreakpointIndex (rt : ReplayRuntime) (startIdx : Z) : Z :=
  findNextBreakpoint_loop rt (Z.to_nat (frameCount rt - startIdx)) startIdx.

Definition stepOnce (why : option string) (rt : ReplayRuntime)
  : StepResult * ReplayRuntime :=
  if frameCount rt <=? cursor rt + 1 then
    (step_terminated, set_cursor rt (frameCount rt))
  else
    let rt' := set_cursor rt (cursor rt + 1) in
    let frame := at_index (frames rt') (cursor rt') in
    if hitsBreakpoint (breakpoints rt') frame then
      (step_stopped "breakpoint", rt')
    else (step_stopped (default "step" why), rt').

Definition continueExecution (rt : ReplayRuntime)
  : StepResult * ReplayRuntime :=
  let nextIdx := findNextBreakpointIndex rt (cursor rt + 1) in
  if nextIdx =? -1 then (step_terminated, set_cursor rt (frameCount rt))
  else (step_stopped "breakpoint", set_cursor rt nextIdx).

Definition getOrderedFrames (rt : ReplayRuntime) : list ReplayFrame :=
  match frames rt with
  | [] => []
  | _ =>
      if cursor rt <? 0 then []
      else rev (slice0 (frames rt) (cursor rt + 1))
  end.

Definition getAllFrames (rt : ReplayRuntime) : list ReplayFrame := frames rt.

Definition totalFrames (rt : ReplayRuntime) : Z := frameCount rt.

(** *** Variable cache *)

Definition fetchVariables (snapshotId : string) : Prog SnapshotCaptures :=
  try_catch
    (result ← await_loadVariables snapshotId;
     mret (normalizeVariables jsNumber result))
    (fun _ => mret emptyCaptures).

Definition getOrLoadVariables (snapshotId : string) (rt : ReplayRuntime)
  : Prog (SnapshotCaptures * ReplayRuntime) :=
  match variablesCache rt !! snapshotId with
  | Some cached => mret (cached, rt)
  | None =>
      variables ← fetchVariables snapshotId;
      mret (variables,
            {| frames := frames rt; breakpoints := breakpoints rt;
               variablesCache :=
                 <[snapshotId := variables]> (variablesCache rt);
               cursor := cursor rt |})
  end.

Definition getLocals (snapshotId : option string) (rt : ReplayRuntime)
  : Prog (VariableMap * ReplayRuntime) :=
  if truthy snapshotId then
    '(variables, rt') ← getOrLoadVariables (default "" snapshotId) rt;
    mret (sc_locals variables, rt')
  else mret ([], rt).

Definition getArguments (snapshotId : option string) (rt : ReplayRuntime)
  : Prog (VariableMap * ReplayRuntime) :=
  if truthy snapshotId then
    '(variables, rt') ← getOrLoadVariables (default "" snapshotId) rt;
    mret (sc_arguments variables, rt')
  else mret ([], rt).

End Runtime.

(** ** Value previews ([ErrorReplaySession.formatNodeValue]) *)

Definition ellipsis : string := "…".

(** Longest prefix of digits and the rest. *)
Fixpoint span_digits (s : string) : string * string :=
  match s with
  | EmptyString => ("", "")
  | String c r =>
      if is_digit c then
        let '(d, rest) := span_digits r in (String c d, rest)
      else ("", s)
  end.

(** The regular expression [/^-?\d+(\.\d+)?$/]. *)
Definition looksNumeric (value : string) : bool :=
  let unsigned :=
    match value with
    | String "-"%char r => r
    | _ => value
    end in
  let '(int, rest) := span_digits unsigned in
  negb (String.eqb int "") &&
  match rest with
  | EmptyString => true
  | String "."%char frac => is_decimal frac
  | _ => false
  end.

Definition LF : ascii := ascii_of_nat 10.
Definition CR : ascii := ascii_of_nat 13.

(** [raw.split(/\r?\n/)[0]] *)
Fixpoint first_line (raw : string) : string :=
  match raw with
  | EmptyString => ""
  | String c r =>
      if Ascii.eqb c LF then ""
      else if Ascii.eqb c CR && startsWith r (String LF "") then ""
      else String c (first_line r)
  end.

(** Lengths and [slice] count the characters of the model's strings,
    which are the source's code units on ASCII text. *)
Definition formatFunctionPreview (raw : string) : string :=
  let firstLine :=
    match first_line raw with
    | EmptyString => raw
    | l => l
    end in
  if (80 <? String.length firstLine)%nat
  then string_take 77 firstLine +:+ ellipsis
  else firstLine.

Definition isArrayLike (keys : list string) : bool :=
  match keys with
  | [] => false
  | _ => forallb is_decimal keys
  end.

(** [Math.max(...numeric)] for a non-empty list. *)
Definition max_of (numeric : list JsInt) : JsInt :=
  match numeric with
  | [] => Finite 0
  | n :: r => fold_left js_max r n
  end.

Definition inferArrayLength (keys : list string) : JsInt :=
  match keys with
  | [] => Finite 0
  | _ =>
      let numeric :=
        omap (fun k => if is_decimal k then Some (parseInt10 k) else None)
             keys in
      match numeric with
      | [] => Finite (Z.of_nat (length keys))
      | _ => js_succ (max_of numeric)
      end
  end.

(** [Object.keys(fields)] *)
Definition obj_keys {A} (o : list (string * A)) : list string := map fst o.

Section Preview.

(** The built-ins [Number(text)] and [String(number)]. *)
Variable jsNumber : string -> float.
Variable jsNumberToString : float -> string.

Definition formatPrimitive (node : VariableNode) : string :=
  match node_value node with
  | Some VNull => "null"
  | None => default "undefined" (node_type node)
  | Some (VStr value) =>
      if bool_decide (node_type node = Some "object") then
        if String.eqb value "Object" then "{" +:+ ellipsis +:+ "}"
        else value
      else if bool_decide (node_type node = Some "function") then
        formatFunctionPreview value
      else if looksNumeric value then jsNumberToString (jsNumber value)
      else value
  | Some (VNum n) => jsNumberToString n
  | Some (VBool b) => if b then "true" else "false"
  end.

(** [String(length)] and the interpolation of a length in a template:
    the decimal numeral of an integer up to [2^53]; the notation of the
    greater numbers is left to the built-in. *)
Definition lengthToString (length : JsInt) : string :=
  match length with
  | Finite n =>
      if n <=? 2 ^ 53 then showZ n else jsNumberToString (numberOf length)
  | Infinity => jsNumberToString (numberOf length)
  end.

Definition previewChild (node : option VariableNode) : string :=
  match node with
  | None => "undefined"
  | Some n =>
      match node_value n with
      | Some _ => formatPrimitive n
      | None =>
          let fields := default [] (node_fields n) in
          let keys := obj_keys fields in
          match keys with
          | [] => default "value" (node_type n)
          | _ =>
              if isArrayLike keys
              then "Array(" +:+ lengthToString (inferArrayLength keys) +:+ ")"
              else "{" +:+ ellipsis +:+ "}"
          end
      end
  end.

Definition formatArrayPreview (fields : VariableMap) : string :=
  let length := inferArrayLength (obj_keys fields) in
  let max :=
    match length with
    | Finite n => Z.min n 3
    | Infinity => 3
    end in
  let preview :=
    map (fun i => previewChild (obj_get (showZ i) fields)) (seqZ 0 max) in
  let preview :=
    if match length with
       | Finite n => max <? n
       | Infinity => true
       end
    then (preview ++ [ellipsis])%list else preview in
  "(" +:+ lengthToString length +:+ ") [" +:+ join ", " preview +:+ "]".

Definition formatObjectPreview (fields : VariableMap) : string :=
  let keys := obj_keys fields in
  let previews :=
    map (fun key => key +:+ ": " +:+ previewChild (obj_get key fields))
        (take 3 keys) in
  let previews :=
    if (3 <? length keys)%nat then (previews ++ [ellipsis])%list
    else previews in
  "{ " +:+ join ", " previews +:+ " }".

Definition formatNodeValue (node : VariableNode) : string :=
  match node_value node with
  | Some _ => formatPrimitive node
  | None =>
      let fields := default [] (node_fields node) in
      let keys := obj_keys fields in
      match keys with
      | [] => default "value" (node_type node)
      | _ =>
          if isArrayLike keys then formatArrayPreview fields
          else formatObjectPreview fields
      end
  end.

End Preview.

(** ** The protocol session ([ErrorReplaySession]) *)

(** Outbound protocol messages. Response bodies are not modelled. *)
Inductive Message : Type :=
| Response (command : string)
| ErrorResponse (id : Z) (format : string)
| InitializedEvent
| OutputEvent (output : string) (category : option string)
| StoppedEvent (reason : string)
| TerminatedEvent.

Inductive Request : Type :=
| InitializeRequest
| ConfigurationDoneRequest
| LaunchRequest (args : LaunchArgs)
| ThreadsRequest
| StackTraceRequest
| ScopesRequest
| VariablesRequest
| EvaluateRequest
| ContinueRequest
| NextRequest
| StepInRequest
| StepOutRequest
| StepBackRequest
| ReverseContinueRequest
| RestartFrameRequest (frameId : option Z)   (* [Some] iff a number *)
| TerminateRequest
| SetBreakPointsRequest (sourcePath : option string)
                        (lines : option (list Z))
| ExceptionInfoRequest.

(** The session fields read or written by launch, navigation, breakpoint
    and termination handling, and the messages sent so far (oldest
    first). The variable handles are left out, and so is the effect of
    [variables] and [evaluate] requests on the runtime's variable cache,
    which is studied on the runtime itself. *)
Record Session : Type := mkSession {
  runtime : option ReplayRuntime;
  pendingBreakpoints : list (option string * list Z);
  startLineHint : option Z;
  startSourcePathHint : option string;
  terminationMessageSent : bool;
  errorSummary : option string;
  sent : list Message
}.

Definition newSession : Session :=
  {| runtime := None; pendingBreakpoints := []; startLineHint := None;
     startSourcePathHint := None; terminationMessageSent := false;
     errorSummary := None; sent := [] |}.

Definition send (m : Message) (s : Session) : Session :=
  {| runtime := runtime s; pendingBreakpoints := pendingBreakpoints s;
     startLineHint := startLineHint s;
     startSourcePathHint := startSourcePathHint s;
     terminationMessageSent := terminationMessageSent s;
     errorSummary := errorSummary s;
     sent := sent s ++ [m] |}.

Definition set_runtime (rt : option ReplayRuntime) (s : Session) : Session :=
  {| runtime := rt; pendingBreakpoints := pendingBreakpoints s;
     startLineHint := startLineHint s;
     startSourcePathHint := startSourcePathHint s;
     terminationMessageSent := terminationMessageSent s;
     errorSummary := errorSummary s;
     sent := sent s |}.

(** [map.set(k, v)] on an insertion-ordered [Map]. *)
Fixpoint map_set (k : option string) (v : list Z)
    (m : list (option string * list Z)) : list (option string * list Z) :=
  match m with
  | [] => [(k, v)]
  | (k', v') :: r =>
      if bool_decide (k' = k) then (k', v) :: r else (k', v') :: map_set k v r
  end.

(** [a || b] on optional strings. *)
Definition orTruthy (a b : option string) : option string :=
  if truthy a then a else b.

Definition newline : string := String LF "".
Definition quote : string := String (ascii_of_nat 34) "".

Definition summaryLine (summary : option string) : string :=
  (if truthy summary then "Replay finished: " +:+ default "" summary
   else "Replay finished") +:+ newline.

Definition emitTerminationOutput (s : Session) : Session :=
  if terminationMessageSent s then s
  else
    let s := send (OutputEvent (summaryLine (errorSummary s)) (Some "console"))
                  s in
    {| runtime := runtime s; pendingBreakpoints := pendingBreakpoints s;
       startLineHint := startLineHint s;
       startSourcePathHint := startSourcePathHint s;
       terminationMessageSent := true;
       errorSummary := errorSummary s;
       sent := sent s |}.

Definition allowedReasons : list string :=
  ["step"; "breakpoint"; "exception"; "pause"; "entry"; "goto";
   "function breakpoint"; "data breakpoint"; "instruction breakpoint"].

Definition postStep (result : StepResult) (s : Session) : Session :=
  if terminated result then send TerminatedEvent (emitTerminationOutput s)
  else
    let why :=
      match reason result with
      | Some r =>
          if truthy (Some r) && existsb (String.eqb r) allowedReasons
          then r else "step"
      | None => "step"
      end in
    send (StoppedEvent why) s.

Section SessionHandlers.

Variable normalize : string -> string.

Definition runtimeTerminated (s : Session) : bool :=
  match runtime s with
  | None => true
  | Some rt => isTerminated rt
  end.

Definition stopWithReason (why : string) (s : Session) : Session :=
  if runtimeTerminated s
  then send TerminatedEvent (emitTerminationOutput s)
  else send (StoppedEvent why) s.

Definition syncCursorToHint (s : Session) : Session :=
  match runtime s, startLineHint s with
  | Some rt, Some line =>
      {| runtime :=
           Some (setCursorByLocation normalize (startSourcePathHint s)
                                     (Some line) rt);
         pendingBreakpoints := pendingBreakpoints s;
         startLineHint := None;
         startSourcePathHint := None;
         terminationMessageSent := terminationMessageSent s;
         errorSummary := errorSummary s;
         sent := sent s |}
  | _, _ => s
  end.

Definition performStepOver (command : string) (s : Session) : Session :=
  let '(result, rt') :=
    match runtime s with
    | Some rt =>
        let '(r, rt') := stepOnce normalize (Some "next") rt in
        (r, Some rt')
    | None => (step_terminated, None)
    end in
  postStep result (send (Response command) (set_runtime rt' s)).

Definition performNoopStep (command source : string) (s : Session)
  : Session :=
  if runtimeTerminated s
  then send TerminatedEvent (send (Response command) s)
  else
    send (StoppedEvent "step")
      (send (Response command)
         (send (OutputEvent
                  (quote +:+ source +:+ quote +:+
                   " not supported; staying on current frame." +:+ newline)
                  (Some "console")) s)).

Definition continueRequest (s : Session) : Session :=
  let '(result, rt') :=
    match runtime s with
    | Some rt =>
        let '(r, rt') := continueExecution normalize rt in (r, Some rt')
    | None => (step_terminated, None)
    end in
  postStep result (send (Response "continue") (set_runtime rt' s)).

Definition stepBackRequest (s : Session) : Session :=
  send (StoppedEvent "step")
    (send (OutputEvent
             (quote +:+ "stepBack" +:+ quote +:+
              " not supported; use " +:+ quote +:+ "Restart Frame" +:+
              quote +:+ " to replay a frame." +:+ newline)
             (Some "console"))
       (send (Response "stepBack") s)).

Definition reverseContinueRequest (s : Session) : Session :=
  send (StoppedEvent "step")
    (send (OutputEvent
             (quote +:+ "reverseContinue" +:+ quote +:+
              " not supported; use " +:+ quote +:+ "Restart Frame" +:+
              quote +:+ " to replay from a frame." +:+ newline)
             (Some "console"))
       (send (Response "reverseContinue") s)).

Definition restartFrameRequest (frameId : option Z) (s : Session)
  : Session :=
  let s :=
    match frameId with
    | Some id =>
        send (StoppedEvent "restart")
          (set_runtime (setCursorByFrameId id <$> runtime s) s)
    | None => s
    end in
  send (Response "restartFrame") s.

Definition terminateRequest (s : Session) : Session :=
  let s := send (Response "terminate") s in
  let s := if runtimeTerminated s then emitTerminationOutput s else s in
  send TerminatedEvent s.

Definition setBreakPointsRequest (sourcePath : option string)
    (lines : option (list Z)) (s : Session) : Session :=
  let lines := default [] lines in
  let s :=
    {| runtime :=
         (fun rt => snd (setBreakpoints normalize sourcePath lines rt))
           <$> runtime s;
       pendingBreakpoints := map_set sourcePath lines (pendingBreakpoints s);
       startLineHint := startLineHint s;
       startSourcePathHint := startSourcePathHint s;
       terminationMessageSent := terminationMessageSent s;
       errorSummary := errorSummary s;
       sent := sent s |} in
  send (Response "setBreakpoints") s.

(** The part of [launchRequest] after the stack trace has loaded. *)
Definition launched (args : LaunchArgs) (stackTrace : StackTrace)
    (s : Session) : Session :=
  let rt := newRuntime normalize stackTrace in
  let summary :=
    orTruthy (la_errorTitle args)
      (orTruthy (st_id stackTrace)
         (orTruthy (st_eventId stackTrace)
            (orTruthy (la_errorId args)
               (orTruthy (st_traceId stackTrace) (Some "Recorded error"))))) in
  let rt :=
    fold_left (fun rt '(sourcePath, lines) =>
                 snd (setBreakpoints normalize sourcePath lines rt))
              (pendingBreakpoints s) rt in
  let s :=
    {| runtime := Some rt;
       pendingBreakpoints := pendingBreakpoints s;
       startLineHint := la_startLine args;
       startSourcePathHint := la_startSourcePath args;
       terminationMessageSent := terminationMessageSent s;
       errorSummary := summary;
       sent := sent s |} in
  let s :=
    if la_trace args
    then send (OutputEvent ("Loaded replay data" +:+ newline) (Some "console")) s
    else s in
  let s := syncCursorToHint s in
  stopWithReason "entry" (send (Response "launch") s).

Definition launchRequest (args : LaunchArgs) (s : Session) : Prog Session :=
  loaded ← try_catch
             (stackTrace ← await_loadStackTrace args; mret (inl stackTrace))
             (fun message => mret (inr message));
  match loaded with
  | inl stackTrace => mret (launched args stackTrace s)
  | inr message =>
      mret (send (ErrorResponse 1001
                    ("Failed to load replay data: " +:+
                     default "unknown error" message)) s)
  end.

(** Dispatch of a request to its handler. The requests that only read
    the runtime to build a response body ([threads], [stackTrace],
    [scopes], [variables], [evaluate], [exceptionInfo]) are represented
    by the one message they answer with. *)
Definition handleRequest (r : Request) (s : Session) : Prog Session :=
  match r with
  | InitializeRequest =>
      mret (send InitializedEvent (send (Response "initialize") s))
  | ConfigurationDoneRequest => mret (send (Response "configurationDone") s)
  | LaunchRequest args => launchRequest args s
  | ThreadsRequest => mret (send (Response "threads") s)
  | StackTraceRequest => mret (send (Response "stackTrace") s)
  | ScopesRequest => mret (send (Response "scopes") s)
  | VariablesRequest => mret (send (Response "variables") s)
  | EvaluateRequest =>
      mret (match runtime s with
            | None =>
                send (ErrorResponse 2001 "Replay runtime not initialized.") s
            | Some _ => send (Response "evaluate") s
            end)
  | ContinueRequest => mret (continueRequest s)
  | NextRequest => mret (performStepOver "next" s)
  | StepInRequest => mret (performNoopStep "stepIn" "stepIn" s)
  | StepOutRequest => mret (performNoopStep "stepOut" "stepOut" s)
  | StepBackRequest => mret (stepBackRequest s)
  | ReverseContinueRequest => mret (reverseContinueRequest s)
  | RestartFrameRequest frameId => mret (restartFrameRequest frameId s)
  | TerminateRequest => mret (terminateRequest s)
  | SetBreakPointsRequest sourcePath lines =>
      mret (setBreakPointsRequest sourcePath lines s)
  | ExceptionInfoRequest =>
      mret (match runtime s with
            | None =>
                send (ErrorResponse 3001 "No exception info available.") s
            | Some _ => send (Response "exceptionInfo") s
            end)
  end.

(** A session serving requests one after the other. A request handled
    while [launchRequest] awaits the loader finds the session as it was
    before the launch, as if it had been served first. *)
Fixpoint serve (rs : list Request) (s : Session) : Prog Session :=
  match rs with
  | [] => mret s
  | r :: rest => s' ← handleRequest r s; serve rest s'
  end.

End SessionHandlers.

(** ** Stack display ([stackTraceRequest], [filterFrames]) *)

(** The relative index of [Array.prototype.slice] for a length [len]. *)
Definition slice_index (len k : Z) : Z :=
  if k <? 0 then Z.max (len + k) 0 else Z.min k len.

(** [array.slice(first, final)] for integers. *)
Definition js_slice {A} (l : list A) (first final : Z) : list A :=
  let len := Z.of_nat (length l) in
  let from := slice_index len first in
  let to := slice_index len final in
  take (Z.to_nat (to - from)) (drop (Z.to_nat from) l).

(** [filterFrames]; [shouldSkipFrame] is the optional predicate of the
    session options, taken as a total function of the frame's file. *)
Definition filterFrames (shouldSkipFrame : option (option string -> bool))
    (frames : list ReplayFrame) : list ReplayFrame :=
  match shouldSkipFrame with
  | None => frames
  | Some skip =>
      match List.filter (fun frame => negb (skip (f_file frame))) frames with
      | [] => frames
      | kept => kept
      end
  end.

(** The frames that [stackTraceRequest] turns into protocol stack
    frames, in the order of the response; [totalFrames] of the response
    is their number. *)
Definition stackTraceFrames (shouldSkipFrame : option (option string -> bool))
    (startFrame levels : option Z) (s : Session) : list ReplayFrame :=
  match runtime s with
  | None => []
  | Some rt =>
      if isTerminated rt then []
      else
        let start := default 0 startFrame in
        let maxLevels := default (totalFrames rt) levels in
        filterFrames shouldSkipFrame
          (js_slice (getOrderedFrames rt) start (start + maxLevels))
  end.

(** ** Variable containers and handles *)

(** The fields of the runtime's [instrumentationInfo] shown by
    [getMeta]. *)
Record InstrumentationInfo : Type := mkInfo {
  ii_traceId : option string;
  ii_spanId : option string;
  ii_sourceObjectUri : option string
}.

Inductive ContainerKind : Type := KLocals | KArguments | KMeta | KObject.

Record VariableContainer : Type := mkContainer {
  vc_kind : ContainerKind;
  vc_snapshotId : option string;
  vc_fields : option VariableMap
}.

(** [Handles<VariableContainer>] of the debug adapter library: handles
    are minted in sequence from [START_HANDLE]; the table lists the
    values in order of creation. *)
Definition START_HANDLE : Z := 1000.

Definition handles_create (value : VariableContainer)
    (handles : list VariableContainer) : Z * list VariableContainer :=
  (START_HANDLE + Z.of_nat (length handles), (handles ++ [value])%list).

Definition handles_get (handles : list VariableContainer) (handle : Z)
  : option VariableContainer :=
  at_index handles (handle - START_HANDLE).

(** [DebugProtocol.Variable] as built by [convertValue]. *)
Record DapVariable : Type := mkVariable {
  dv_name : string;
  dv_type : option string;
  dv_value : string;
  dv_variablesReference : Z
}.

Definition stringNode (value : string) : VariableNode :=
  Node (Some "string") (Some (VStr value)) None.

Definition getMeta (info : InstrumentationInfo) (snapshotId : option string)
  : VariableMap :=
  [("snapshotId", stringNode (default "n/a" snapshotId));
   ("traceId", stringNode (default "" (ii_traceId info)));
   ("spanId", stringNode (default "" (ii_spanId info)));
   ("sourceObjectUri", stringNode (default "" (ii_sourceObjectUri info)))].

Definition inactivePlaceholder : DapVariable :=
  {| dv_name := "(inactive frame)"; dv_type := None;
     dv_value := "Variables load when the frame is active";
     dv_variablesReference := 0 |}.

Section VariableRequests.

(** The built-ins [Number(text)] and [String(number)]. *)
Variable jsNumber : string -> float.
Variable jsNumberToString : float -> string.

Definition convertValue (name : string) (node : option VariableNode)
    (handles : list VariableContainer)
  : DapVariable * list VariableContainer :=
  match node with
  | None =>
      ({| dv_name := name; dv_type := None; dv_value := "undefined";
          dv_variablesReference := 0 |}, handles)
  | Some n =>
      let valueText := formatNodeValue jsNumber jsNumberToString n in
      let fields := default [] (node_fields n) in
      let hasChildren := (0 <? length (obj_keys fields))%nat in
      let '(variablesReference, handles') :=
        if hasChildren then
          handles_create {| vc_kind := KObject; vc_snapshotId := None;
                            vc_fields := Some fields |} handles
        else (0, handles) in
      ({| dv_name := name; dv_type := node_type n;
          dv_value :=
            default "value"
              (orTruthy (Some valueText) (orTruthy (node_type n) None));
          dv_variablesReference := variablesReference |}, handles')
  end.

(** [Object.entries(record).map(...)]: the entries are converted from
    first to last. *)
Fixpoint buildVariablesFromRecord (record : VariableMap)
    (handles : list VariableContainer)
  : list DapVariable * list VariableContainer :=
  match record with
  | [] => ([], handles)
  | (name, value) :: rest =>
      let '(variable, handles1) := convertValue name (Some value) handles in
      let '(variables, handles2) := buildVariablesFromRecord rest handles1 in
      (variable :: variables, handles2)
  end.

(** [resolveVariables(container)]: the variables of the response, the
    runtime (whose cache may have grown) and the handle table. *)
Definition resolveVariables (info : InstrumentationInfo)
    (container : option VariableContainer) (rt : option ReplayRuntime)
    (handles : list VariableContainer)
  : Prog (list DapVariable * option ReplayRuntime * list VariableContainer) :=
  match container, rt with
  | None, _ | _, None => mret ([], rt, handles)
  | Some c, Some runtime =>
      let currentSnapshot := getCurrentSnapshotId runtime in
      let scoped :=
        match vc_kind c with
        | KLocals | KArguments => true
        | _ => false
        end in
      if scoped && truthy (vc_snapshotId c)
         && negb (bool_decide (vc_snapshotId c = currentSnapshot))
      then mret ([inactivePlaceholder], rt, handles)
      else
        match vc_kind c with
        | KLocals =>
            '(record, runtime') ← getLocals jsNumber (vc_snapshotId c) runtime;
            let '(variables, handles') :=
              buildVariablesFromRecord record handles in
            mret (variables, Some runtime', handles')
        | KArguments =>
            '(record, runtime') ← getArguments jsNumber (vc_snapshotId c)
                                    runtime;
            let '(variables, handles') :=
              buildVariablesFromRecord record handles in
            mret (variables, Some runtime', handles')
        | KMeta =>
            let '(variables, handles') :=
              buildVariablesFromRecord (getMeta info (vc_snapshotId c))
                                       handles in
            mret (variables, rt, handles')
        | KObject =>
            let '(variables, handles') :=
              buildVariablesFromRecord (default [] (vc_fields c)) handles in
            mret (variables, rt, handles')
        end
  end.

(** The body of [variablesRequest]. *)
Definition variablesRequest (info : InstrumentationInfo)
    (variablesReference : Z) (rt : option ReplayRuntime)
    (handles : list VariableContainer)
  : Prog (list DapVariable * option ReplayRuntime * list VariableContainer) :=
  resolveVariables info (handles_get handles variablesReference) rt handles.

End VariableRequests.

(** The body of [scopesRequest]: the references of the scopes
    [Locals], [Arguments] and [Replay Meta], in that order, and the
    handle table; no scope without a runtime. *)
Definition scopesRequest (frameId : Z) (rt : option ReplayRuntime)
    (handles : list VariableContainer)
  : list (string * Z) * list VariableContainer :=
  match rt with
  | None => ([], handles)
  | Some runtime =>
      let snapshotId := getSnapshotIdForFrame runtime frameId in
      let '(locals, h1) :=
        handles_create {| vc_kind := KLocals; vc_snapshotId := snapshotId;
                          vc_fields := None |} handles in
      let '(arguments, h2) :=
        handles_create {| vc_kind := KArguments; vc_snapshotId := snapshotId;
                          vc_fields := None |} h1 in
      let '(meta, h3) :=
        handles_create {| vc_kind := KMeta; vc_snapshotId := snapshotId;
                          vc_fields := None |} h2 in
      ([("Locals", locals); ("Arguments", arguments); ("Replay Meta", meta)],
       h3)
  end.

(** ** Fixture frames ([FileReplayDataSource.buildStackTrace] of the
    extension) *)

(** [frame.id] of a fixture frame: a string or an integer. *)
Inductive FixtureId : Type := IdText (s : string) | IdNumber (n : Z).

Definition fixtureIdText (id : FixtureId) : string :=
  match id with
  | IdText s => s
  | IdNumber n => showZ n
  end.

Record ReplayFixtureFrame : Type := mkFixtureFrame {
  fx_id : option FixtureId;
  fx_functionName : option string;
  fx_filePath : option string;
  fx_line : option Z;
  fx_column : option Z;
  fx_snapshotId : option string;
  fx_snapshot_id : option string
}.

Section Fixture.

Variable normalize : string -> string.

Definition normalizeFixturePath (maybePath : option string) : option string :=
  match maybePath with
  | None | Some EmptyString => None
  | Some p =>
      Some (normalize (if startsWith p "file://" then string_drop 7 p else p))
  end.

(** The callback of [fixture.frames.map] in [buildStackTrace], without
    its recording of the frame's variables. The token it builds keeps
    its coordinate under [value], so the token itself has no [uri], no
    [location] and no string [value]. *)
Definition fixtureFrame (frame : ReplayFixtureFrame) (idx : Z)
  : StackTraceFrame :=
  let snapshotId :=
    default ("snap-" +:+ showZ idx)
      (fx_snapshotId frame ?? fx_snapshot_id frame
         ?? (fixtureIdText <$> fx_id frame)) in
  let filePath := normalizeFixturePath (fx_filePath frame) in
  let lineZero := Z.max 0 (default 1 (fx_line frame) - 1) in
  let columnZero := Z.max 0 (default 1 (fx_column frame) - 1) in
  let tokens :=
    match filePath with
    | None => []
    | Some _ =>
        [{| t_kind := "runtimeCoordinate"; t_uri_path := None;
            t_location := None; t_value := None |}]
    end in
  let content :=
    if truthy (fx_functionName frame) then
      default "" (fx_functionName frame) +:+ " @ " +:+
      default "unknown" filePath +:+ ":" +:+ showZ (lineZero + 1)
    else default ("frame-" +:+ showZ idx) filePath in
  {| r_id := Some (default (showZ idx) (fixtureIdText <$> fx_id frame));
     r_content := Some content;
     r_tokens := Some tokens;
     r_file := filePath;
     r_function := fx_functionName frame;
     r_line := Some lineZero;
     r_column := Some columnZero;
     r_snapshotId := Some snapshotId;
     r_snapshot_id := None |}.

Fixpoint fixtureFrames (frames : list ReplayFixtureFrame) (idx : Z)
  : list StackTraceFrame :=
  match frames with
  | [] => []
  | frame :: rest => fixtureFrame frame idx :: fixtureFrames rest (idx + 1)
  end.

End Fixture.


(** * Vocabulary of the properties and sample data *)

(** The cursor is a position of the frame list or the terminal
    sentinel. *)
Definition cursor_ok (rt : ReplayRuntime) : Prop :=
  0 <= cursor rt <= frameCount rt.

(** Operations a client can apply to a runtime after its construction. *)
Inductive RuntimeOp : Type :=
| OpStepOnce (why : option string)
| OpContinueExecution
| OpSetCursorByFrameId (frameId : Z)
| OpSetCursorByLocation (filePath : option string) (line : option Z)
| OpSetBreakpoints (sourcePath : option string) (lines : list Z).

Definition applyOp (normalize : string -> string) (rt : ReplayRuntime)
    (op : RuntimeOp) : ReplayRuntime :=
  match op with
  | OpStepOnce why => snd (stepOnce normalize why rt)
  | OpContinueExecution => snd (continueExecution normalize rt)
  | OpSetCursorByFrameId frameId => setCursorByFrameId frameId rt
  | OpSetCursorByLocation filePath line =>
      setCursorByLocation normalize filePath line rt
  | OpSetBreakpoints sourcePath lines =>
      snd (setBreakpoints normalize sourcePath lines rt)
  end.

(** A loaded trace without frames. *)
Definition emptyTrace : StackTrace :=
  {| st_id := Some "trace-0"; st_frames := []; st_eventId := None;
     st_traceId := None |}.

(** Launch arguments without title, identifiers or start-line hint. *)
Definition plainLaunch : LaunchArgs :=
  {| la_errorTitle := None; la_errorId := None; la_traceId := None;
     la_startLine := None; la_startSourcePath := None; la_trace := false |}.

(** C7, the claim as stated: the preview ["null"] is coerced to the null
    value whatever the declared type. *)
Definition null_preview_always_null (jsNumber : string -> float) : Prop :=
  forall type : option string,
    coerceValue jsNumber (Some "null") type = Some VNull.

(** A frame hits a breakpoint of the store: its normalized file is a
    stored path and its line belongs to the set kept for that path. *)
Definition stored_hit (normalize : string -> string)
    (bps : gmap string (list Z)) (f : ReplayFrame) : Prop :=
  exists file set,
    f_file f = Some file /\ file <> "" /\
    bps !! normalize file = Some set /\ In (f_line f) set.

(** A frame matches one given path and list of lines. *)
Definition frame_matches (normalize : string -> string) (path : string)
    (lines : list Z) (f : ReplayFrame) : Prop :=
  exists file,
    f_file f = Some file /\ file <> "" /\
    normalize file = path /\ In (f_line f) lines.

(** C2, the claim as stated: after [setBreakpoints(path, lines)],
    [continueExecution()] stops on the first index beyond the cursor
    whose frame matches that path and those lines, or terminates when
    there is none, and the cursor ends strictly beyond its old value. *)
Definition continue_lands_on_submitted_breakpoint
    (normalize : string -> string) (rt : ReplayRuntime)
    (sourcePath : string) (lines : list Z) : Prop :=
  let rt1 := snd (setBreakpoints normalize (Some sourcePath) lines rt) in
  let result := fst (continueExecution normalize rt1) in
  let rt2 := snd (continueExecution normalize rt1) in
  let target i :=
    exists f, at_index (frames rt) i = Some f /\
              frame_matches normalize (normalize sourcePath) lines f in
  ((exists i, cursor rt < i /\ target i /\
              (forall j, cursor rt < j < i -> ~ target j) /\
              cursor rt2 = i /\ result = step_stopped "breakpoint") \/
   ((forall i, cursor rt < i -> ~ target i) /\
    result = step_terminated /\ isTerminated rt2 = true)) /\
  cursor rt < cursor rt2.

(** A loaded frame with a file and a zero-based line. *)
Definition rawFrame (file : string) (line : Z) (snapshot : option string)
  : StackTraceFrame :=
  {| r_id := None; r_content := None; r_tokens := Some [];
     r_file := Some file; r_function := None; r_line := Some line;
     r_column := Some 0; r_snapshotId := snapshot; r_snapshot_id := None |}.

(** Three recorded frames, crash site first: [/a.js:3], called from
    [/b.js:2], called from [/a.js:1] (one-based lines). *)
Definition twoFileTrace : StackTrace :=
  {| st_id := Some "trace-1";
     st_frames := [rawFrame "/a.js" 2 None; rawFrame "/b.js" 1 None;
                   rawFrame "/a.js" 0 None];
     st_eventId := None; st_traceId := None |}.

(** The runtime of [twoFileTrace] with a breakpoint at [/b.js:2], after
    a restart of the outermost frame (cursor 0). *)
Definition twoFileRuntime : ReplayRuntime :=
  setCursorByFrameId 2
    (snd (setBreakpoints posix_normalize (Some "/b.js") [2]
            (newRuntime posix_normalize twoFileTrace))).

(** An array node whose recorded children are ["0"] and ["2"] only. *)
Definition sparseNode : VariableNode :=
  Node (Some "array") None
       (Some [("0", Node (Some "string") (Some (VStr "a")) None);
              ("2", Node (Some "boolean") (Some (VBool true)) None)]).

(** A stand-in for [String(number)] in closed examples that print no
    number. *)
Definition sampleNumberToString (n : float) : string := "0".

(** Which part of a bundle a query returns. *)
Inductive VariableQuery : Type := QueryLocals | QueryArguments.

Definition select (q : VariableQuery) (bundle : SnapshotCaptures)
  : VariableMap :=
  match q with
  | QueryLocals => sc_locals bundle
  | QueryArguments => sc_arguments bundle
  end.

Section Queries.

Variable jsNumber : string -> float.

Definition ask (q : VariableQuery) (snapshotId : option string)
    (rt : ReplayRuntime) : Prog (VariableMap * ReplayRuntime) :=
  match q with
  | QueryLocals => getLocals jsNumber snapshotId rt
  | QueryArguments => getArguments jsNumber snapshotId rt
  end.

(** Queries issued one after the other, each awaited before the next. *)
Fixpoint askAll (qs : list VariableQuery) (snapshotId : option string)
    (rt : ReplayRuntime) : Prog (list VariableMap * ReplayRuntime) :=
  match qs with
  | [] => mret ([], rt)
  | q :: rest =>
      '(answer, rt1) ← ask q snapshotId rt;
      '(answers, rt2) ← askAll rest snapshotId rt1;
      mret (answer :: answers, rt2)
  end.

(** What [fetchVariables] resolves to, given how the loader settled. *)
Definition fetched (o : Outcome (option Variables)) : SnapshotCaptures :=
  match o with
  | Resolved result => normalizeVariables jsNumber result
  | Rejected _ => emptyCaptures
  end.

Definition cache_put (snapshotId : string) (bundle : SnapshotCaptures)
    (rt : ReplayRuntime) : ReplayRuntime :=
  {| frames := frames rt; breakpoints := breakpoints rt;
     variablesCache := <[snapshotId := bundle]> (variablesCache rt);
     cursor := cursor rt |}.

End Queries.

(** Things done with a runtime between two variable queries. *)
Inductive RuntimeAction : Type :=
| ActQuery (q : VariableQuery) (snapshotId : option string)
| ActOp (op : RuntimeOp).

Section Actions.

Variable normalize : string -> string.
Variable jsNumber : string -> float.

(** Actions performed one after the other; the answers of the queries
    are collected in order. *)
Fixpoint perform (acts : list RuntimeAction) (rt : ReplayRuntime)
  : Prog (list VariableMap * ReplayRuntime) :=
  match acts with
  | [] => mret ([], rt)
  | ActQuery q snapshotId :: rest =>
      '(answer, rt1) ← ask jsNumber q snapshotId rt;
      '(answers, rt2) ← perform rest rt1;
      mret (answer :: answers, rt2)
  | ActOp op :: rest => perform rest (applyOp normalize rt op)
  end.

(** Every snapshot loaded since the start is in the cache, and none
    was loaded twice. *)
Definition loaded_once (calls : list Call) (rt : ReplayRuntime) : Prop :=
  forall id : string,
    (loader_calls id calls <= 1)%nat /\
    (loader_calls id calls = 1%nat -> is_Some (variablesCache rt !! id)).

End Actions.

(** A data source whose promises all reject. *)
Definition failingSource : DataSource :=
  {| loadStackTrace := fun _ _ => Rejected (Some "offline");
     loadVariables := fun _ _ => Rejected (Some "offline") |}.

(** The summary line of [emitTerminationOutput]. *)
Definition is_summary (m : Message) : bool :=
  match m with
  | OutputEvent output _ => startsWith output "Replay finished"
  | _ => false
  end.

Definition count_summary (msgs : list Message) : nat :=
  length (List.filter is_summary msgs).

(** A data source that resolves every launch to one recorded trace and
    has no variables. *)
Definition recordedSource (stackTrace : StackTrace) : DataSource :=
  {| loadStackTrace := fun _ _ => Resolved stackTrace;
     loadVariables := fun _ _ => Resolved None |}.

(** The session reached from a fresh one by serving [rs]. *)
Definition sessionAfter (normalize : string -> string) (ds : DataSource)
    (rs : list Request) : option Session :=
  match run ds (serve normalize rs newSession) [] with
  | (Value s, _) => Some s
  | (Thrown _, _) => None
  end.

(** The flag records whether the summary line has been sent, the cursor
    of a launched runtime is in range, and a terminated runtime has had
    its summary. *)
Definition session_ok (s : Session) : Prop :=
  (terminationMessageSent s = true -> count_summary (sent s) = 1%nat) /\
  (terminationMessageSent s = false -> count_summary (sent s) = 0%nat) /\
  match runtime s with
  | Some rt =>
      cursor_ok rt /\
      (isTerminated rt = true -> terminationMessageSent s = true)
  | None => True
  end.

(** What a request may send: a terminate signal comes last, and exactly
    one summary line has been sent before it, unless the request is an
    explicit terminate on a session that is not terminated, or a
    [stepIn]/[stepOut] on a session without runtime; an explicit
    terminate on a live session or after the summary sends nothing but
    its response and the signal. *)
Definition emitted_ok (r : Request) (s : Session) (new : list Message)
  : Prop :=
  (In TerminatedEvent new ->
   exists pre,
     new = (pre ++ [TerminatedEvent])%list /\ ~ In TerminatedEvent pre /\
     (count_summary (sent s ++ pre) = 1%nat \/
      (r = TerminateRequest /\ runtimeTerminated s = false) \/
      ((r = StepInRequest \/ r = StepOutRequest) /\ runtime s = None))) /\
  (r = TerminateRequest ->
   runtimeTerminated s = false \/ terminationMessageSent s = true ->
   new = [Response "terminate"; TerminatedEvent]).

Definition step_ok (r : Request) (s s' : Session) : Prop :=
  session_ok s' /\
  exists new, sent s' = (sent s ++ new)%list /\ emitted_ok r s new.

Definition runtime_ok (flag : bool) (rt : option ReplayRuntime) : Prop :=
  match rt with
  | Some rt => cursor_ok rt /\ (isTerminated rt = true -> flag = true)
  | None => True
  end.

(** C6, the claim as stated: at most one summary line is sent, and every
    terminate signal is preceded by exactly one summary line. *)
Definition every_terminate_after_one_summary (normalize : string -> string)
    (ds : DataSource) (rs : list Request) : Prop :=
  exists s,
    sessionAfter normalize ds rs = Some s /\
    (count_summary (sent s) <= 1)%nat /\
    forall pre post,
      sent s = (pre ++ TerminatedEvent :: post)%list ->
      count_summary pre = 1%nat.

(** C3, the claim as stated: after launch the cursor is on the crash
    site (internal index 2); the first and the second [next] each stop
    on another frame; the third [next] terminates the session, with
    exactly one summary line sent. *)
Definition next_visits_remaining_frames (normalize : string -> string)
    (ds : DataSource) (args : LaunchArgs) : Prop :=
  exists s0 s1 s2 s3 rt0 rt1 rt2 why1 why2,
    sessionAfter normalize ds [LaunchRequest args] = Some s0 /\
    sessionAfter normalize ds [LaunchRequest args; NextRequest] = Some s1 /\
    sessionAfter normalize ds [LaunchRequest args; NextRequest; NextRequest]
    = Some s2 /\
    sessionAfter normalize ds
      [LaunchRequest args; NextRequest; NextRequest; NextRequest] = Some s3 /\
    runtime s0 = Some rt0 /\ runtime s1 = Some rt1 /\ runtime s2 = Some rt2 /\
    cursor rt0 = 2 /\
    isTerminated rt1 = false /\ cursor rt1 <> cursor rt0 /\
    last (sent s1) = Some (StoppedEvent why1) /\
    isTerminated rt2 = false /\ cursor rt2 <> cursor rt1 /\
    cursor rt2 <> cursor rt0 /\
    last (sent s2) = Some (StoppedEvent why2) /\
    runtimeTerminated s3 = true /\ count_summary (sent s3) = 1%nat.

(** Three recorded frames, crash site first; only the crash site has a
    snapshot, ["s2"]. *)
Definition crashTrace : StackTrace :=
  {| st_id := Some "trace-2";
     st_frames := [rawFrame "/app/crash.js" 9 (Some "s2");
                   rawFrame "/app/inner.js" 4 None;
                   rawFrame "/app/main.js" 1 None];
     st_eventId := None; st_traceId := None |}.

(** A frame is at a location hint: it has the hinted line and, when a
    path is hinted (and its normal form is not empty), the normal form
    of its file, or of the empty string when it has none, is the normal
    form of the hinted path. *)
Definition at_location (normalize : string -> string)
    (filePath : option string) (line : Z) (f : ReplayFrame) : Prop :=
  (forall p, filePath = Some p -> p <> "" -> normalize p <> "" ->
             normalize (default "" (f_file f)) = normalize p) /\
  f_line f = line.

(** A fixture frame as the harvesting tool writes it. *)
Definition sampleFixtureFrame : ReplayFixtureFrame :=
  {| fx_id := Some (IdNumber 0); fx_functionName := Some "crash";
     fx_filePath := Some "file:///app/crash.js"; fx_line := Some 13;
     fx_column := Some 9; fx_snapshotId := Some "frame-0";
     fx_snapshot_id := None |}.

(** Instrumentation without identifiers. *)
Definition noInfo : InstrumentationInfo :=
  {| ii_traceId := None; ii_spanId := None; ii_sourceObjectUri := None |}.


(** The reasons with which a session reports a stop. *)
Definition stop_reason_ok (m : Message) : Prop :=
  match m with
  | StoppedEvent why => In why ["entry"; "step"; "breakpoint"; "restart"]
  | _ => True
  end.

(** Responses, successful or not. *)
Definition is_response (m : Message) : bool :=
  match m with
  | Response _ | ErrorResponse _ _ => true
  | _ => false
  end.


(** The requests whose handlers settle without waiting for a frame
    filter or for variables. *)
Definition settles_alone (r : Request) : bool :=
  match r with
  | StackTraceRequest | VariablesRequest | EvaluateRequest => false
  | _ => true
  end.

(** The fields [idx], [idx + 1], ... holding the given nodes in order. *)
Fixpoint indexed_from (idx : Z) (nodes : list VariableNode) : VariableMap :=
  match nodes with
  | [] => []
  | n :: r => (showZ idx, n) :: indexed_from (idx + 1) r
  end.


(** The greatest of a non-empty list of integers. *)
Definition greatest_of (values : list Z) : Z :=
  match values with
  | [] => 0
  | n :: r => fold_left Z.max r n
  end.

(** * Properties *)

(** ** Helper facts on the JavaScript list primitives *)

Lemma findIndex_from_range {A} (p : A -> bool) (l : list A) (i : Z) :
  findIndex_from p l i = -1 \/
  i <= findIndex_from p l i < i + Z.of_nat (length l).
Proof.
  revert i. induction l as [|x r IH]; intros i; simpl.
  - now left.
  - destruct (p x).
    + right. lia.
    + destruct (IH (i + 1)) as [-> | H]; [now left | right; lia].
Qed.

Lemma findIndex_range {A} (p : A -> bool) (l : list A) :
  0 <= findIndex p l -> 0 <= findIndex p l < Z.of_nat (length l).
Proof.
  unfold findIndex. intros H.
  destruct (findIndex_from_range p l 0) as [E | E]; lia.
Qed.

Lemma at_index_Some {A} (l : list A) (i : Z) (x : A) :
  at_index l i = Some x -> 0 <= i < Z.of_nat (length l).
Proof.
  unfold at_index. destruct (0 <=? i) eqn:E; [|discriminate].
  intros H. apply lookup_lt_Some in H. lia.
Qed.

Lemma set_has_In (s : list Z) (x : Z) : set_has s x = true <-> In x s.
Proof.
  unfold set_has. rewrite existsb_exists. split.
  - intros (y & Hy & E). apply Z.eqb_eq in E. now subst.
  - intros H. exists x. split; [assumption | apply Z.eqb_refl].
Qed.

Lemma set_of_lines_acc_In (lines seen : list Z) (x : Z) :
  In x (set_of_lines_acc seen lines) <-> In x seen \/ In x lines.
Proof.
  revert seen. induction lines as [|l r IH]; intros seen; simpl.
  - rewrite <- in_rev. tauto.
  - destruct (existsb (Z.eqb l) seen) eqn:E; rewrite IH; simpl.
    + apply (set_has_In seen l) in E. split; [tauto|].
      intros [H | [<- | H]]; tauto.
    + tauto.
Qed.

Lemma set_of_lines_In (lines : list Z) (x : Z) :
  In x (set_of_lines lines) <-> In x lines.
Proof. unfold set_of_lines. rewrite set_of_lines_acc_In. simpl. tauto. Qed.

(** ** Cursor invariant *)

Section RuntimeFacts.

Variable normalize : string -> string.

Lemma hitsBreakpoint_in_range bps (fs : list ReplayFrame) (i : Z) :
  hitsBreakpoint normalize bps (at_index fs i) = true ->
  0 <= i < Z.of_nat (length fs).
Proof.
  destruct (at_index fs i) eqn:E; [|discriminate].
  intros _. eapply at_index_Some; eassumption.
Qed.

(** What the scan of [findNextBreakpointIndex] returns. *)
Lemma findNextBreakpoint_loop_spec rt (fuel : nat) (i : Z) :
  let r := findNextBreakpoint_loop normalize rt fuel i in
  (r = -1 /\
   forall j, i <= j < i + Z.of_nat fuel ->
     hitsBreakpoint normalize (breakpoints rt) (at_index (frames rt) j)
     = false) \/
  (i <= r < i + Z.of_nat fuel /\
   hitsBreakpoint normalize (breakpoints rt) (at_index (frames rt) r) = true
   /\
   forall j, i <= j < r ->
     hitsBreakpoint normalize (breakpoints rt) (at_index (frames rt) j)
     = false).
Proof.
  cbv zeta. revert i. induction fuel as [|fuel IH]; intros i; simpl.
  - left. split; [reflexivity | intros j Hj; lia].
  - destruct (hitsBreakpoint normalize (breakpoints rt)
                (at_index (frames rt) i)) eqn:E.
    + right. repeat split; try lia. exact E.
    + destruct (IH (i + 1)) as [[Hr Hn] | (Hr & Hh & Hn)].
      * left. split; [exact Hr|]. intros j Hj.
        destruct (Z.eq_dec j i) as [-> | Hne]; [exact E | apply Hn; lia].
      * right. repeat split; try lia; [exact Hh|]. intros j Hj.
        destruct (Z.eq_dec j i) as [-> | Hne]; [exact E | apply Hn; lia].
Qed.

Lemma findNextBreakpointIndex_spec rt (start : Z) :
  let r := findNextBreakpointIndex normalize rt start in
  (r = -1 /\
   forall j, start <= j < frameCount rt ->
     hitsBreakpoint normalize (breakpoints rt) (at_index (frames rt) j)
     = false) \/
  (start <= r < frameCount rt /\ 0 <= r /\
   hitsBreakpoint normalize (breakpoints rt) (at_index (frames rt) r) = true
   /\
   forall j, start <= j < r ->
     hitsBreakpoint normalize (breakpoints rt) (at_index (frames rt) j)
     = false).
Proof.
  unfold findNextBreakpointIndex. cbv zeta.
  pose proof (findNextBreakpoint_loop_spec rt
                (Z.to_nat (frameCount rt - start)) start) as H.
  cbv zeta in H.
  destruct H as [[Hr Hn] | (Hr & Hh & Hn)].
  - left. split; [exact Hr|]. intros j Hj. apply Hn. lia.
  - right. pose proof (hitsBreakpoint_in_range _ _ _ Hh) as Hb.
    unfold frameCount in *. repeat split; try lia; assumption.
Qed.

Lemma findInitialFrame_range (fs : list ReplayFrame) :
  0 <= findInitialFrame fs <= Z.of_nat (length fs).
Proof.
  unfold findInitialFrame. destruct fs as [|f fs]; [simpl; lia|].
  set (l := f :: fs).
  set (idx := findIndex _ (rev l)).
  assert (0 < Z.of_nat (length l)) by (subst l; simpl; lia).
  destruct (0 <=? idx) eqn:E; [|lia].
  apply Z.leb_le in E. apply findIndex_range in E.
  fold idx in E. rewrite length_rev in E. lia.
Qed.

Lemma newRuntime_cursor_ok st : cursor_ok (newRuntime normalize st).
Proof. unfold cursor_ok, frameCount. simpl. apply findInitialFrame_range. Qed.

Lemma stepOnce_cursor_ok why rt :
  cursor_ok rt -> cursor_ok (snd (stepOnce normalize why rt)).
Proof.
  unfold cursor_ok, stepOnce, frameCount. intros H.
  destruct (Z.of_nat (length (frames rt)) <=? cursor rt + 1) eqn:E; simpl.
  - lia.
  - apply Z.leb_gt in E.
    destruct (hitsBreakpoint _ _ _); simpl; lia.
Qed.

Lemma continueExecution_cursor_ok rt :
  cursor_ok rt -> cursor_ok (snd (continueExecution normalize rt)).
Proof.
  unfold cursor_ok, continueExecution. intros H.
  destruct (findNextBreakpointIndex_spec rt (cursor rt + 1))
    as [[Hr _] | (Hr & H0 & _)].
  - rewrite Hr. simpl. unfold frameCount in *. simpl. lia.
  - destruct (_ =? -1) eqn:E; simpl; unfold frameCount in *; simpl; lia.
Qed.

Lemma setCursorByFrameId_cursor_ok frameId rt :
  cursor_ok rt -> cursor_ok (setCursorByFrameId frameId rt).
Proof.
  unfold cursor_ok, setCursorByFrameId, frameCount. intros H.
  destruct (0 <=? findIndex _ _) eqn:E; [|exact H].
  apply Z.leb_le in E. apply findIndex_range in E. simpl. lia.
Qed.

Lemma setCursorByLocation_cursor_ok filePath line rt :
  cursor_ok rt -> cursor_ok (setCursorByLocation normalize filePath line rt).
Proof.
  intros H. unfold setCursorByLocation.
  destruct (frames rt) as [|f fs] eqn:Ef; [exact H|].
  destruct line as [ln|]; [|exact H].
  destruct (0 <=? findIndex _ _) eqn:E; [|exact H].
  apply Z.leb_le in E. apply findIndex_range in E.
  unfold cursor_ok, frameCount. simpl. rewrite Ef. lia.
Qed.

Lemma setBreakpoints_cursor_ok sourcePath lines rt :
  cursor_ok rt -> cursor_ok (snd (setBreakpoints normalize sourcePath lines rt)).
Proof.
  unfold cursor_ok, setBreakpoints, frameCount.
  destruct (truthy sourcePath); simpl; auto.
Qed.

End RuntimeFacts.

Lemma applyOp_cursor_ok normalize rt op :
  cursor_ok rt -> cursor_ok (applyOp normalize rt op).
Proof.
  destruct op; simpl;
    auto using stepOnce_cursor_ok, continueExecution_cursor_ok,
      setCursorByFrameId_cursor_ok, setCursorByLocation_cursor_ok,
      setBreakpoints_cursor_ok.
Qed.

Lemma applyOps_cursor_ok normalize ops rt :
  cursor_ok rt -> cursor_ok (fold_left (applyOp normalize) ops rt).
Proof.
  revert rt. induction ops as [|op ops IH]; intros rt H; simpl.
  - exact H.
  - apply IH, applyOp_cursor_ok, H.
Qed.

(** C1. Whatever stack trace the runtime is built from and whatever
    sequence of [stepOnce], [continueExecution], [setCursorByFrameId],
    [setCursorByLocation] (and [setBreakpoints]) calls follows the initial
    cursor placement, the cursor lies in [[0, frameCount]], and
    [isTerminated()] is true exactly when the cursor is outside
    [[0, frameCount)]. *)
Theorem cursor_stays_in_range (normalize : string -> string)
    (stackTrace : StackTrace) (ops : list RuntimeOp) :
  let rt := fold_left (applyOp normalize) ops (newRuntime normalize stackTrace) in
  0 <= cursor rt <= frameCount rt /\
  (isTerminated rt = true <-> ~ (0 <= cursor rt < frameCount rt)).
Proof.
  intros rt.
  assert (H : cursor_ok rt)
    by (apply applyOps_cursor_ok, newRuntime_cursor_ok).
  split; [exact H|].
  unfold isTerminated. rewrite orb_true_iff, Z.leb_le, Z.ltb_lt. lia.
Qed.

(** ** Empty traces and the breakpoint store *)

Lemma setBreakpoints_frames normalize sourcePath lines rt :
  frames (snd (setBreakpoints normalize sourcePath lines rt)) = frames rt /\
  cursor (snd (setBreakpoints normalize sourcePath lines rt)) = cursor rt /\
  variablesCache (snd (setBreakpoints normalize sourcePath lines rt))
  = variablesCache rt.
Proof. unfold setBreakpoints. destruct (truthy sourcePath); simpl; auto. Qed.

Lemma pending_breakpoints_frames normalize
    (pending : list (option string * list Z)) rt :
  let rt' :=
    fold_left (fun rt '(sourcePath, lines) =>
                 snd (setBreakpoints normalize sourcePath lines rt))
              pending rt in
  frames rt' = frames rt /\ cursor rt' = cursor rt.
Proof.
  cbv zeta. revert rt.
  induction pending as [|[sourcePath lines] pending IH]; intros rt; simpl.
  - auto.
  - destruct (IH (snd (setBreakpoints normalize sourcePath lines rt)))
      as [-> ->].
    destruct (setBreakpoints_frames normalize sourcePath lines rt)
      as (-> & -> & _).
    auto.
Qed.

(** C9. A stack trace without frames gives a runtime that is terminated
    from the start: the initial cursor is 0, [isTerminated()] holds
    before any navigation, [getOrderedFrames()] is empty, and the session
    is terminated as soon as such a trace has been launched. *)
Theorem empty_trace_terminated_from_launch (normalize : string -> string)
    (stackTrace : StackTrace) (args : LaunchArgs) (s : Session) :
  st_frames stackTrace = [] ->
  let rt := newRuntime normalize stackTrace in
  cursor rt = 0 /\ isTerminated rt = true /\ getOrderedFrames rt = [] /\
  runtimeTerminated (launched normalize args stackTrace s) = true.
Proof.
  intros Hf. cbv zeta.
  assert (Hrt : frames (newRuntime normalize stackTrace) = [] /\
                cursor (newRuntime normalize stackTrace) = 0)
    by (unfold newRuntime, buildFrames; rewrite Hf; simpl; auto).
  destruct Hrt as [Hfr Hc].
  repeat split.
  - exact Hc.
  - unfold isTerminated, frameCount. rewrite Hfr, Hc. reflexivity.
  - unfold getOrderedFrames. rewrite Hfr. reflexivity.
  - unfold launched.
    destruct (pending_breakpoints_frames normalize (pendingBreakpoints s)
                (newRuntime normalize stackTrace)) as [Hf' Hc'].
    cbv zeta in Hf', Hc'. rewrite Hfr in Hf'. rewrite Hc in Hc'.
    set (rt := fold_left _ (pendingBreakpoints s) _) in *.
    assert (Hterm : forall s0 : Session,
               runtime s0 = Some rt ->
               runtimeTerminated
                 (stopWithReason "entry"
                    (send (Response "launch") (syncCursorToHint normalize s0)))
               = true).
    { intros s0 Hs0.
      assert (Hs : exists rt1, runtime (syncCursorToHint normalize s0)
                               = Some rt1 /\ isTerminated rt1 = true).
      { unfold syncCursorToHint. rewrite Hs0.
        destruct (startLineHint s0); simpl.
        - eexists; split; [reflexivity|].
          unfold setCursorByLocation. rewrite Hf'.
          unfold isTerminated, frameCount. rewrite Hf', Hc'. reflexivity.
        - exists rt. split; [exact Hs0|].
          unfold isTerminated, frameCount. rewrite Hf', Hc'. reflexivity. }
      destruct Hs as (rt1 & Hr1 & Ht1).
      unfold stopWithReason, runtimeTerminated. simpl. rewrite Hr1, Ht1.
      unfold emitTerminationOutput.
      destruct (terminationMessageSent _); simpl; rewrite Hr1; exact Ht1. }
    destruct (la_trace args); apply Hterm; reflexivity.
Qed.

Lemma empty_trace_terminated_from_launch_witness :
  st_frames emptyTrace = [] /\
  cursor (newRuntime posix_normalize emptyTrace) = 0 /\
  isTerminated (newRuntime posix_normalize emptyTrace) = true /\
  getOrderedFrames (newRuntime posix_normalize emptyTrace) = [] /\
  runtimeTerminated (launched posix_normalize plainLaunch emptyTrace newSession)
  = true.
Proof.
  split; [reflexivity|].
  apply (empty_trace_terminated_from_launch posix_normalize emptyTrace
           plainLaunch newSession).
  reflexivity.
Defined.

(** C10. [setBreakpoints] with an undefined source path reports no line
    and leaves the runtime as it was; in particular every stored path
    keeps its set of lines. *)
Theorem setBreakpoints_undefined_path (normalize : string -> string)
    (lines : list Z) (rt : ReplayRuntime) :
  setBreakpoints normalize None lines rt = ([], rt) /\
  forall path : string,
    breakpoints (snd (setBreakpoints normalize None lines rt)) !! path
    = breakpoints rt !! path.
Proof. split; [reflexivity | intros path; reflexivity]. Qed.

(** ** Coercion of the preview text ["null"] *)

(** The expectations of [index.test.ts] on [coerceValue]. *)
Example coerceValue_unit_tests :
  coerceValue sampleNumber (Some "42") (Some "number")
  = Some (VNum (sampleNumber "42")) /\
  coerceValue sampleNumber (Some "false") (Some "boolean")
  = Some (VBool false) /\
  coerceValue sampleNumber (Some "not-a-number") (Some "number")
  = Some (VStr "not-a-number") /\
  coerceValue sampleNumber (Some "null") (Some "string") = Some VNull /\
  coerceValue sampleNumber None (Some "string") = Some (VStr "string").
Proof. repeat split; reflexivity. Qed.

Lemma coerceValue_number_not_null (jsNumber : string -> float)
    (valuePreview : string) :
  coerceValue jsNumber (Some valuePreview) (Some "number") <> Some VNull.
Proof.
  unfold coerceValue. simpl.
  destruct (PrimFloat.is_nan (jsNumber valuePreview)); discriminate.
Qed.

(** C7, counterexample: with the declared type ["number"] the preview
    ["null"] is returned as text, not as the null value. *)
Lemma null_preview_number_counterexample :
  coerceValue sampleNumber (Some "null") (Some "number") = Some (VStr "null")
  /\ ~ null_preview_always_null sampleNumber.
Proof.
  split; [reflexivity|].
  intros H. specialize (H (Some "number")). discriminate H.
Qed.

(** C7, amended. [Number("null")] being [NaN], the preview ["null"] is
    coerced to the null value for every declared type other than
    ["number"] (["boolean"] and an absent type included); with the
    declared type ["number"] the raw text ["null"] is returned. *)
Theorem coerceValue_null_preview (jsNumber : string -> float)
    (type : option string) :
  PrimFloat.is_nan (jsNumber "null") = true ->
  coerceValue jsNumber (Some "null") type
  = Some (if bool_decide (type = Some "number") then VStr "null" else VNull).
Proof.
  intros Hnan. unfold coerceValue.
  destruct (bool_decide (type = Some "number")); [now rewrite Hnan|].
  destruct (bool_decide (type = Some "boolean")); reflexivity.
Qed.

Lemma coerceValue_null_preview_witness :
  PrimFloat.is_nan (sampleNumber "null") = true /\
  coerceValue sampleNumber (Some "null") (Some "boolean") = Some VNull.
Proof.
  split; [reflexivity|].
  apply (coerceValue_null_preview sampleNumber (Some "boolean")).
  reflexivity.
Defined.

(** ** Continuing to the next breakpoint *)

Lemma truthy_Some (o : option string) :
  truthy o = true <-> exists s, o = Some s /\ s <> "".
Proof.
  destruct o as [[|c r]|]; simpl; split;
    try discriminate; try (intros (s & E & Hs); congruence).
  intros _. eexists. split; [reflexivity | discriminate].
Qed.

Lemma hitsBreakpoint_stored_hit normalize bps (f : ReplayFrame) :
  hitsBreakpoint normalize bps (Some f) = true <-> stored_hit normalize bps f.
Proof.
  unfold hitsBreakpoint, stored_hit. split.
  - destruct (truthy (f_file f)) eqn:Et; [|discriminate].
    apply truthy_Some in Et. destruct Et as (file & Ef & Hne).
    rewrite Ef. simpl.
    destruct (bps !! normalize file) as [set|] eqn:Eb; [|discriminate].
    intros H. apply set_has_In in H. exists file, set. auto.
  - intros (file & set & Ef & Hne & Eb & Hin).
    assert (Et : truthy (f_file f) = true)
      by (apply truthy_Some; exists file; auto).
    rewrite Et, Ef. simpl. rewrite Eb. apply set_has_In, Hin.
Qed.

Lemma hitsBreakpoint_at_index normalize bps (fs : list ReplayFrame) (i : Z) :
  hitsBreakpoint normalize bps (at_index fs i) = true <->
  exists f, at_index fs i = Some f /\ stored_hit normalize bps f.
Proof.
  destruct (at_index fs i) as [f|] eqn:E.
  - rewrite hitsBreakpoint_stored_hit. split.
    + intros H. exists f. auto.
    + intros (f' & E' & H). congruence.
  - split; [discriminate|]. intros (f' & E' & _). discriminate.
Qed.

(** C2, counterexample: with a breakpoint already stored for [/b.js:2],
    submitting [/a.js:3] and continuing from cursor 0 stops at index 1,
    on the frame of [/b.js], not on the first frame matching
    [(/a.js, 3)], which is at index 2. *)
Lemma continue_other_path_counterexample :
  cursor twoFileRuntime = 0 /\
  cursor (snd (continueExecution posix_normalize
                 (snd (setBreakpoints posix_normalize (Some "/a.js") [3]
                         twoFileRuntime)))) = 1 /\
  ~ continue_lands_on_submitted_breakpoint posix_normalize twoFileRuntime
      "/a.js" [3].
Proof.
  split; [reflexivity|]. split; [reflexivity|].
  intros [[(i & _ & (f & Hf & file & Hfile & _ & Hn & _) & _ & Hc & _)
          | (_ & Hres & _)] _].
  - change (1 = i) in Hc. subst i.
    vm_compute in Hf. injection Hf as <-.
    simpl in Hfile. injection Hfile as <-.
    vm_compute in Hn. discriminate Hn.
  - vm_compute in Hres. discriminate Hres.
Qed.

Lemma setBreakpoints_store normalize sourcePath lines rt (key : string) :
  breakpoints (snd (setBreakpoints normalize sourcePath lines rt)) !! key
  = if truthy sourcePath
       && bool_decide (key = normalize (default "" sourcePath))
    then Some (set_of_lines lines)
    else breakpoints rt !! key.
Proof.
  unfold setBreakpoints. destruct (truthy sourcePath); simpl; [|reflexivity].
  case_bool_decide as E.
  - subst key. apply lookup_insert_eq.
  - apply lookup_insert_ne. congruence.
Qed.

(** C2, amended. After [setBreakpoints(path, lines)] the store maps the
    normalized path to the submitted lines and keeps every other path;
    [continueExecution()] then stops, with reason [breakpoint], on the
    smallest index beyond the cursor whose frame hits a breakpoint of
    the store, whichever stored path it belongs to, and otherwise
    terminates with the cursor on [frameCount]. When it stops, the
    cursor is strictly greater than before. *)
Theorem continue_lands_on_next_stored_breakpoint
    (normalize : string -> string) (rt : ReplayRuntime)
    (sourcePath : option string) (lines : list Z) :
  let rt1 := snd (setBreakpoints normalize sourcePath lines rt) in
  let result := fst (continueExecution normalize rt1) in
  let rt2 := snd (continueExecution normalize rt1) in
  let hit i :=
    exists f, at_index (frames rt) i = Some f /\
              stored_hit normalize (breakpoints rt1) f in
  (forall key : string,
     breakpoints rt1 !! key
     = if truthy sourcePath
          && bool_decide (key = normalize (default "" sourcePath))
       then Some (set_of_lines lines)
       else breakpoints rt !! key) /\
  (forall line, In line (set_of_lines lines) <-> In line lines) /\
  ((exists i, cursor rt < i < frameCount rt /\ hit i /\
              (forall j, cursor rt < j < i -> ~ hit j) /\
              cursor rt2 = i /\ result = step_stopped "breakpoint") \/
   ((forall i, cursor rt < i -> ~ hit i) /\
    cursor rt2 = frameCount rt /\ result = step_terminated /\
    isTerminated rt2 = true)) /\
  (terminated result = false -> cursor rt < cursor rt2).
Proof.
  cbv zeta.
  destruct (setBreakpoints_frames normalize sourcePath lines rt)
    as (Hfr & Hcu & _).
  set (rt1 := snd (setBreakpoints normalize sourcePath lines rt)) in *.
  split; [intros key; apply setBreakpoints_store|].
  split; [intros line; apply set_of_lines_In|].
  unfold continueExecution.
  pose proof (findNextBreakpointIndex_spec normalize rt1 (cursor rt1 + 1))
    as Hspec.
  cbv zeta in Hspec.
  assert (Hcount : frameCount rt1 = frameCount rt)
    by (unfold frameCount; now rewrite Hfr).
  rewrite Hcount, Hcu, Hfr in *.
  destruct Hspec as [[Hr Hn] | (Hr & H0 & Hh & Hn)].
  - rewrite Hr. simpl. split; [|discriminate].
    right. repeat split.
    + intros i Hi Hhit.
      apply hitsBreakpoint_at_index in Hhit.
      destruct (Z_lt_le_dec i (frameCount rt)) as [Hlt | Hge].
      * rewrite Hn in Hhit by lia. discriminate.
      * apply hitsBreakpoint_in_range in Hhit. unfold frameCount in Hge. lia.
    + unfold isTerminated, frameCount. simpl. rewrite Hfr.
      rewrite Z.leb_refl. reflexivity.
  - set (r := findNextBreakpointIndex normalize rt1 (cursor rt + 1)) in *.
    assert (Er : (r =? -1) = false) by (apply Z.eqb_neq; lia).
    rewrite Er. simpl. split; [|intros _; lia].
    left. exists r. repeat split; try lia.
    + apply hitsBreakpoint_at_index, Hh.
    + intros j Hj Hhit. apply hitsBreakpoint_at_index in Hhit.
      rewrite Hn in Hhit by lia. discriminate.
Qed.

(** ** Logical length of sequence-shaped nodes *)

Lemma fold_left_max_spec (r : list Z) (n : Z) :
  let m := fold_left Z.max r n in
  (m = n \/ In m r) /\ n <= m /\ forall x, In x r -> x <= m.
Proof.
  cbv zeta. revert n. induction r as [|y r IH]; intros n; simpl.
  - repeat split; [now left | lia | tauto].
  - destruct (IH (Z.max n y)) as ([E | Hin] & Hle & Hall).
    + repeat split.
      * destruct (Z.max_spec n y) as [[_ Hm] | [_ Hm]];
          [right; left | left]; rewrite E, Hm; reflexivity.
      * lia.
      * intros x [<- | Hx]; [lia | now apply Hall].
    + repeat split.
      * right. now right.
      * lia.
      * intros x [<- | Hx]; [lia | now apply Hall].
Qed.

Lemma greatest_of_spec (values : list Z) :
  values <> [] ->
  In (greatest_of values) values /\
  forall x, In x values -> x <= greatest_of values.
Proof.
  destruct values as [|n r]; [congruence|]. intros _. simpl.
  destruct (fold_left_max_spec r n) as ([E | Hin] & Hle & Hall).
  - split; [left; now symmetry|]. intros x [<- | Hx]; [lia | now apply Hall].
  - split; [now right|]. intros x [<- | Hx]; [lia | now apply Hall].
Qed.

(** Integers up to [2^53] are numbers. *)
Lemma binary64_exact (z : Z) : z <= 2 ^ 53 -> binary64 z = Finite z.
Proof.
  intros Hz. destruct (Z.eq_dec z (2 ^ 53)) as [-> | Hne]; [reflexivity|].
  unfold binary64. destruct (z <? 2 ^ 53) eqn:E; [reflexivity|].
  apply Z.ltb_ge in E. lia.
Qed.

Lemma max_of_finite (values : list Z) :
  max_of (map Finite values) = Finite (greatest_of values).
Proof.
  destruct values as [|n r]; [reflexivity|]. simpl. revert n.
  induction r as [|y r IH]; intros n; simpl; [reflexivity | apply IH].
Qed.

Lemma numeric_keys_all_decimal (keys : list string) :
  Forall (fun k => is_decimal k = true) keys ->
  omap (fun k => if is_decimal k then Some (parseInt10 k) else None) keys
  = map parseInt10 keys.
Proof.
  induction 1 as [|k keys Hk _ IH]; simpl; [reflexivity|].
  rewrite Hk. simpl. f_equal. exact IH.
Qed.

Lemma parseInt10_exact_keys (keys : list string) :
  Forall (fun k => decimal_value k < 2 ^ 53) keys ->
  map parseInt10 keys = map Finite (map decimal_value keys).
Proof.
  induction 1 as [|k keys Hk _ IH]; simpl; [reflexivity|].
  unfold parseInt10 at 1. rewrite binary64_exact by lia. now rewrite IH.
Qed.

Lemma isArrayLike_all_decimal (keys : list string) :
  keys <> [] -> Forall (fun k => is_decimal k = true) keys ->
  isArrayLike keys = true.
Proof.
  intros Hne Hall. destruct keys as [|k r]; [congruence|].
  unfold isArrayLike. apply forallb_forall. intros x Hx.
  rewrite Forall_forall in Hall. apply Hall. apply list_elem_of_In, Hx.
Qed.

Lemma inferArrayLength_all_decimal (keys : list string) :
  keys <> [] -> Forall (fun k => is_decimal k = true) keys ->
  Forall (fun k => decimal_value k < 2 ^ 53) keys ->
  inferArrayLength keys = Finite (greatest_of (map decimal_value keys) + 1).
Proof.
  intros Hne Hall Hsmall. unfold inferArrayLength.
  rewrite numeric_keys_all_decimal, parseInt10_exact_keys by assumption.
  assert (Hm : map decimal_value keys <> [])
    by (destruct keys; [congruence | discriminate]).
  destruct (greatest_of_spec _ Hm) as [Hin _].
  apply in_map_iff in Hin as (k & Ek & Hk).
  rewrite Forall_forall in Hsmall.
  pose proof (Hsmall k (proj2 (list_elem_of_In _ _) Hk)) as Hlt.
  rewrite max_of_finite.
  set (greatest := greatest_of (map decimal_value keys)) in *.
  destruct keys as [|k0 r]; [congruence|].
  simpl. apply binary64_exact. lia.
Qed.

(** Normalization never produces a node with both a scalar value and
    children, so a normalized node with children has no scalar. *)
Lemma toVariableNode_scalar_or_fields (jsNumber : string -> float)
    (payload : VariablePayload) :
  node_value (toVariableNode jsNumber payload) = None \/
  node_fields (toVariableNode jsNumber payload) = None.
Proof.
  destruct payload as [type value isNull elements entries flds]. simpl.
  destruct isNull; [now right|].
  destruct value; [now right|].
  destruct elements; [now left|].
  destruct entries; [now left|].
  destruct flds; now left.
Qed.

(** C8. A node without scalar value whose children are all keyed by
    decimal numerals below [2^53] is previewed as [(n) [...]] where [n]
    is one more than the greatest key, not the number of children; with
    exactly the children ["0"] and ["2"] the preview starts with [(3)]
    and shows the missing child as [undefined]. *)
Theorem sequence_preview_logical_length
    (jsNumber : string -> float) (jsNumberToString : float -> string) :
  (forall (node : VariableNode) (fields : VariableMap),
     node_value node = None ->
     node_fields node = Some fields ->
     fields <> [] ->
     Forall (fun k => is_decimal k = true) (obj_keys fields) ->
     Forall (fun k => decimal_value k < 2 ^ 53) (obj_keys fields) ->
     exists (greatest : Z) (items : list string),
       In greatest (map decimal_value (obj_keys fields)) /\
       (forall k, In k (obj_keys fields) -> decimal_value k <= greatest) /\
       inferArrayLength (obj_keys fields) = Finite (greatest + 1) /\
       formatNodeValue jsNumber jsNumberToString node
       = "(" +:+ showZ (greatest + 1) +:+ ") [" +:+ join ", " items +:+ "]")
  /\
  (forall (type : option string) (first third : VariableNode),
     formatNodeValue jsNumber jsNumberToString
       (Node type None (Some [("0", first); ("2", third)]))
     = "(3) [" +:+
       join ", " [previewChild jsNumber jsNumberToString (Some first);
                  "undefined";
                  previewChild jsNumber jsNumberToString (Some third)]
       +:+ "]").
Proof.
  split.
  - intros node fields Hv Hf Hne Hall Hsmall.
    assert (Hk : obj_keys fields <> [])
      by (destruct fields; [congruence | discriminate]).
    assert (Hm : map decimal_value (obj_keys fields) <> [])
      by (destruct (obj_keys fields); [congruence | discriminate]).
    destruct (greatest_of_spec _ Hm) as [Hin Hmax].
    pose proof (inferArrayLength_all_decimal _ Hk Hall Hsmall) as Hlen.
    set (greatest := greatest_of (map decimal_value (obj_keys fields))) in *.
    assert (Hbound : greatest + 1 <= 2 ^ 53).
    { apply in_map_iff in Hin as (k & Ek & Hkin).
      rewrite Forall_forall in Hsmall.
      pose proof (Hsmall k (proj2 (list_elem_of_In _ _) Hkin)). lia. }
    exists greatest.
    exists (let shown :=
              map (fun i => previewChild jsNumber jsNumberToString
                              (obj_get (showZ i) fields))
                  (seqZ 0 (Z.min (greatest + 1) 3)) in
            if Z.min (greatest + 1) 3 <? greatest + 1
            then (shown ++ [ellipsis])%list else shown).
    split; [exact Hin|]. split.
    { intros k Hkin. apply Hmax. apply in_map, Hkin. }
    split; [exact Hlen|].
    unfold formatNodeValue. rewrite Hv, Hf. cbn [default from_option id].
    rewrite (isArrayLike_all_decimal _ Hk Hall).
    unfold formatArrayPreview. cbv zeta. rewrite Hlen.
    unfold lengthToString.
    replace (greatest + 1 <=? 2 ^ 53) with true
      by (symmetry; apply Z.leb_le; exact Hbound).
    destruct (obj_keys fields); [congruence | reflexivity].
  - intros type first third. reflexivity.
Qed.

Lemma sequence_preview_logical_length_witness :
  node_value sparseNode = None /\
  (exists greatest items,
     In greatest (map decimal_value ["0"; "2"]) /\
     (forall k, In k ["0"; "2"] -> decimal_value k <= greatest) /\
     inferArrayLength ["0"; "2"] = Finite (greatest + 1) /\
     formatNodeValue sampleNumber sampleNumberToString sparseNode
     = "(" +:+ showZ (greatest + 1) +:+ ") [" +:+ join ", " items +:+ "]") /\
  formatNodeValue sampleNumber sampleNumberToString sparseNode
  = "(3) [a, undefined, true]".
Proof.
  split; [reflexivity|]. split.
  - apply (proj1 (sequence_preview_logical_length sampleNumber
                    sampleNumberToString) sparseNode
             [("0", Node (Some "string") (Some (VStr "a")) None);
              ("2", Node (Some "boolean") (Some (VBool true)) None)]).
    + reflexivity.
    + reflexivity.
    + discriminate.
    + repeat constructor.
    + repeat (apply List.Forall_cons; [reflexivity|]). apply List.Forall_nil.
  - reflexivity.
Defined.

(** The rounding of [binary64] is the one of the primitive floats, on
    integers that both take. *)
Example binary64_rounds_as_floats :
  forallb
    (fun z =>
       match binary64 z with
       | Finite v =>
           PrimFloat.eqb (PrimFloat.of_uint63 (Uint63.of_Z z))
                         (numberOf (Finite v))
       | Infinity => false
       end)
    [0; 3; 2 ^ 53 - 1; 2 ^ 53; 2 ^ 53 + 1; 2 ^ 53 + 2; 2 ^ 53 + 3;
     2 ^ 60 + 129; 2 ^ 62 + 511; 2 ^ 62 + 512; 2 ^ 62 + 513;
     2 ^ 62 + 1535; 2 ^ 62 + 1536; 2 ^ 63 - 513; 2 ^ 63 - 1]
  = true.
Proof. vm_compute. reflexivity. Qed.

(** A single child keyed [9007199254740993], that is [2^53 + 1]: the key
    is read as [2^53], adding one leaves [2^53], and the preview shows
    that length, which is not one more than the key. *)
Lemma sequence_preview_large_key_counterexample :
  let fields :=
    [("9007199254740993", Node (Some "string") (Some (VStr "a")) None)] in
  let node := Node None None (Some fields) in
  node_value node = None /\
  Forall (fun k => is_decimal k = true) (obj_keys fields) /\
  inferArrayLength (obj_keys fields) = Finite 9007199254740992 /\
  formatNodeValue sampleNumber sampleNumberToString node
  = "(9007199254740992) [undefined, undefined, undefined, " +:+ ellipsis
    +:+ "]" /\
  ~ (exists (greatest : Z) (items : list string),
       In greatest (map decimal_value (obj_keys fields)) /\
       (forall k, In k (obj_keys fields) -> decimal_value k <= greatest) /\
       formatNodeValue sampleNumber sampleNumberToString node
       = "(" +:+ showZ (greatest + 1) +:+ ") [" +:+ join ", " items +:+ "]").
Proof.
  cbv zeta. split; [reflexivity|]. split; [repeat constructor|].
  split; [vm_compute; reflexivity|]. split; [vm_compute; reflexivity|].
  intros (greatest & items & Hin & _ & Hshow).
  destruct Hin as [<- | []].
  vm_compute in Hshow. discriminate Hshow.
Qed.

(** ** The variable cache *)

Lemma run_bind {A B} (ds : DataSource) (p : Prog A) (f : A -> Prog B)
    (log : list Call) :
  run ds (bind p f) log
  = match run ds p log with
    | (Value a, log') => run ds (f a) log'
    | (Thrown m, log') => (Thrown m, log')
    end.
Proof.
  revert log. induction p as [a | m | args k IH | id k IH]; intros log; simpl.
  - reflexivity.
  - reflexivity.
  - apply IH.
  - apply IH.
Qed.

Lemma run_try_catch {A} (ds : DataSource) (p : Prog A)
    (h : option string -> Prog A) (log : list Call) :
  run ds (try_catch p h) log
  = match run ds p log with
    | (Value a, log') => (Value a, log')
    | (Thrown m, log') => run ds (h m) log'
    end.
Proof.
  revert log. induction p as [a | m | args k IH | id k IH]; intros log; simpl.
  - reflexivity.
  - reflexivity.
  - apply IH.
  - apply IH.
Qed.

Section CacheFacts.

Variable jsNumber : string -> float.

Lemma run_fetchVariables ds (snapshotId : string) (log : list Call) :
  run ds (fetchVariables jsNumber snapshotId) log
  = (Value (fetched jsNumber (loadVariables ds log snapshotId)),
     (log ++ [CallVariables snapshotId])%list).
Proof.
  unfold fetchVariables. simpl.
  destruct (loadVariables ds log snapshotId); reflexivity.
Qed.

Lemma run_getOrLoadVariables_hit ds snapshotId rt bundle log :
  variablesCache rt !! snapshotId = Some bundle ->
  run ds (getOrLoadVariables jsNumber snapshotId rt) log
  = (Value (bundle, rt), log).
Proof. intros H. unfold getOrLoadVariables. rewrite H. reflexivity. Qed.

Lemma run_getOrLoadVariables_miss ds snapshotId rt log :
  variablesCache rt !! snapshotId = None ->
  run ds (getOrLoadVariables jsNumber snapshotId rt) log
  = (Value (fetched jsNumber (loadVariables ds log snapshotId),
            cache_put snapshotId (fetched jsNumber (loadVariables ds log snapshotId))
                      rt),
     (log ++ [CallVariables snapshotId])%list).
Proof.
  intros H. unfold getOrLoadVariables. rewrite H.
  unfold mbind, Prog_bind. rewrite run_bind, run_fetchVariables.
  reflexivity.
Qed.

Lemma run_ask_falsy ds q snapshotId rt log :
  truthy snapshotId = false ->
  run ds (ask jsNumber q snapshotId rt) log = (Value ([], rt), log).
Proof.
  intros H. destruct q; unfold ask, getLocals, getArguments; rewrite H;
    reflexivity.
Qed.

Lemma run_ask_hit ds q (id : string) rt bundle log :
  id <> "" ->
  variablesCache rt !! id = Some bundle ->
  run ds (ask jsNumber q (Some id) rt) log = (Value (select q bundle, rt), log).
Proof.
  intros Hid H.
  assert (Ht : truthy (Some id) = true)
    by (apply truthy_Some; exists id; auto).
  destruct q; unfold ask, getLocals, getArguments; rewrite Ht;
    unfold mbind, Prog_bind; rewrite run_bind; simpl;
    rewrite (run_getOrLoadVariables_hit ds id rt bundle log H);
    reflexivity.
Qed.

Lemma run_ask_miss ds q (id : string) rt log :
  id <> "" ->
  variablesCache rt !! id = None ->
  run ds (ask jsNumber q (Some id) rt) log
  = (Value (select q (fetched jsNumber (loadVariables ds log id)),
            cache_put id (fetched jsNumber (loadVariables ds log id)) rt),
     (log ++ [CallVariables id])%list).
Proof.
  intros Hid H.
  assert (Ht : truthy (Some id) = true)
    by (apply truthy_Some; exists id; auto).
  destruct q; unfold ask, getLocals, getArguments; rewrite Ht;
    unfold mbind, Prog_bind; rewrite run_bind; simpl;
    rewrite (run_getOrLoadVariables_miss ds id rt log H);
    reflexivity.
Qed.

Lemma run_askAll_falsy ds qs snapshotId rt log :
  truthy snapshotId = false ->
  run ds (askAll jsNumber qs snapshotId rt) log
  = (Value (map (fun _ => []) qs, rt), log).
Proof.
  intros H. induction qs as [|q rest IH]; simpl; [reflexivity|].
  unfold mbind, Prog_bind. rewrite run_bind, (run_ask_falsy ds q _ rt log H).
  rewrite run_bind, IH. reflexivity.
Qed.

(** Once the bundle is cached, queries are answered from it and the
    loader is not called. *)
Lemma run_askAll_hit ds qs (id : string) rt bundle log :
  id <> "" ->
  variablesCache rt !! id = Some bundle ->
  run ds (askAll jsNumber qs (Some id) rt) log
  = (Value (map (fun q => select q bundle) qs, rt), log).
Proof.
  intros Hid H. induction qs as [|q rest IH]; simpl; [reflexivity|].
  unfold mbind, Prog_bind.
  rewrite run_bind, (run_ask_hit ds q id rt bundle log Hid H).
  rewrite run_bind, IH. reflexivity.
Qed.

Lemma run_askAll_miss ds q rest (id : string) rt log :
  id <> "" ->
  variablesCache rt !! id = None ->
  let bundle := fetched jsNumber (loadVariables ds log id) in
  run ds (askAll jsNumber (q :: rest) (Some id) rt) log
  = (Value (map (fun q => select q bundle) (q :: rest),
            cache_put id bundle rt),
     (log ++ [CallVariables id])%list).
Proof.
  intros Hid H. cbv zeta. simpl. unfold mbind, Prog_bind.
  rewrite run_bind, (run_ask_miss ds q id rt log Hid H).
  rewrite run_bind.
  rewrite (run_askAll_hit ds rest id _ (fetched jsNumber (loadVariables ds log id))).
  - reflexivity.
  - exact Hid.
  - simpl. apply lookup_insert_eq.
Qed.

End CacheFacts.

Section CacheInvariant.

Variable normalize : string -> string.
Variable jsNumber : string -> float.

Lemma loader_calls_snoc id calls c :
  loader_calls id (calls ++ [c])
  = (loader_calls id calls + (if is_call_for id c then 1 else 0))%nat.
Proof.
  unfold loader_calls. rewrite List.filter_app, length_app. simpl.
  destruct (is_call_for id c); reflexivity.
Qed.

Lemma applyOp_variablesCache rt op :
  variablesCache (applyOp normalize rt op) = variablesCache rt.
Proof.
  destruct op; simpl.
  - unfold stepOnce. destruct (_ <=? _); simpl; [reflexivity|].
    destruct (hitsBreakpoint _ _ _); reflexivity.
  - unfold continueExecution. destruct (_ =? _); reflexivity.
  - unfold setCursorByFrameId. destruct (_ <=? _); reflexivity.
  - unfold setCursorByLocation. destruct (frames rt); [reflexivity|].
    destruct line; [|reflexivity]. destruct (_ <=? _); reflexivity.
  - apply setBreakpoints_frames.
Qed.

Lemma ask_loaded_once ds q snapshotId rt log calls :
  loaded_once calls rt ->
  exists answer rt' calls',
    run ds (ask jsNumber q snapshotId rt) (log ++ calls)
    = (Value (answer, rt'), (log ++ calls')%list) /\
    loaded_once calls' rt'.
Proof.
  intros Hinv.
  destruct (truthy snapshotId) eqn:Et.
  - apply truthy_Some in Et. destruct Et as (id0 & -> & Hne).
    destruct (variablesCache rt !! id0) as [bundle|] eqn:Ec.
    + rewrite (run_ask_hit jsNumber ds q id0 rt bundle _ Hne Ec). eauto.
    + rewrite (run_ask_miss jsNumber ds q id0 rt _ Hne Ec).
      rewrite <- app_assoc.
      eexists _, _, _. split; [reflexivity|].
      intros id. rewrite loader_calls_snoc. simpl.
      destruct (String.eqb_spec id0 id) as [<- | Hd].
      * destruct (Hinv id0) as [Hle Hin].
        assert (loader_calls id0 calls = 0%nat).
        { destruct (loader_calls id0 calls) as [|[|n]]; [reflexivity| |lia].
          destruct (Hin eq_refl) as [b Hb]. congruence. }
        split; [lia|]. intros _. rewrite lookup_insert_eq. eauto.
      * destruct (Hinv id) as [Hle Hin].
        split; [lia|]. intros H1.
        rewrite lookup_insert_ne by exact Hd. apply Hin. lia.
  - rewrite (run_ask_falsy jsNumber ds q snapshotId rt _ Et). eauto.
Qed.

Lemma perform_loaded_once ds acts rt log calls :
  loaded_once calls rt ->
  exists answers rt' calls',
    run ds (perform normalize jsNumber acts rt) (log ++ calls)
    = (Value (answers, rt'), (log ++ calls')%list) /\
    loaded_once calls' rt'.
Proof.
  revert rt calls. induction acts as [|[q snapshotId | op] rest IH];
    intros rt calls Hinv; simpl.
  - eauto.
  - destruct (ask_loaded_once ds q snapshotId rt log calls Hinv)
      as (answer & rt1 & calls1 & Hrun & Hinv1).
    destruct (IH rt1 calls1 Hinv1) as (answers & rt2 & calls2 & Hrun2 & Hinv2).
    unfold mbind, Prog_bind. rewrite run_bind, Hrun, run_bind, Hrun2.
    simpl. eauto.
  - apply IH. intros id. rewrite applyOp_variablesCache. apply Hinv.
Qed.

(** C4. In any sequence of variable queries awaited one after the
    other, interleaved at will with navigation and breakpoint
    operations and with queries for other snapshots, the loader is
    called at most once for a given snapshot identifier. The first
    query for an identifier absent from the cache calls the loader
    once and caches what [fetchVariables] resolves to; from then on
    queries for that identifier are answered from the cached bundle
    without any call. *)
Theorem loader_called_at_most_once (ds : DataSource) (id : string) :
  (forall (acts : list RuntimeAction) (rt : ReplayRuntime)
          (log : list Call),
     exists answers rt' calls,
       run ds (perform normalize jsNumber acts rt) log = (Value (answers, rt'), (log ++ calls)%list)
       /\ (loader_calls id calls <= 1)%nat) /\
  (forall (q : VariableQuery) (later : list VariableQuery)
          (rt : ReplayRuntime) (log : list Call),
     id <> "" ->
     variablesCache rt !! id = None ->
     let bundle := fetched jsNumber (loadVariables ds log id) in
     exists rt',
       run ds (askAll jsNumber (q :: later) (Some id) rt) log
       = (Value (map (fun q => select q bundle) (q :: later), rt'),
          (log ++ [CallVariables id])%list) /\
       variablesCache rt' !! id = Some bundle) /\
  (forall (qs : list VariableQuery) (rt : ReplayRuntime)
          (bundle : SnapshotCaptures) (log : list Call),
     id <> "" ->
     variablesCache rt !! id = Some bundle ->
     run ds (askAll jsNumber qs (Some id) rt) log
     = (Value (map (fun q => select q bundle) qs, rt), log)).
Proof.
  split; [|split].
  - intros acts rt log.
    destruct (perform_loaded_once ds acts rt log [])
      as (answers & rt' & calls & Hrun & Hinv).
    + intros id0. unfold loader_calls. simpl. split; [lia | discriminate].
    + rewrite app_nil_r in Hrun. exists answers, rt', calls.
      split; [exact Hrun | apply Hinv].
  - intros q later rt log Hid Hmiss. cbv zeta.
    eexists. split.
    + apply (run_askAll_miss jsNumber ds q later id rt log Hid Hmiss).
    + simpl. apply lookup_insert_eq.
  - intros qs rt bundle log Hid Hhit.
    apply (run_askAll_hit jsNumber ds qs id rt bundle log Hid Hhit).
Qed.

End CacheInvariant.

(** Three queries for one snapshot: one call reaches the loader. *)
Example repeated_queries_one_call :
  run (recordedSource crashTrace)
      (askAll sampleNumber [QueryLocals; QueryArguments; QueryLocals]
              (Some "s2") (newRuntime posix_normalize crashTrace)) []
  = (Value ([[]; []; []],
            cache_put "s2" emptyCaptures (newRuntime posix_normalize crashTrace)),
     [CallVariables "s2"]).
Proof. reflexivity. Qed.

(** ** Loader failures *)

(** C5. When the loader rejects, [fetchVariables] resolves to the empty
    bundle; a [getLocals] or [getArguments] query that misses the cache
    then completes with the empty map (and caches the empty bundle), and
    no query ever completes by throwing. *)
Theorem loader_failure_gives_empty_bundle (jsNumber : string -> float)
    (ds : DataSource) (log : list Call) (id : string)
    (message : option string) (rt : ReplayRuntime) :
  loadVariables ds log id = Rejected message ->
  run ds (fetchVariables jsNumber id) log
  = (Value emptyCaptures, (log ++ [CallVariables id])%list) /\
  (id <> "" -> variablesCache rt !! id = None ->
   forall q,
     run ds (ask jsNumber q (Some id) rt) log
     = (Value ([], cache_put id emptyCaptures rt),
        (log ++ [CallVariables id])%list)) /\
  (forall q snapshotId (rt0 : ReplayRuntime) (log0 : list Call),
     exists answer log',
       run ds (ask jsNumber q snapshotId rt0) log0 = (Value answer, log')).
Proof.
  intros Hrej. split; [|split].
  - rewrite run_fetchVariables, Hrej. reflexivity.
  - intros Hid Hmiss q.
    rewrite (run_ask_miss jsNumber ds q id rt log Hid Hmiss), Hrej.
    destruct q; reflexivity.
  - intros q snapshotId rt0 log0.
    destruct (truthy snapshotId) eqn:Et.
    + apply truthy_Some in Et. destruct Et as (id0 & -> & Hne).
      destruct (variablesCache rt0 !! id0) as [bundle|] eqn:Ec.
      * rewrite (run_ask_hit jsNumber ds q id0 rt0 bundle _ Hne Ec). eauto.
      * rewrite (run_ask_miss jsNumber ds q id0 rt0 _ Hne Ec). eauto.
    + rewrite (run_ask_falsy jsNumber ds q snapshotId rt0 _ Et). eauto.
Qed.

Lemma loader_failure_gives_empty_bundle_witness :
  loadVariables failingSource [] "s2" = Rejected (Some "offline") /\
  run failingSource (fetchVariables sampleNumber "s2") []
  = (Value emptyCaptures, [CallVariables "s2"]) /\
  run failingSource
      (getLocals sampleNumber (Some "s2") (newRuntime posix_normalize emptyTrace))
      []
  = (Value ([], cache_put "s2" emptyCaptures
                  (newRuntime posix_normalize emptyTrace)),
     [CallVariables "s2"]).
Proof.
  split; [reflexivity|].
  destruct (loader_failure_gives_empty_bundle sampleNumber failingSource []
              "s2" (Some "offline") (newRuntime posix_normalize emptyTrace)
              eq_refl) as (Hfetch & Hask & _).
  split; [exact Hfetch|].
  apply (Hask ltac:(discriminate) eq_refl QueryLocals).
Defined.

(** ** Termination summary *)

Lemma startsWith_app (p x : string) : startsWith (p +:+ x) p = true.
Proof.
  unfold startsWith. induction p as [|c p IH].
  - destruct x; reflexivity.
  - change (String c p +:+ x) with (String c (p +:+ x)). simpl.
    destruct (ascii_dec c c); [exact IH | congruence].
Qed.

Lemma startsWith_app_r (s p y : string) :
  startsWith s p = true -> startsWith (s +:+ y) p = true.
Proof.
  unfold startsWith. revert s. induction p as [|c p IH]; intros s.
  - intros _. destruct (s +:+ y); reflexivity.
  - destruct s as [|d s]; [discriminate|].
    change (String d s +:+ y) with (String d (s +:+ y)). simpl.
    destruct (ascii_dec c d); [apply IH | discriminate].
Qed.

Lemma is_summary_summaryLine summary category :
  is_summary (OutputEvent (summaryLine summary) category) = true.
Proof.
  unfold is_summary, summaryLine. apply startsWith_app_r.
  destruct (truthy summary).
  - change ("Replay finished: " +:+ default "" summary)
      with ("Replay finished" +:+ (": " +:+ default "" summary)).
    apply startsWith_app.
  - reflexivity.
Qed.

Lemma count_summary_snoc msgs m :
  count_summary (msgs ++ [m])
  = (count_summary msgs + (if is_summary m then 1 else 0))%nat.
Proof.
  unfold count_summary. rewrite List.filter_app, length_app. simpl.
  destruct (is_summary m); reflexivity.
Qed.

Lemma count_summary_app a b :
  count_summary (a ++ b) = (count_summary a + count_summary b)%nat.
Proof. unfold count_summary. now rewrite List.filter_app, length_app. Qed.

(** A request that sends neither a summary line nor a terminate signal
    and keeps the flag. *)
Lemma quiet_step r s s' new :
  session_ok s ->
  terminationMessageSent s' = terminationMessageSent s ->
  sent s' = (sent s ++ new)%list ->
  count_summary new = 0%nat ->
  ~ In TerminatedEvent new ->
  r <> TerminateRequest ->
  runtime_ok (terminationMessageSent s) (runtime s') ->
  step_ok r s s'.
Proof.
  intros (Ht & Hf & _) Eflag Esent Hcount Hnot Hr Hrt.
  split.
  - unfold session_ok. rewrite Eflag, Esent, count_summary_app, Hcount.
    rewrite Nat.add_0_r. repeat split; assumption.
  - exists new. split; [exact Esent|]. split.
    + intros Hin. contradiction.
    + intros E. contradiction.
Qed.

(** Sending the summary if needed, then the terminate signal. *)
Lemma terminate_sequence s0 :
  (terminationMessageSent s0 = true -> count_summary (sent s0) = 1%nat) ->
  (terminationMessageSent s0 = false -> count_summary (sent s0) = 0%nat) ->
  let s' := send TerminatedEvent (emitTerminationOutput s0) in
  terminationMessageSent s' = true /\ runtime s' = runtime s0 /\
  count_summary (sent s') = 1%nat /\
  exists out,
    sent s' = (sent s0 ++ out ++ [TerminatedEvent])%list /\
    ~ In TerminatedEvent out /\
    count_summary (sent s0 ++ out) = 1%nat /\
    (terminationMessageSent s0 = true -> out = []).
Proof.
  intros Ht Hf. cbv zeta. unfold emitTerminationOutput.
  destruct (terminationMessageSent s0) eqn:E; simpl.
  - rewrite E. repeat split.
    + rewrite count_summary_snoc. simpl. rewrite Ht by reflexivity. reflexivity.
    + exists []. simpl. rewrite app_nil_r. repeat split; auto.
  - repeat split.
    + rewrite !count_summary_snoc, is_summary_summaryLine. simpl.
      rewrite Hf by reflexivity. reflexivity.
    + exists [OutputEvent (summaryLine (errorSummary s0)) (Some "console")].
      rewrite <- app_assoc. simpl. repeat split.
      * intros [H | []]. discriminate H.
      * rewrite count_summary_snoc, is_summary_summaryLine.
        rewrite Hf by reflexivity. reflexivity.
      * discriminate.
Qed.

Section SessionFacts.

Variable normalize : string -> string.

Lemma stepOnce_terminated why rt :
  cursor_ok rt ->
  terminated (fst (stepOnce normalize why rt))
  = isTerminated (snd (stepOnce normalize why rt)).
Proof.
  unfold cursor_ok, stepOnce, isTerminated, frameCount. intros H.
  destruct (Z.of_nat (length (frames rt)) <=? cursor rt + 1) eqn:E; simpl.
  - rewrite Z.leb_refl. reflexivity.
  - apply Z.leb_gt in E.
    assert (E1 : (Z.of_nat (length (frames rt)) <=? cursor rt + 1) = false)
      by (apply Z.leb_gt; lia).
    assert (E2 : (cursor rt + 1 <? 0) = false) by (apply Z.ltb_ge; lia).
    destruct (hitsBreakpoint _ _ _); simpl; rewrite E1, E2; reflexivity.
Qed.

Lemma continueExecution_terminated rt :
  cursor_ok rt ->
  terminated (fst (continueExecution normalize rt))
  = isTerminated (snd (continueExecution normalize rt)).
Proof.
  unfold cursor_ok, continueExecution, isTerminated. intros H.
  pose proof (findNextBreakpointIndex_spec normalize rt (cursor rt + 1))
    as Hspec.
  cbv zeta in Hspec.
  destruct Hspec as [[Hr _] | (Hr & H0 & _)].
  - rewrite Hr. simpl. unfold frameCount. simpl. rewrite Z.leb_refl.
    reflexivity.
  - set (r := findNextBreakpointIndex normalize rt (cursor rt + 1)) in *.
    assert (Er : (r =? -1) = false) by (apply Z.eqb_neq; lia).
    rewrite Er. simpl. unfold frameCount in *. simpl.
    assert (E1 : (Z.of_nat (length (frames rt)) <=? r) = false)
      by (apply Z.leb_gt; lia).
    assert (E2 : (r <? 0) = false) by (apply Z.ltb_ge; lia).
    rewrite E1, E2. reflexivity.
Qed.

(** [sendResponse] followed by [postStep] after a navigation that
    returned [result] and left the runtime [rt']. *)
Lemma postStep_step r command result rt' s :
  session_ok s ->
  r <> TerminateRequest ->
  match rt' with
  | Some rt => cursor_ok rt /\ terminated result = isTerminated rt
  | None => terminated result = true
  end ->
  step_ok r s (postStep result (send (Response command) (set_runtime rt' s))).
Proof.
  intros (Ht & Hf & Hrt) Hr Hres. unfold postStep.
  destruct (terminated result) eqn:Eterm.
  - destruct (terminate_sequence (send (Response command) (set_runtime rt' s)))
      as (Hflag & Hrun & Hcount & out & Hsent & Hnot & Hone & _).
    { simpl. rewrite count_summary_snoc. simpl. rewrite Nat.add_0_r. exact Ht. }
    { simpl. rewrite count_summary_snoc. simpl. rewrite Nat.add_0_r. exact Hf. }
    split.
    + unfold session_ok. rewrite Hflag, Hrun, Hcount. simpl.
      repeat split; try discriminate.
      destruct rt' as [rt|]; [|exact I]. split; [apply Hres | reflexivity].
    + exists (Response command :: out ++ [TerminatedEvent])%list.
      split.
      * rewrite Hsent. simpl. rewrite <- app_assoc. reflexivity.
      * split; [|intros E; contradiction].
        intros _. exists (Response command :: out). repeat split.
        -- intros [H | H]; [discriminate H | contradiction].
        -- left. simpl in Hone. rewrite <- app_assoc in Hone. exact Hone.
  - eapply (quiet_step r s).
    + repeat split; assumption.
    + reflexivity.
    + simpl. rewrite <- app_assoc. reflexivity.
    + reflexivity.
    + intros [H | [H | []]]; discriminate H.
    + exact Hr.
    + simpl. destruct rt' as [rt|]; [|exact I].
      destruct Hres as [Hc He]. split; [exact Hc|].
      intros Hterm. rewrite Hterm in He. discriminate He.
Qed.

End SessionFacts.

Section SessionSteps.

Variable normalize : string -> string.

Lemma same_position rt rt' :
  frames rt' = frames rt -> cursor rt' = cursor rt ->
  (cursor_ok rt -> cursor_ok rt') /\ isTerminated rt' = isTerminated rt.
Proof.
  intros Hf Hc. unfold cursor_ok, isTerminated, frameCount.
  rewrite Hf, Hc. auto.
Qed.

Lemma setCursorByFrameId_terminated frameId rt :
  isTerminated (setCursorByFrameId frameId rt) = true ->
  isTerminated rt = true.
Proof.
  unfold setCursorByFrameId.
  destruct (0 <=? findIndex _ _) eqn:E; [|auto].
  apply Z.leb_le in E. apply findIndex_range in E.
  unfold isTerminated, frameCount. simpl.
  rewrite orb_true_iff, Z.leb_le, Z.ltb_lt. lia.
Qed.

Lemma launched_step args stackTrace s :
  session_ok s ->
  step_ok (LaunchRequest args) s (launched normalize args stackTrace s).
Proof.
  intros Hok. pose proof Hok as (Ht & Hf & _). unfold launched.
  destruct (pending_breakpoints_frames normalize (pendingBreakpoints s)
              (newRuntime normalize stackTrace)) as [Hfr Hcu].
  cbv zeta in Hfr, Hcu.
  set (rt0 := fold_left _ (pendingBreakpoints s) _) in *.
  assert (Hok0 : cursor_ok rt0)
    by (apply (same_position _ _ Hfr Hcu), newRuntime_cursor_ok).
  set (summary := orTruthy (la_errorTitle args) _).
  set (s1 := {| runtime := Some rt0;
                pendingBreakpoints := pendingBreakpoints s;
                startLineHint := la_startLine args;
                startSourcePathHint := la_startSourcePath args;
                terminationMessageSent := terminationMessageSent s;
                errorSummary := summary;
                sent := sent s |}).
  set (s2 := if la_trace args
             then send (OutputEvent ("Loaded replay data" +:+ newline) (Some "console")) s1
             else s1).
  assert (H2 : exists pre,
             sent s2 = (sent s ++ pre)%list /\ count_summary pre = 0%nat /\
             ~ In TerminatedEvent pre /\
             terminationMessageSent s2 = terminationMessageSent s /\
             runtime s2 = Some rt0).
  { subst s2. destruct (la_trace args).
    - exists [OutputEvent ("Loaded replay data" +:+ newline) (Some "console")].
      repeat split; try reflexivity.
      intros [H | []]; discriminate H.
    - exists []. simpl. rewrite app_nil_r. repeat split; auto. }
  destruct H2 as (pre & Hs2 & Hpre & Hnot & Hflag2 & Hrt2).
  set (s3 := syncCursorToHint normalize s2).
  assert (H3 : sent s3 = sent s2 /\
               terminationMessageSent s3 = terminationMessageSent s2 /\
               exists rt3, runtime s3 = Some rt3 /\ cursor_ok rt3).
  { subst s3. unfold syncCursorToHint. rewrite Hrt2.
    destruct (startLineHint s2); simpl.
    - repeat split. eexists. split; [reflexivity|].
      apply setCursorByLocation_cursor_ok, Hok0.
    - repeat split. exists rt0. auto. }
  destruct H3 as (Hs3 & Hflag3 & rt3 & Hrt3 & Hok3).
  unfold stopWithReason.
  assert (Hrun : runtimeTerminated (send (Response "launch") s3)
                 = isTerminated rt3)
    by (unfold runtimeTerminated; simpl; rewrite Hrt3; reflexivity).
  rewrite Hrun.
  destruct (isTerminated rt3) eqn:Eterm.
  - destruct (terminate_sequence (send (Response "launch") s3))
      as (Hflag & Hrunt & Hcount & out & Hsent & Hnotout & Hone & _).
    { simpl. rewrite count_summary_snoc, Hs3, Hs2, count_summary_app, Hpre.
      simpl. rewrite !Nat.add_0_r, Hflag3, Hflag2. exact Ht. }
    { simpl. rewrite count_summary_snoc, Hs3, Hs2, count_summary_app, Hpre.
      simpl. rewrite !Nat.add_0_r, Hflag3, Hflag2. exact Hf. }
    split.
    + unfold session_ok. rewrite Hflag, Hrunt, Hcount. simpl. rewrite Hrt3.
      repeat split; try discriminate; apply Hok3.
    + exists (pre ++ Response "launch" :: out ++ [TerminatedEvent])%list.
      split.
      * rewrite Hsent. simpl. rewrite Hs3, Hs2, <- !app_assoc. reflexivity.
      * split; [|discriminate]. intros _.
        exists (pre ++ Response "launch" :: out)%list. repeat split.
        -- rewrite <- app_assoc. reflexivity.
        -- rewrite in_app_iff. intros [H | [H | H]];
             [contradiction | discriminate H | contradiction].
        -- left. simpl in Hone. rewrite Hs3, Hs2 in Hone.
           rewrite <- !app_assoc in Hone. simpl in Hone.
           rewrite app_assoc. rewrite app_assoc in Hone.
           rewrite <- app_assoc. rewrite <- app_assoc in Hone. exact Hone.
  - eapply (quiet_step _ s).
    + exact Hok.
    + simpl. rewrite Hflag3, Hflag2. reflexivity.
    + simpl. rewrite Hs3, Hs2, <- !app_assoc. reflexivity.
    + rewrite count_summary_app, Hpre. reflexivity.
    + rewrite in_app_iff. intros [H | [H | [H | []]]];
        [contradiction | discriminate H | discriminate H].
    + discriminate.
    + simpl. rewrite Hrt3. split; [exact Hok3|].
      rewrite Eterm. discriminate.
Qed.

End SessionSteps.

Section SessionInvariant.

Variable normalize : string -> string.

Ltac quiet s :=
  eapply (quiet_step _ s);
  [ assumption
  | reflexivity
  | simpl; rewrite <- ?app_assoc; reflexivity
  | reflexivity
  | simpl; intuition discriminate
  | discriminate
  | try assumption ].

Lemma performNoopStep_step r command source s :
  r = StepInRequest \/ r = StepOutRequest ->
  source = "stepIn" \/ source = "stepOut" ->
  session_ok s -> step_ok r s (performNoopStep command source s).
Proof.
  intros Hr Hsrc Hok. pose proof Hok as (Ht & Hf & Hrt).
  unfold performNoopStep. destruct (runtimeTerminated s) eqn:Eterm.
  - split.
    + unfold session_ok. simpl. rewrite !count_summary_snoc. simpl.
      rewrite !Nat.add_0_r. repeat split; assumption.
    + exists [Response command; TerminatedEvent]. split.
      * simpl. rewrite <- app_assoc. reflexivity.
      * split; [|destruct Hr as [-> | ->]; discriminate].
        intros _. exists [Response command]. repeat split.
        -- intros [H | []]. discriminate H.
        -- unfold runtimeTerminated in Eterm.
           destruct (runtime s) as [rt|] eqn:Ert.
           ++ left. rewrite count_summary_snoc. simpl. rewrite Nat.add_0_r.
              apply Ht, Hrt, Eterm.
           ++ right. right. auto.
  - assert (Hrt' : runtime_ok (terminationMessageSent s) (runtime s))
      by exact Hrt.
    destruct Hsrc as [-> | ->]; destruct Hr as [-> | ->]; quiet s.
Qed.

Lemma terminateRequest_step s :
  session_ok s -> step_ok TerminateRequest s (terminateRequest s).
Proof.
  intros Hok. pose proof Hok as (Ht & Hf & Hrt). unfold terminateRequest.
  assert (Erun : runtimeTerminated (send (Response "terminate") s)
                 = runtimeTerminated s) by reflexivity.
  rewrite Erun. destruct (runtimeTerminated s) eqn:Eterm.
  - destruct (terminate_sequence (send (Response "terminate") s))
      as (Hflag & Hrunt & Hcount & out & Hsent & Hnot & Hone & Hout).
    { simpl. rewrite count_summary_snoc. simpl. rewrite Nat.add_0_r. exact Ht. }
    { simpl. rewrite count_summary_snoc. simpl. rewrite Nat.add_0_r. exact Hf. }
    split.
    + unfold session_ok. rewrite Hflag, Hrunt, Hcount. simpl.
      repeat split; try discriminate.
      destruct (runtime s); [|exact I]. split; [apply Hrt | reflexivity].
    + exists (Response "terminate" :: out ++ [TerminatedEvent])%list.
      split.
      * rewrite Hsent. simpl. rewrite <- app_assoc. reflexivity.
      * split.
        -- intros _. exists (Response "terminate" :: out). repeat split.
           ++ intros [H | H]; [discriminate H | contradiction].
           ++ left. simpl in Hone. rewrite <- app_assoc in Hone. exact Hone.
        -- intros _ [H | H]; [congruence|].
           rewrite (Hout H). reflexivity.
  - split.
    + unfold session_ok. simpl. rewrite !count_summary_snoc. simpl.
      rewrite !Nat.add_0_r. repeat split; assumption.
    + exists [Response "terminate"; TerminatedEvent]. split.
      * simpl. rewrite <- app_assoc. reflexivity.
      * split; [|reflexivity].
        intros _. exists [Response "terminate"]. repeat split.
        -- intros [H | []]. discriminate H.
        -- right. left. auto.
Qed.

Lemma handleRequest_step ds r s log :
  session_ok s ->
  exists s' log',
    run ds (handleRequest normalize r s) log = (Value s', log') /\
    step_ok r s s'.
Proof.
  intros Hok. pose proof Hok as (Ht & Hf & Hrt).
  assert (Hrt' : runtime_ok (terminationMessageSent s) (runtime s))
    by exact Hrt.
  destruct r; simpl.
  - eexists _, _. split; [reflexivity|]. quiet s.
  - eexists _, _. split; [reflexivity|]. quiet s.
  - destruct (loadStackTrace ds log args) as [stackTrace | message];
      eexists _, _; (split; [reflexivity|]).
    + apply launched_step, Hok.
    + quiet s.
  - eexists _, _. split; [reflexivity|]. quiet s.
  - eexists _, _. split; [reflexivity|]. quiet s.
  - eexists _, _. split; [reflexivity|]. quiet s.
  - eexists _, _. split; [reflexivity|]. quiet s.
  - eexists _, _. split; [reflexivity|].
    destruct (runtime s) eqn:Ert; quiet s; simpl; rewrite Ert; exact Hrt'.
  - eexists _, _. split; [reflexivity|]. unfold continueRequest.
    destruct (runtime s) as [rt|] eqn:Ert.
    + destruct (continueExecution normalize rt) as [result rt1] eqn:Ec.
      apply postStep_step; [exact Hok | discriminate|].
      destruct Hrt as [Hc _].
      pose proof (continueExecution_cursor_ok normalize rt Hc) as Hc1.
      pose proof (continueExecution_terminated normalize rt Hc) as Ht1.
      rewrite Ec in Hc1, Ht1. auto.
    + apply postStep_step; [exact Hok | discriminate | reflexivity].
  - eexists _, _. split; [reflexivity|]. unfold performStepOver.
    destruct (runtime s) as [rt|] eqn:Ert.
    + destruct (stepOnce normalize (Some "next") rt) as [result rt1] eqn:Ec.
      apply postStep_step; [exact Hok | discriminate|].
      destruct Hrt as [Hc _].
      pose proof (stepOnce_cursor_ok normalize (Some "next") rt Hc) as Hc1.
      pose proof (stepOnce_terminated normalize (Some "next") rt Hc) as Ht1.
      rewrite Ec in Hc1, Ht1. auto.
    + apply postStep_step; [exact Hok | discriminate | reflexivity].
  - eexists _, _. split; [reflexivity|].
    apply performNoopStep_step; auto.
  - eexists _, _. split; [reflexivity|].
    apply performNoopStep_step; auto.
  - eexists _, _. split; [reflexivity|]. quiet s.
  - eexists _, _. split; [reflexivity|]. quiet s.
  - eexists _, _. split; [reflexivity|]. unfold restartFrameRequest.
    destruct frameId as [id|]; [|quiet s].
    quiet s. simpl. destruct (runtime s) as [rt|]; [|exact I]. simpl.
    destruct Hrt as [Hc Hterm]. split.
    + apply setCursorByFrameId_cursor_ok, Hc.
    + intros H. apply Hterm, (setCursorByFrameId_terminated _ _ H).
  - eexists _, _. split; [reflexivity|]. apply terminateRequest_step, Hok.
  - eexists _, _. split; [reflexivity|]. unfold setBreakPointsRequest.
    quiet s. simpl. destruct (runtime s) as [rt|]; [|exact I]. simpl.
    destruct Hrt as [Hc Hterm].
    destruct (setBreakpoints_frames normalize sourcePath (default [] lines) rt)
      as (Hfr & Hcu & _).
    destruct (same_position _ _ Hfr Hcu) as [Hc' Ht'].
    split; [apply Hc', Hc | rewrite Ht'; exact Hterm].
  - eexists _, _. split; [reflexivity|].
    destruct (runtime s) eqn:Ert; quiet s; simpl; rewrite Ert; exact Hrt'.
Qed.

Lemma newSession_ok : session_ok newSession.
Proof. repeat split; try discriminate. Qed.

(** Every served sequence of requests completes, in a session that
    satisfies the invariant. *)
Lemma serve_ok ds rs s log :
  session_ok s ->
  exists s' log',
    run ds (serve normalize rs s) log = (Value s', log') /\ session_ok s'.
Proof.
  revert s log. induction rs as [|r rs IH]; intros s log Hok; simpl.
  - eauto.
  - destruct (handleRequest_step ds r s log Hok)
      as (s1 & log1 & Hrun & Hok1 & _).
    destruct (IH s1 log1 Hok1) as (s2 & log2 & Hrun2 & Hok2).
    unfold mbind, Prog_bind. rewrite run_bind, Hrun. eauto.
Qed.

End SessionInvariant.

(** C6, counterexample: an explicit terminate request on a session that
    has launched and is stopped on a frame sends the terminate signal
    and no summary line at all. *)
Lemma terminate_live_session_counterexample :
  sessionAfter posix_normalize (recordedSource twoFileTrace)
    [LaunchRequest plainLaunch; TerminateRequest]
  = Some {| runtime := Some (newRuntime posix_normalize twoFileTrace);
            pendingBreakpoints := [];
            startLineHint := None;
            startSourcePathHint := None;
            terminationMessageSent := false;
            errorSummary := Some "trace-1";
            sent := [Response "launch"; StoppedEvent "entry";
                     Response "terminate"; TerminatedEvent] |} /\
  ~ every_terminate_after_one_summary posix_normalize
      (recordedSource twoFileTrace)
      [LaunchRequest plainLaunch; TerminateRequest].
Proof.
  assert (E : sessionAfter posix_normalize (recordedSource twoFileTrace)
                [LaunchRequest plainLaunch; TerminateRequest]
              = Some {| runtime := Some (newRuntime posix_normalize twoFileTrace);
                        pendingBreakpoints := [];
                        startLineHint := None;
                        startSourcePathHint := None;
                        terminationMessageSent := false;
                        errorSummary := Some "trace-1";
                        sent := [Response "launch"; StoppedEvent "entry";
                                 Response "terminate"; TerminatedEvent] |})
    by reflexivity.
  split; [exact E|].
  intros (s & Hs & _ & Hall). rewrite E in Hs. injection Hs as <-.
  specialize (Hall [Response "launch"; StoppedEvent "entry";
                    Response "terminate"] [] eq_refl).
  discriminate Hall.
Qed.

(** C6, amended. Whatever requests a session has served, it has sent at
    most one summary line, and for any further request: the request
    completes; a terminate signal, if sent, is its last message; exactly
    one summary line precedes that signal when it follows the terminal
    cursor state ([launch], [continue], [next], [stepIn]/[stepOut] on a
    terminated runtime) or an explicit terminate on a session without
    runtime or already terminated. An explicit terminate on a session
    that is not terminated sends its response and the terminate signal
    without any summary line; on a session that has had its summary it
    sends them without a second summary line. ([stepIn]/[stepOut] on a
    session without runtime are left unconstrained.) *)
Theorem termination_summary_protocol (normalize : string -> string)
    (ds : DataSource) (rs : list Request) :
  exists s log,
    run ds (serve normalize rs newSession) [] = (Value s, log) /\
    (count_summary (sent s) <= 1)%nat /\
    (forall rt, runtime s = Some rt -> isTerminated rt = true ->
                terminationMessageSent s = true) /\
    forall r : Request,
      exists s' log',
        run ds (handleRequest normalize r s) log = (Value s', log') /\
        (count_summary (sent s') <= 1)%nat /\
        exists new,
          sent s' = (sent s ++ new)%list /\ emitted_ok r s new.
Proof.
  destruct (serve_ok normalize ds rs newSession [] newSession_ok)
    as (s & log & Hrun & Hok).
  assert (Hle : forall s0, session_ok s0 -> (count_summary (sent s0) <= 1)%nat).
  { intros s0 (Ht & Hf & _).
    destruct (terminationMessageSent s0);
      [rewrite Ht | rewrite Hf]; auto. }
  exists s, log. split; [exact Hrun|]. split; [apply Hle, Hok|]. split.
  - intros rt Hrt Hterm. destruct Hok as (_ & _ & H). rewrite Hrt in H.
    apply H, Hterm.
  - intros r.
    destruct (handleRequest_step normalize ds r s log Hok)
      as (s' & log' & Hrun' & Hok' & new & Hsent & Hem).
    exists s', log'. split; [exact Hrun'|]. split; [apply Hle, Hok'|].
    exists new. auto.
Qed.

(** ** End to end: stepping from the crash site *)

(** C3, counterexample: from the crash site the first [next] already
    terminates the session. *)
Lemma first_next_counterexample :
  (runtime <$> sessionAfter posix_normalize (recordedSource crashTrace)
                 [LaunchRequest plainLaunch; NextRequest])
  = Some (Some (set_cursor (newRuntime posix_normalize crashTrace) 3)) /\
  ~ next_visits_remaining_frames posix_normalize (recordedSource crashTrace)
      plainLaunch.
Proof.
  split; [reflexivity|].
  intros (s0 & s1 & s2 & s3 & rt0 & rt1 & rt2 & why1 & why2 &
          _ & H1 & _ & _ & _ & Hr1 & _ & _ & Hlive & _).
  vm_compute in H1. injection H1 as <-.
  simpl in Hr1. injection Hr1 as <-.
  vm_compute in Hlive. discriminate Hlive.
Qed.

Section EndToEnd.

Variable normalize : string -> string.

Lemma run_launch_resolved ds args stackTrace s log :
  loadStackTrace ds log args = Resolved stackTrace ->
  run ds (handleRequest normalize (LaunchRequest args) s) log
  = (Value (launched normalize args stackTrace s),
     (log ++ [CallStackTrace args])%list).
Proof. intros H. simpl. rewrite H. reflexivity. Qed.

(** A [next] from the last frame or from the terminal position. *)
Lemma next_past_last_frame s rt :
  runtime s = Some rt ->
  frameCount rt <= cursor rt + 1 ->
  (terminationMessageSent s = true -> count_summary (sent s) = 1%nat) ->
  (terminationMessageSent s = false -> count_summary (sent s) = 0%nat) ->
  let s' := performStepOver normalize "next" s in
  runtime s' = Some (set_cursor rt (frameCount rt)) /\
  terminationMessageSent s' = true /\
  count_summary (sent s') = 1%nat /\
  last (sent s') = Some TerminatedEvent.
Proof.
  intros Hrt Hlast Ht Hf. cbv zeta. unfold performStepOver, stepOnce.
  rewrite Hrt. apply Z.leb_le in Hlast. rewrite Hlast.
  unfold postStep. simpl.
  destruct (terminate_sequence
              (send (Response "next")
                 (set_runtime (Some (set_cursor rt (frameCount rt))) s)))
    as (Hflag & Hrun & Hcount & out & Hsent & _).
  { simpl. rewrite count_summary_snoc. simpl. rewrite Nat.add_0_r. exact Ht. }
  { simpl. rewrite count_summary_snoc. simpl. rewrite Nat.add_0_r. exact Hf. }
  repeat split; try assumption.
  apply last_snoc.
Qed.

(** C3, amended. For a loaded trace of three frames whose crash-site
    frame holds snapshot ["s2"] (launched without a start-line hint):
    the initial cursor is on the crash-site frame, the last internal
    index, and the session stops there on entry; the first [next]
    already terminates the session, moving the cursor to the terminal
    position and sending exactly one summary line before the terminate
    signal; the second and third [next] leave the session terminated
    and send no further summary line. *)
Theorem first_next_terminates_at_crash_site (ds : DataSource)
    (args : LaunchArgs) (stackTrace : StackTrace)
    (crash caller outer : StackTraceFrame) :
  la_startLine args = None ->
  loadStackTrace ds [] args = Resolved stackTrace ->
  st_frames stackTrace = [crash; caller; outer] ->
  r_snapshotId crash = Some "s2" ->
  exists s0 s1 s2 s3 rt0 frame,
    sessionAfter normalize ds [LaunchRequest args] = Some s0 /\
    runtime s0 = Some rt0 /\ frameCount rt0 = 3 /\ cursor rt0 = 2 /\
    at_index (frames rt0) (cursor rt0) = Some frame /\
    f_id frame = 0 /\ f_snapshotId frame = Some "s2" /\
    last (sent s0) = Some (StoppedEvent "entry") /\
    count_summary (sent s0) = 0%nat /\
    sessionAfter normalize ds [LaunchRequest args; NextRequest] = Some s1 /\
    runtime s1 = Some (set_cursor rt0 3) /\
    runtimeTerminated s1 = true /\
    count_summary (sent s1) = 1%nat /\
    last (sent s1) = Some TerminatedEvent /\
    sessionAfter normalize ds [LaunchRequest args; NextRequest; NextRequest]
    = Some s2 /\
    runtimeTerminated s2 = true /\ count_summary (sent s2) = 1%nat /\
    sessionAfter normalize ds
      [LaunchRequest args; NextRequest; NextRequest; NextRequest]
    = Some s3 /\
    runtimeTerminated s3 = true /\ count_summary (sent s3) = 1%nat.
Proof.
  intros Hhint Hload Hframes Hsnap.
  set (s0 := launched normalize args stackTrace newSession).
  set (rt0 := {| frames := [buildFrame normalize outer 2;
                            buildFrame normalize caller 1;
                            buildFrame normalize crash 0];
                 breakpoints := ∅; variablesCache := ∅; cursor := 2 |}).
  assert (Hnew : newRuntime normalize stackTrace = rt0).
  { unfold newRuntime, buildFrames. rewrite Hframes. simpl.
    unfold findInitialFrame, findIndex. simpl. rewrite Hsnap. reflexivity. }
  assert (H0 : runtime s0 = Some rt0 /\
               terminationMessageSent s0 = false /\
               count_summary (sent s0) = 0%nat /\
               last (sent s0) = Some (StoppedEvent "entry")).
  { subst s0. unfold launched. simpl. rewrite Hnew, Hhint.
    destruct (la_trace args); simpl; auto. }
  destruct H0 as (Hrt0 & Hflag0 & Hcount0 & Hlast0).
  set (s1 := performStepOver normalize "next" s0).
  destruct (next_past_last_frame s0 rt0 Hrt0) as (Hrt1 & Hflag1 & Hc1 & Hl1).
  { unfold frameCount. simpl. lia. }
  { rewrite Hflag0. discriminate. }
  { intros _. exact Hcount0. }
  fold s1 in Hrt1, Hflag1, Hc1, Hl1.
  set (s2 := performStepOver normalize "next" s1).
  destruct (next_past_last_frame s1 _ Hrt1) as (Hrt2 & Hflag2 & Hc2 & Hl2).
  { unfold frameCount. simpl. lia. }
  { intros _. exact Hc1. }
  { rewrite Hflag1. discriminate. }
  fold s2 in Hrt2, Hflag2, Hc2, Hl2.
  set (s3 := performStepOver normalize "next" s2).
  destruct (next_past_last_frame s2 _ Hrt2) as (Hrt3 & Hflag3 & Hc3 & Hl3).
  { unfold frameCount. simpl. lia. }
  { intros _. exact Hc2. }
  { rewrite Hflag2. discriminate. }
  fold s3 in Hrt3, Hflag3, Hc3, Hl3.
  assert (Hafter : forall nexts,
             sessionAfter normalize ds (LaunchRequest args :: nexts)
             = match run ds (serve normalize nexts s0) [CallStackTrace args]
               with
               | (Value s, _) => Some s
               | (Thrown _, _) => None
               end).
  { intros nexts. unfold sessionAfter.
    change (serve normalize (LaunchRequest args :: nexts) newSession)
      with (bind (handleRequest normalize (LaunchRequest args) newSession)
                 (serve normalize nexts)).
    rewrite run_bind, (run_launch_resolved ds args stackTrace _ _ Hload).
    reflexivity. }
  exists s0, s1, s2, s3, rt0, (buildFrame normalize crash 0).
  repeat split; try assumption; try reflexivity.
  - rewrite Hafter. reflexivity.
  - simpl. rewrite Hsnap. reflexivity.
  - rewrite Hafter. reflexivity.
  - unfold runtimeTerminated. rewrite Hrt1. reflexivity.
  - rewrite Hafter. reflexivity.
  - unfold runtimeTerminated. rewrite Hrt2. reflexivity.
  - rewrite Hafter. reflexivity.
  - unfold runtimeTerminated. rewrite Hrt3. reflexivity.
Qed.

End EndToEnd.

Lemma first_next_terminates_at_crash_site_witness :
  la_startLine plainLaunch = None /\
  loadStackTrace (recordedSource crashTrace) [] plainLaunch
  = Resolved crashTrace /\
  exists s1,
    sessionAfter posix_normalize (recordedSource crashTrace)
      [LaunchRequest plainLaunch; NextRequest] = Some s1 /\
    runtimeTerminated s1 = true /\ count_summary (sent s1) = 1%nat.
Proof.
  split; [reflexivity|]. split; [reflexivity|].
  destruct (first_next_terminates_at_crash_site posix_normalize
              (recordedSource crashTrace) plainLaunch crashTrace
              (rawFrame "/app/crash.js" 9 (Some "s2"))
              (rawFrame "/app/inner.js" 4 None)
              (rawFrame "/app/main.js" 1 None)
              eq_refl eq_refl eq_refl eq_refl)
    as (s0 & s1 & s2 & s3 & rt0 & frame & H).
  exists s1. tauto.
Defined.

(** * Further properties *)

(** ** Frame indexing *)

Lemma rev_lookup {A} (l : list A) (i : nat) :
  (i < length l)%nat -> rev l !! i = l !! (length l - S i)%nat.
Proof.
  intros H. rewrite rev_alt. change (rev_append l []) with (reverse l).
  apply reverse_lookup, H.
Qed.

(** [findIndex] returns the least index whose element satisfies the
    predicate. *)
Lemma findIndex_from_least {A} (p : A -> bool) (l : list A) (i : Z) :
  (findIndex_from p l i = -1 /\ forall x, In x l -> p x = false) \/
  (exists (k : nat) (x : A),
     findIndex_from p l i = i + Z.of_nat k /\
     l !! k = Some x /\ p x = true /\
     forall (j : nat) (y : A), (j < k)%nat -> l !! j = Some y -> p y = false).
Proof.
  revert i. induction l as [|a r IH]; intros i; simpl.
  - left. split; [reflexivity | intros x []].
  - destruct (p a) eqn:Ea.
    + right. exists 0%nat, a. repeat split; try assumption; [lia|].
      intros j y Hj. lia.
    + destruct (IH (i + 1)) as [[E Hall] | (k & x & E & Hk & Hp & Hmin)].
      * left. split; [exact E|]. intros x [<- | Hx]; [exact Ea | now apply Hall].
      * right. exists (S k), x. repeat split; try assumption; [lia|].
        intros [|j] y Hj Hy; simpl in Hy.
        -- injection Hy as <-. exact Ea.
        -- apply (Hmin j y); [lia | exact Hy].
Qed.

Lemma findIndex_least {A} (p : A -> bool) (l : list A) :
  (findIndex p l = -1 /\ forall x, In x l -> p x = false) \/
  (exists x,
     0 <= findIndex p l /\ at_index l (findIndex p l) = Some x /\
     p x = true /\
     forall j y, 0 <= j < findIndex p l -> at_index l j = Some y ->
                 p y = false).
Proof.
  unfold findIndex.
  destruct (findIndex_from_least p l 0) as [H | (k & x & E & Hk & Hp & Hmin)];
    [now left | right].
  exists x. rewrite E, Z.add_0_l. unfold at_index.
  replace (0 <=? Z.of_nat k) with true by (symmetry; apply Z.leb_le; lia).
  rewrite Nat2Z.id. repeat split; try assumption; [lia|].
  intros j y Hj. destruct (0 <=? j) eqn:E0; [|discriminate].
  intros Hy. apply (Hmin (Z.to_nat j) y); [lia | exact Hy].
Qed.

Section IndexingFacts.

Variable normalize : string -> string.

Lemma map_indexed_length (loaded : list StackTraceFrame) (idx : Z) :
  length (map_indexed normalize loaded idx) = length loaded.
Proof.
  revert idx. induction loaded as [|fr r IH]; intros idx; simpl;
    [reflexivity | now rewrite IH].
Qed.

Lemma map_indexed_lookup (loaded : list StackTraceFrame) (idx : Z) (k : nat) :
  map_indexed normalize loaded idx !! k
  = (fun frame => buildFrame normalize frame (idx + Z.of_nat k))
      <$> loaded !! k.
Proof.
  revert idx k. induction loaded as [|fr r IH]; intros idx k; simpl.
  - now destruct k.
  - destruct k as [|k]; simpl.
    + now rewrite Z.add_0_r.
    + rewrite IH. destruct (r !! k); simpl; [|reflexivity].
      do 2 f_equal. lia.
Qed.

Lemma buildFrames_length (loaded : list StackTraceFrame) :
  length (buildFrames normalize loaded) = length loaded.
Proof. unfold buildFrames. now rewrite length_rev, map_indexed_length. Qed.

Lemma buildFrames_lookup (loaded : list StackTraceFrame) (j : nat) :
  (j < length loaded)%nat ->
  buildFrames normalize loaded !! j
  = (fun frame =>
       buildFrame normalize frame (Z.of_nat (length loaded - 1 - j)))
      <$> loaded !! (length loaded - 1 - j)%nat.
Proof.
  intros Hj. unfold buildFrames.
  rewrite rev_lookup by (now rewrite map_indexed_length).
  rewrite map_indexed_length, map_indexed_lookup.
  replace (length loaded - S j)%nat with (length loaded - 1 - j)%nat by lia.
  reflexivity.
Qed.

Lemma buildFrames_id_at (loaded : list StackTraceFrame) (j : nat)
    (f : ReplayFrame) :
  buildFrames normalize loaded !! j = Some f ->
  f_id f = Z.of_nat (length loaded) - 1 - Z.of_nat j.
Proof.
  intros H. pose proof (lookup_lt_Some _ _ _ H) as Hj.
  rewrite buildFrames_length in Hj.
  rewrite buildFrames_lookup in H by exact Hj.
  destruct (loaded !! (length loaded - 1 - j)%nat); [|discriminate].
  injection H as <-. simpl. lia.
Qed.

Lemma buildFrames_ids_NoDup (loaded : list StackTraceFrame) :
  List.NoDup (map f_id (buildFrames normalize loaded)).
Proof.
  apply NoDup_ListNoDup, NoDup_alt. intros i j x Hi Hj.
  rewrite list_lookup_fmap in Hi, Hj.
  destruct (buildFrames normalize loaded !! i) as [fi|] eqn:Ei; [|discriminate].
  destruct (buildFrames normalize loaded !! j) as [fj|] eqn:Ej; [|discriminate].
  apply buildFrames_id_at in Ei, Ej.
  injection Hi as Hi. injection Hj as Hj. lia.
Qed.

(** X1. [buildFrames] keeps exactly one normalized frame per loaded
    frame, in reverse order: the frame loaded at position [k] is found at
    internal index [n - 1 - k], normalized with [k] as its id; frame ids
    are therefore pairwise distinct. *)
Theorem buildFrames_reverses_loaded_order (loaded : list StackTraceFrame) :
  length (buildFrames normalize loaded) = length loaded /\
  (forall (k : nat) (frame : StackTraceFrame),
     loaded !! k = Some frame ->
     buildFrames normalize loaded !! (length loaded - 1 - k)%nat
     = Some (buildFrame normalize frame (Z.of_nat k))) /\
  List.NoDup (map f_id (buildFrames normalize loaded)).
Proof.
  split; [apply buildFrames_length|]. split; [|apply buildFrames_ids_NoDup].
  intros k frame Hk. pose proof (lookup_lt_Some _ _ _ Hk) as Hlt.
  rewrite buildFrames_lookup by lia.
  replace (length loaded - 1 - (length loaded - 1 - k))%nat with k by lia.
  rewrite Hk. reflexivity.
Qed.

End IndexingFacts.

Lemma at_index_rev {A} (l : list A) (j : Z) :
  0 <= j < Z.of_nat (length l) ->
  at_index (rev l) j = at_index l (Z.of_nat (length l) - 1 - j).
Proof.
  intros Hj. unfold at_index.
  replace (0 <=? j) with true by (symmetry; apply Z.leb_le; lia).
  replace (0 <=? Z.of_nat (length l) - 1 - j) with true
    by (symmetry; apply Z.leb_le; lia).
  rewrite rev_lookup by lia. f_equal. lia.
Qed.

Lemma at_index_In {A} (l : list A) (x : A) :
  In x l <-> exists j, at_index l j = Some x.
Proof.
  rewrite <- list_elem_of_In, list_elem_of_lookup. split.
  - intros [i Hi]. exists (Z.of_nat i). unfold at_index.
    replace (0 <=? Z.of_nat i) with true by (symmetry; apply Z.leb_le; lia).
    now rewrite Nat2Z.id.
  - intros [j Hj]. unfold at_index in Hj.
    destruct (0 <=? j); [eauto | discriminate].
Qed.

(** X2. On a non-empty frame list the initial cursor designates a
    frame. If some frame carries a snapshot identifier, that frame
    carries one and no frame nearer to the crash site (at a greater
    index) does; if none carries one, the cursor is on the crash site,
    the last index. *)
Theorem initial_cursor_innermost_snapshot (frames : list ReplayFrame) :
  frames <> [] ->
  let c := findInitialFrame frames in
  0 <= c < Z.of_nat (length frames) /\
  ((exists f,
      at_index frames c = Some f /\ truthy (f_snapshotId f) = true /\
      forall j g, c < j -> at_index frames j = Some g ->
                  truthy (f_snapshotId g) = false) \/
   (c = Z.of_nat (length frames) - 1 /\
    forall g, In g frames -> truthy (f_snapshotId g) = false)).
Proof.
  intros Hne. cbv zeta. unfold findInitialFrame.
  destruct frames as [|f0 fs]; [congruence|].
  set (l := f0 :: fs) in *.
  assert (Hlen : 0 < Z.of_nat (length l)) by (subst l; simpl; lia).
  destruct (findIndex_least (fun frame => truthy (f_snapshotId frame)) (rev l))
    as [[E Hall] | (x & H0 & Hx & Hp & Hmin)].
  - rewrite E. simpl. split; [lia|]. right. split; [reflexivity|].
    intros g Hg. apply Hall. now apply -> in_rev.
  - set (idx := findIndex _ (rev l)) in *.
    pose proof (at_index_Some _ _ _ Hx) as Hr. rewrite length_rev in Hr.
    replace (0 <=? idx) with true by (symmetry; apply Z.leb_le; lia).
    split; [lia|]. left. exists x.
    rewrite at_index_rev in Hx by lia.
    repeat split; try assumption.
    intros j g Hj Hg. pose proof (at_index_Some _ _ _ Hg) as Hjr.
    apply (Hmin (Z.of_nat (length l) - 1 - j) g); [lia|].
    rewrite at_index_rev by lia.
    replace (Z.of_nat (length l) - 1 - (Z.of_nat (length l) - 1 - j)) with j
      by lia.
    exact Hg.
Qed.

Lemma initial_cursor_innermost_snapshot_witness :
  frames twoFileRuntime <> [] /\
  0 <= findInitialFrame (frames twoFileRuntime)
    < Z.of_nat (length (frames twoFileRuntime)).
Proof.
  assert (H : frames twoFileRuntime <> []) by discriminate.
  split; [exact H|].
  apply (initial_cursor_innermost_snapshot (frames twoFileRuntime) H).
Defined.

Section BuiltRuntimeFacts.

Variable normalize : string -> string.

Lemma built_frame_at (loaded : list StackTraceFrame) (j : Z) (f : ReplayFrame) :
  at_index (buildFrames normalize loaded) j = Some f ->
  0 <= j < Z.of_nat (length loaded) /\
  exists frame,
    at_index loaded (Z.of_nat (length loaded) - 1 - j) = Some frame /\
    f = buildFrame normalize frame (Z.of_nat (length loaded) - 1 - j).
Proof.
  intros H. pose proof (at_index_Some _ _ _ H) as Hj.
  rewrite buildFrames_length in Hj. split; [exact Hj|].
  unfold at_index in *.
  replace (0 <=? j) with true in H by (symmetry; apply Z.leb_le; lia).
  replace (0 <=? Z.of_nat (length loaded) - 1 - j) with true
    by (symmetry; apply Z.leb_le; lia).
  rewrite buildFrames_lookup in H by lia.
  replace (Z.to_nat (Z.of_nat (length loaded) - 1 - j))
    with (length loaded - 1 - Z.to_nat j)%nat by lia.
  destruct (loaded !! (length loaded - 1 - Z.to_nat j)%nat) as [frame|];
    [|discriminate].
  injection H as <-. exists frame. split; [reflexivity|]. f_equal. lia.
Qed.

Lemma built_frame_of_loaded (loaded : list StackTraceFrame) (k : Z)
    (frame : StackTraceFrame) :
  at_index loaded k = Some frame ->
  at_index (buildFrames normalize loaded) (Z.of_nat (length loaded) - 1 - k)
  = Some (buildFrame normalize frame k).
Proof.
  intros H. pose proof (at_index_Some _ _ _ H) as Hk.
  unfold at_index in *.
  replace (0 <=? k) with true in H by (symmetry; apply Z.leb_le; lia).
  replace (0 <=? Z.of_nat (length loaded) - 1 - k) with true
    by (symmetry; apply Z.leb_le; lia).
  rewrite buildFrames_lookup by lia.
  replace (length loaded - 1 - Z.to_nat (Z.of_nat (length loaded) - 1 - k))%nat
    with (Z.to_nat k) by lia.
  rewrite H. simpl. do 2 f_equal. lia.
Qed.

(** The index of the frame with a given id in a built frame list. *)
Lemma findIndex_by_id (loaded : list StackTraceFrame) (frameId : Z) :
  findIndex (fun f => f_id f =? frameId) (buildFrames normalize loaded)
  = if (0 <=? frameId) && (frameId <? Z.of_nat (length loaded))
    then Z.of_nat (length loaded) - 1 - frameId
    else -1.
Proof.
  destruct (findIndex_least (fun f => f_id f =? frameId)
              (buildFrames normalize loaded))
    as [[E Hall] | (x & H0 & Hx & Hp & _)].
  - rewrite E.
    destruct ((0 <=? frameId) && (frameId <? Z.of_nat (length loaded))) eqn:Er;
      [|reflexivity].
    apply andb_true_iff in Er. destruct Er as [E1 E2].
    apply Z.leb_le in E1. apply Z.ltb_lt in E2.
    destruct (at_index loaded frameId) as [frame|] eqn:Ef.
    + apply built_frame_of_loaded in Ef.
      assert (Hin : In (buildFrame normalize frame frameId)
                       (buildFrames normalize loaded))
        by (apply at_index_In; eauto).
      apply Hall in Hin. simpl in Hin. rewrite Z.eqb_refl in Hin.
      discriminate.
    + unfold at_index in Ef.
      replace (0 <=? frameId) with true in Ef
        by (symmetry; apply Z.leb_le; lia).
      apply lookup_ge_None in Ef. lia.
  - apply built_frame_at in Hx. destruct Hx as (Hr & frame & _ & ->).
    simpl in Hp. apply Z.eqb_eq in Hp.
    replace ((0 <=? frameId) && (frameId <? Z.of_nat (length loaded)))
      with true
      by (symmetry; apply andb_true_iff; split;
          [apply Z.leb_le | apply Z.ltb_lt]; lia).
    lia.
Qed.

(** X3. On a runtime whose frames were built from a loaded trace of [n]
    frames, [setCursorByFrameId k] with [0 <= k < n] puts the cursor on
    internal index [n - 1 - k], whose frame has id [k], and the runtime
    is then not terminated, whatever the cursor was; with any other id
    the runtime is unchanged. *)
Theorem setCursorByFrameId_finds_frame (loaded : list StackTraceFrame)
    (rt : ReplayRuntime) (frameId : Z) :
  frames rt = buildFrames normalize loaded ->
  let n := Z.of_nat (length loaded) in
  (0 <= frameId < n ->
   cursor (setCursorByFrameId frameId rt) = n - 1 - frameId /\
   isTerminated (setCursorByFrameId frameId rt) = false /\
   exists f, at_index (frames rt) (n - 1 - frameId) = Some f /\
             f_id f = frameId) /\
  (~ 0 <= frameId < n -> setCursorByFrameId frameId rt = rt).
Proof.
  intros Hfr. cbv zeta. unfold setCursorByFrameId.
  rewrite Hfr, findIndex_by_id. split.
  - intros Hk.
    replace ((0 <=? frameId) && (frameId <? Z.of_nat (length loaded)))
      with true
      by (symmetry; apply andb_true_iff; split;
          [apply Z.leb_le | apply Z.ltb_lt]; lia).
    replace (0 <=? Z.of_nat (length loaded) - 1 - frameId) with true
      by (symmetry; apply Z.leb_le; lia).
    split; [reflexivity|]. split.
    + unfold isTerminated, frameCount. simpl.
      rewrite Hfr, buildFrames_length.
      apply orb_false_iff. split; [apply Z.leb_gt | apply Z.ltb_ge]; lia.
    + destruct (at_index loaded frameId) as [frame|] eqn:Ef.
      * exists (buildFrame normalize frame frameId).
        split; [now apply built_frame_of_loaded | reflexivity].
      * unfold at_index in Ef.
        replace (0 <=? frameId) with true in Ef
          by (symmetry; apply Z.leb_le; lia).
        apply lookup_ge_None in Ef. lia.
  - intros Hk.
    replace ((0 <=? frameId) && (frameId <? Z.of_nat (length loaded)))
      with false; [reflexivity|].
    symmetry. apply andb_false_iff.
    destruct (Z_lt_le_dec frameId 0);
      [left; apply Z.leb_gt | right; apply Z.ltb_ge]; lia.
Qed.

End BuiltRuntimeFacts.

Lemma setCursorByFrameId_finds_frame_witness :
  frames twoFileRuntime = buildFrames posix_normalize (st_frames twoFileTrace)
  /\ cursor (setCursorByFrameId 1 twoFileRuntime) = 1.
Proof.
  split; [reflexivity|].
  apply (setCursorByFrameId_finds_frame posix_normalize (st_frames twoFileTrace)
           twoFileRuntime 1 eq_refl).
  simpl. lia.
Defined.

Section StackOrder.

Variable normalize : string -> string.

(** X4. The frames reported by [getOrderedFrames] on a runtime built
    from a loaded trace are the normalized loaded frames in their loaded
    order (crash site first missing the frames nearer to the crash than
    the cursor): with the cursor on the crash site, or on the terminal
    position, all of them; with the cursor on internal index [c], the
    last [c + 1] of them. *)
Theorem getOrderedFrames_loaded_order (loaded : list StackTraceFrame)
    (rt : ReplayRuntime) :
  frames rt = buildFrames normalize loaded ->
  getOrderedFrames rt
  = drop (Z.to_nat (frameCount rt - 1 - cursor rt))
         (map_indexed normalize loaded 0) /\
  (frameCount rt - 1 <= cursor rt ->
   getOrderedFrames rt = map_indexed normalize loaded 0).
Proof.
  intros Hfr.
  assert (Hmain : getOrderedFrames rt
                  = drop (Z.to_nat (frameCount rt - 1 - cursor rt))
                         (map_indexed normalize loaded 0)).
  { unfold getOrderedFrames, frameCount, slice0. rewrite Hfr.
    rewrite buildFrames_length. clear Hfr.
    destruct (buildFrames normalize loaded) as [|f fs] eqn:Eb.
    - pose proof (buildFrames_length normalize loaded) as Hl.
      rewrite Eb in Hl. simpl in Hl.
      destruct loaded; [simpl; now rewrite drop_nil | discriminate].
    - rewrite <- Eb. clear Eb f fs. unfold buildFrames.
      destruct (cursor rt <? 0) eqn:Ec.
      + apply Z.ltb_lt in Ec. symmetry. apply drop_ge.
        rewrite map_indexed_length. lia.
      + apply Z.ltb_ge in Ec.
        rewrite firstn_rev, rev_involutive, map_indexed_length.
        f_equal. lia. }
  split; [exact Hmain|].
  intros Hc. rewrite Hmain.
  replace (Z.to_nat (frameCount rt - 1 - cursor rt)) with 0%nat by lia.
  reflexivity.
Qed.

(** X5. Looking a frame's snapshot up by frame id returns the snapshot
    identifier of the loaded frame at that position ([snapshotId], else
    [snapshot_id]), and nothing for an id outside the trace. *)
Theorem getSnapshotIdForFrame_loaded (loaded : list StackTraceFrame)
    (rt : ReplayRuntime) (frameId : Z) :
  frames rt = buildFrames normalize loaded ->
  getSnapshotIdForFrame rt frameId
  = at_index loaded frameId
      ≫= (fun frame => r_snapshotId frame ?? r_snapshot_id frame).
Proof.
  intros Hfr. unfold getSnapshotIdForFrame. rewrite Hfr.
  destruct (List.find (fun f => f_id f =? frameId)
              (buildFrames normalize loaded)) as [f|] eqn:Efind.
  - apply find_some in Efind. destruct Efind as [Hin Hid].
    apply Z.eqb_eq in Hid. apply at_index_In in Hin. destruct Hin as [j Hj].
    apply built_frame_at in Hj. destruct Hj as (Hr & frame & Hframe & ->).
    simpl in Hid. rewrite Hid in Hframe. rewrite Hframe. reflexivity.
  - destruct (at_index loaded frameId) as [frame|] eqn:Ef; [|reflexivity].
    apply (built_frame_of_loaded normalize) in Ef.
    assert (Hin : In (buildFrame normalize frame frameId)
                     (buildFrames normalize loaded))
      by (apply at_index_In; eauto).
    apply (find_none _ _ Efind) in Hin. simpl in Hin.
    rewrite Z.eqb_refl in Hin. discriminate.
Qed.

End StackOrder.

Lemma getOrderedFrames_loaded_order_witness :
  frames (newRuntime posix_normalize crashTrace)
  = buildFrames posix_normalize (st_frames crashTrace) /\
  getOrderedFrames (newRuntime posix_normalize crashTrace)
  = map_indexed posix_normalize (st_frames crashTrace) 0.
Proof.
  split; [reflexivity|].
  apply (getOrderedFrames_loaded_order posix_normalize (st_frames crashTrace)
           (newRuntime posix_normalize crashTrace) eq_refl).
  vm_compute. discriminate.
Defined.

Lemma getSnapshotIdForFrame_loaded_witness :
  frames (newRuntime posix_normalize crashTrace)
  = buildFrames posix_normalize (st_frames crashTrace) /\
  getSnapshotIdForFrame (newRuntime posix_normalize crashTrace) 0
  = Some "s2".
Proof.
  split; [reflexivity|].
  apply (getSnapshotIdForFrame_loaded posix_normalize (st_frames crashTrace)
           (newRuntime posix_normalize crashTrace) 0 eq_refl).
Defined.

(** ** Cursor movement *)

Section MovementFacts.

Variable normalize : string -> string.

(** X6. [stepOnce] and [continueExecution] never move the cursor of a
    runtime backwards, and when they report a stop the cursor has moved
    strictly forward; [stepOnce] then has moved it by exactly one. *)
Theorem step_and_continue_move_forward (rt : ReplayRuntime)
    (why : option string) :
  0 <= cursor rt <= frameCount rt ->
  let stepped := stepOnce normalize why rt in
  let continued := continueExecution normalize rt in
  cursor rt <= cursor (snd stepped) /\
  cursor rt <= cursor (snd continued) /\
  (terminated (fst stepped) = false ->
   cursor (snd stepped) = cursor rt + 1 /\ stopped (fst stepped) = true) /\
  (terminated (fst continued) = false ->
   cursor rt < cursor (snd continued) /\ stopped (fst continued) = true).
Proof.
  intros Hc. cbv zeta. unfold stepOnce, continueExecution.
  pose proof (findNextBreakpointIndex_spec normalize rt (cursor rt + 1))
    as Hspec.
  cbv zeta in Hspec. unfold frameCount in *.
  repeat split.
  - destruct (_ <=? cursor rt + 1); simpl; [lia|].
    clear Hspec. destruct (hitsBreakpoint _ _ _); simpl; lia.
  - destruct Hspec as [[Hr _] | (Hr & H0 & _)].
    + rewrite Hr. simpl. lia.
    + destruct (_ =? -1); simpl; lia.
  - destruct (_ <=? cursor rt + 1); simpl in *; [discriminate|].
    clear Hspec. destruct (hitsBreakpoint _ _ _); reflexivity.
  - destruct (_ <=? cursor rt + 1); simpl in *; [discriminate|].
    clear Hspec. destruct (hitsBreakpoint _ _ _); reflexivity.
  - destruct Hspec as [[Hr _] | (Hr & H0 & _)].
    + rewrite Hr in *. simpl in *. discriminate.
    + destruct (_ =? -1); simpl in *; [discriminate | lia].
  - destruct (_ =? -1); simpl in *; [discriminate | reflexivity].
Qed.

(** The runtime after [k] successive [stepOnce] calls. *)
Lemma steps_cursor (k : nat) (rt : ReplayRuntime) (why : option string) :
  0 <= cursor rt <= frameCount rt ->
  let rt' := Nat.iter k (fun r => snd (stepOnce normalize why r)) rt in
  frames rt' = frames rt /\
  cursor rt' = Z.min (cursor rt + Z.of_nat k) (frameCount rt).
Proof.
  intros Hc. cbv zeta. induction k as [|k IH].
  - simpl. split; [reflexivity | lia].
  - rewrite Nat.iter_succ. destruct IH as [Hf Hcur].
    set (r := Nat.iter k _ rt) in *.
    assert (Hn : frameCount r = frameCount rt)
      by (unfold frameCount; now rewrite Hf).
    unfold stepOnce. rewrite Hn, Hcur.
    destruct (frameCount rt <=? Z.min (cursor rt + Z.of_nat k) (frameCount rt) + 1)
      eqn:E; simpl.
    + apply Z.leb_le in E. split; [exact Hf | lia].
    + apply Z.leb_gt in E.
      destruct (hitsBreakpoint _ _ _); simpl; (split; [exact Hf | lia]).
Qed.

(** X7. Stepping always ends the replay: after [k] successive
    [stepOnce] calls the cursor is [min (cursor + k) frameCount], so the
    runtime is terminated exactly when [k] is at least the number of
    positions left, and then stays terminated. *)
Theorem stepping_terminates (k : nat) (rt : ReplayRuntime)
    (why : option string) :
  0 <= cursor rt <= frameCount rt ->
  let rt' := Nat.iter k (fun r => snd (stepOnce normalize why r)) rt in
  cursor rt' = Z.min (cursor rt + Z.of_nat k) (frameCount rt) /\
  (isTerminated rt' = true <-> frameCount rt - cursor rt <= Z.of_nat k).
Proof.
  intros Hc. cbv zeta.
  destruct (steps_cursor k rt why Hc) as [Hf Hcur]. cbv zeta in Hf, Hcur.
  split; [exact Hcur|].
  unfold isTerminated, frameCount in *. rewrite Hf, Hcur.
  rewrite orb_true_iff, Z.leb_le, Z.ltb_lt. lia.
Qed.

(** X8. When no frame beyond the cursor hits a stored breakpoint (in
    particular when no breakpoint is stored), [continueExecution]
    terminates the replay from any cursor position: the result is
    [terminated] and the cursor is [frameCount]. *)
Theorem continue_without_hit_terminates (rt : ReplayRuntime) :
  (forall j, cursor rt < j ->
     hitsBreakpoint normalize (breakpoints rt) (at_index (frames rt) j)
     = false) ->
  continueExecution normalize rt
  = (step_terminated, set_cursor rt (frameCount rt)) /\
  isTerminated (snd (continueExecution normalize rt)) = true.
Proof.
  intros Hno. unfold continueExecution.
  pose proof (findNextBreakpointIndex_spec normalize rt (cursor rt + 1))
    as Hspec.
  cbv zeta in Hspec.
  destruct Hspec as [[Hr _] | (Hr & _ & Hh & _)].
  - rewrite Hr. simpl. split; [reflexivity|].
    unfold isTerminated, frameCount. simpl. now rewrite Z.leb_refl.
  - rewrite Hno in Hh by lia. discriminate.
Qed.

End MovementFacts.

Lemma step_and_continue_move_forward_witness :
  0 <= cursor twoFileRuntime <= frameCount twoFileRuntime /\
  cursor twoFileRuntime
  <= cursor (snd (stepOnce posix_normalize None twoFileRuntime)).
Proof.
  assert (H : 0 <= cursor twoFileRuntime <= frameCount twoFileRuntime)
    by (vm_compute; split; discriminate).
  split; [exact H|].
  apply (step_and_continue_move_forward posix_normalize twoFileRuntime None H).
Defined.

Lemma stepping_terminates_witness :
  0 <= cursor twoFileRuntime <= frameCount twoFileRuntime /\
  cursor (Nat.iter 5 (fun r => snd (stepOnce posix_normalize None r))
                   twoFileRuntime)
  = Z.min (cursor twoFileRuntime + 5) (frameCount twoFileRuntime).
Proof.
  assert (H : 0 <= cursor twoFileRuntime <= frameCount twoFileRuntime)
    by (vm_compute; split; discriminate).
  split; [exact H|].
  apply (stepping_terminates posix_normalize 5 twoFileRuntime None H).
Defined.

Lemma continue_without_hit_terminates_witness :
  (forall j, cursor (newRuntime posix_normalize crashTrace) < j ->
     hitsBreakpoint posix_normalize
       (breakpoints (newRuntime posix_normalize crashTrace))
       (at_index (frames (newRuntime posix_normalize crashTrace)) j) = false)
  /\ isTerminated
       (snd (continueExecution posix_normalize
               (newRuntime posix_normalize crashTrace))) = true.
Proof.
  assert (H : forall j, cursor (newRuntime posix_normalize crashTrace) < j ->
     hitsBreakpoint posix_normalize
       (breakpoints (newRuntime posix_normalize crashTrace))
       (at_index (frames (newRuntime posix_normalize crashTrace)) j) = false).
  { intros j _. unfold hitsBreakpoint.
    destruct (at_index _ j) as [f|]; [|reflexivity].
    destruct (truthy (f_file f)); [|reflexivity].
    change (breakpoints (newRuntime posix_normalize crashTrace))
      with (∅ : gmap string (list Z)).
    now rewrite lookup_empty. }
  split; [exact H|].
  apply (continue_without_hit_terminates posix_normalize _ H).
Defined.

(** ** The breakpoint store *)

Lemma set_of_lines_acc_NoDup (lines seen : list Z) :
  List.NoDup seen -> List.NoDup (set_of_lines_acc seen lines).
Proof.
  revert seen. induction lines as [|l r IH]; intros seen Hnd; simpl.
  - apply NoDup_ListNoDup, NoDup_ListNoDup. now apply List.NoDup_rev.
  - destruct (existsb (Z.eqb l) seen) eqn:E; [now apply IH|].
    apply IH. constructor; [|exact Hnd].
    intros Hin. apply (set_has_In seen l) in Hin.
    unfold set_has in Hin. congruence.
Qed.

(** X9. [setBreakpoints] with a path reports the submitted lines
    without duplicates, and a submission fully replaces an earlier one
    for the same path: the store after two submissions is the store
    after the second alone. *)
Theorem setBreakpoints_replaces (normalize : string -> string)
    (sourcePath : option string) (first second : list Z)
    (rt : ReplayRuntime) :
  (truthy sourcePath = true ->
   List.NoDup (fst (setBreakpoints normalize sourcePath second rt)) /\
   forall line,
     In line (fst (setBreakpoints normalize sourcePath second rt))
     <-> In line second) /\
  snd (setBreakpoints normalize sourcePath second
         (snd (setBreakpoints normalize sourcePath first rt)))
  = snd (setBreakpoints normalize sourcePath second rt).
Proof.
  unfold setBreakpoints. destruct (truthy sourcePath); simpl.
  - split.
    + intros _. split.
      * apply set_of_lines_acc_NoDup. constructor.
      * intros line. apply set_of_lines_In.
    + f_equal. apply insert_insert_eq.
  - split; [discriminate | reflexivity].
Qed.

(** ** Aligning the cursor with a location *)

Section LocationFacts.

Variable normalize : string -> string.

Lemma location_test_spec (filePath : option string) (line : Z)
    (f : ReplayFrame) :
  (let normalizedFile :=
     if truthy filePath then normalize <$> filePath else None in
   (if truthy normalizedFile
    then String.eqb (normalize (default "" (f_file f)))
                    (default "" normalizedFile)
    else true) && (f_line f =? line)) = true
  <-> at_location normalize filePath line f.
Proof.
  cbv zeta. unfold at_location.
  rewrite andb_true_iff, Z.eqb_eq.
  destruct filePath as [[|c p]|]; simpl.
  - split; [intros [_ H]; split; [congruence | exact H] | intros [_ H]; auto].
  - destruct (normalize (String c p)) as [|d q] eqn:En; simpl.
    + split; [intros [_ H] | intros [_ H]; auto].
      split; [|exact H]. intros p0 E _ Hn. injection E as <-. congruence.
    + rewrite String.eqb_eq. split.
      * intros [Hs H]. split; [|exact H].
        intros p0 E _ _. injection E as <-. now rewrite En.
      * intros [Hs H]. split; [|exact H]. rewrite <- En. apply Hs.
        -- reflexivity.
        -- discriminate.
        -- rewrite En. discriminate.
  - split; [intros [_ H]; split; [congruence | exact H] | intros [_ H]; auto].
Qed.

(** X10. [setCursorByLocation] with a line puts the cursor on the first
    frame (smallest internal index) at the hinted location when there is
    one, and otherwise leaves the runtime unchanged, as it does without
    a line. *)
Theorem setCursorByLocation_first_match (filePath : option string)
    (line : option Z) (rt : ReplayRuntime) :
  let rt' := setCursorByLocation normalize filePath line rt in
  match line with
  | None => rt' = rt
  | Some ln =>
      (exists f,
         rt' = set_cursor rt (cursor rt') /\
         at_index (frames rt) (cursor rt') = Some f /\
         at_location normalize filePath ln f /\
         forall j g, 0 <= j < cursor rt' -> at_index (frames rt) j = Some g ->
                     ~ at_location normalize filePath ln g) \/
      (rt' = rt /\
       forall g, In g (frames rt) -> ~ at_location normalize filePath ln g)
  end.
Proof.
  cbv zeta. unfold setCursorByLocation.
  destruct line as [ln|]; [|now destruct (frames rt)].
  destruct (frames rt) as [|f0 fs] eqn:Efr.
  - right. split; [reflexivity | intros g []].
  - rewrite <- Efr. clear Efr f0 fs.
    match goal with
    | |- context [findIndex ?p (frames rt)] =>
        destruct (findIndex_least p (frames rt))
          as [[E Hall] | (x & H0 & Hx & Hp & Hmin)]
    end.
    + rewrite E. simpl. right. split; [reflexivity|].
      intros g Hg Hat. apply location_test_spec in Hat.
      specialize (Hall g Hg). cbv zeta in Hat. congruence.
    + match goal with
      | |- context [0 <=? ?i] =>
          replace (0 <=? i) with true by (symmetry; apply Z.leb_le; lia)
      end.
      left. exists x. simpl. repeat split.
      * exact Hx.
      * apply location_test_spec in Hp. apply Hp.
      * apply location_test_spec in Hp. apply Hp.
      * intros j g Hj Hg Hat. apply location_test_spec in Hat.
        specialize (Hmin j g Hj Hg). cbv zeta in Hat. congruence.
Qed.

(** X11. On a non-empty frame list, [currentFrameIndex] always
    designates a frame: the cursor itself while the replay is running,
    the crash-site frame (last index) once it is terminated; so the
    current snapshot after termination is the one of the crash site. *)
Theorem currentFrameIndex_designates_frame (rt : ReplayRuntime) :
  frames rt <> [] ->
  0 <= cursor rt <= frameCount rt ->
  (exists f, at_index (frames rt) (currentFrameIndex rt) = Some f /\
             getCurrentSnapshotId rt = f_snapshotId f) /\
  (isTerminated rt = false -> currentFrameIndex rt = cursor rt) /\
  (isTerminated rt = true -> currentFrameIndex rt = frameCount rt - 1).
Proof.
  intros Hne Hc.
  assert (Hlen : 0 < frameCount rt).
  { unfold frameCount. destruct (frames rt); [congruence | simpl; lia]. }
  assert (Hi : 0 <= currentFrameIndex rt < frameCount rt)
    by (unfold currentFrameIndex; lia).
  split; [|split].
  - unfold getCurrentSnapshotId.
    destruct (at_index (frames rt) (currentFrameIndex rt)) as [f|] eqn:E.
    + exists f. auto.
    + unfold at_index in E.
      replace (0 <=? currentFrameIndex rt) with true in E
        by (symmetry; apply Z.leb_le; lia).
      apply lookup_ge_None in E. unfold frameCount in Hi. lia.
  - unfold isTerminated. rewrite orb_false_iff, Z.leb_gt, Z.ltb_ge.
    unfold currentFrameIndex. lia.
  - unfold isTerminated. rewrite orb_true_iff, Z.leb_le, Z.ltb_lt.
    unfold currentFrameIndex. lia.
Qed.

End LocationFacts.

Lemma currentFrameIndex_designates_frame_witness :
  frames twoFileRuntime <> [] /\
  0 <= cursor twoFileRuntime <= frameCount twoFileRuntime /\
  (isTerminated twoFileRuntime = false ->
   currentFrameIndex twoFileRuntime = cursor twoFileRuntime).
Proof.
  assert (H1 : frames twoFileRuntime <> []) by discriminate.
  assert (H2 : 0 <= cursor twoFileRuntime <= frameCount twoFileRuntime)
    by (vm_compute; split; discriminate).
  split; [exact H1|]. split; [exact H2|].
  apply (currentFrameIndex_designates_frame twoFileRuntime H1 H2).
Defined.

(** ** Permanence of the cache and of the frames *)

Section PermanenceFacts.

Variable normalize : string -> string.
Variable jsNumber : string -> float.

Lemma ask_keeps_cached ds q snapshotId rt log id bundle :
  variablesCache rt !! id = Some bundle ->
  exists answer rt' log',
    run ds (ask jsNumber q snapshotId rt) log = (Value (answer, rt'), log') /\
    variablesCache rt' !! id = Some bundle.
Proof.
  intros Hc. destruct (truthy snapshotId) eqn:Et.
  - apply truthy_Some in Et. destruct Et as (id0 & -> & Hne).
    destruct (variablesCache rt !! id0) as [b0|] eqn:E0.
    + rewrite (run_ask_hit jsNumber ds q id0 rt b0 log Hne E0). eauto.
    + rewrite (run_ask_miss jsNumber ds q id0 rt log Hne E0).
      eexists _, _, _. split; [reflexivity|]. simpl.
      rewrite lookup_insert_ne by congruence. exact Hc.
  - rewrite (run_ask_falsy jsNumber ds q snapshotId rt log Et). eauto.
Qed.

(** X12. As long as every variable query is awaited before the next
    operation is issued, so that no two loads overlap, a bundle in the
    cache is never evicted or replaced: whatever queries (for any
    snapshot) and navigation or breakpoint operations follow one after
    the other, the cache still holds the same bundle for that
    identifier. *)
Theorem cached_bundle_is_permanent (ds : DataSource)
    (acts : list RuntimeAction) (rt : ReplayRuntime) (log : list Call)
    (id : string) (bundle : SnapshotCaptures) :
  variablesCache rt !! id = Some bundle ->
  exists answers rt' log',
    run ds (perform normalize jsNumber acts rt) log
    = (Value (answers, rt'), log') /\
    variablesCache rt' !! id = Some bundle.
Proof.
  revert rt log. induction acts as [|[q snapshotId | op] rest IH];
    intros rt log Hc; simpl.
  - eauto.
  - destruct (ask_keeps_cached ds q snapshotId rt log id bundle Hc)
      as (answer & rt1 & log1 & Hrun & Hc1).
    destruct (IH rt1 log1 Hc1) as (answers & rt2 & log2 & Hrun2 & Hc2).
    unfold mbind, Prog_bind. rewrite run_bind, Hrun, run_bind, Hrun2.
    simpl. eauto.
  - apply IH. rewrite (applyOp_variablesCache normalize). exact Hc.
Qed.

(** X13. For queries awaited one after the other, a failed load is
    final: when the loader rejects the first query for a snapshot, the
    empty bundle is cached, every later query for that snapshot is
    answered with the empty map and the loader is not called again. *)
Theorem rejected_load_is_not_retried (ds : DataSource) (q : VariableQuery)
    (later : list VariableQuery) (id : string) (rt : ReplayRuntime)
    (log : list Call) (message : option string) :
  id <> "" ->
  variablesCache rt !! id = None ->
  loadVariables ds log id = Rejected message ->
  run ds (askAll jsNumber (q :: later) (Some id) rt) log
  = (Value (map (fun _ => []) (q :: later), cache_put id emptyCaptures rt),
     (log ++ [CallVariables id])%list).
Proof.
  intros Hid Hmiss Hrej.
  rewrite (run_askAll_miss jsNumber ds q later id rt log Hid Hmiss).
  cbv zeta. rewrite Hrej. simpl. do 3 f_equal.
  f_equal; [now destruct q|].
  apply map_ext. intros q'. now destruct q'.
Qed.

Lemma applyOp_frames rt op :
  frames (applyOp normalize rt op) = frames rt.
Proof.
  destruct op; simpl.
  - unfold stepOnce. destruct (_ <=? _); simpl; [reflexivity|].
    destruct (hitsBreakpoint _ _ _); reflexivity.
  - unfold continueExecution. destruct (_ =? _); reflexivity.
  - unfold setCursorByFrameId. destruct (_ <=? _); reflexivity.
  - unfold setCursorByLocation. destruct (frames rt) eqn:E; [exact E|].
    destruct line; [|exact E]. destruct (_ <=? _); [|exact E].
    simpl. exact E.
  - apply setBreakpoints_frames.
Qed.

Lemma applyOp_breakpoints rt op :
  (forall sourcePath lines, op <> OpSetBreakpoints sourcePath lines) ->
  breakpoints (applyOp normalize rt op) = breakpoints rt.
Proof.
  intros Hop. destruct op; simpl.
  - unfold stepOnce. destruct (_ <=? _); simpl; [reflexivity|].
    destruct (hitsBreakpoint _ _ _); reflexivity.
  - unfold continueExecution. destruct (_ =? _); reflexivity.
  - unfold setCursorByFrameId. destruct (_ <=? _); reflexivity.
  - unfold setCursorByLocation. destruct (frames rt); [reflexivity|].
    destruct line; [|reflexivity]. destruct (_ <=? _); reflexivity.
  - now specialize (Hop sourcePath lines).
Qed.

(** X14. Frames are fixed once indexed: no runtime operation changes the
    frame list, only [setBreakpoints] changes the breakpoint store, and
    in a session only a launch replaces the frames of the runtime. *)
Theorem frames_are_immutable (ds : DataSource) :
  (forall rt ops,
     frames (fold_left (applyOp normalize) ops rt) = frames rt) /\
  (forall rt op,
     (forall sourcePath lines, op <> OpSetBreakpoints sourcePath lines) ->
     breakpoints (applyOp normalize rt op) = breakpoints rt) /\
  (forall (r : Request) (s : Session) (log : list Call),
     (forall args, r <> LaunchRequest args) ->
     exists s' log',
       run ds (handleRequest normalize r s) log = (Value s', log') /\
       frames <$> runtime s' = frames <$> runtime s).
Proof.
  split; [|split].
  - intros rt ops. revert rt. induction ops as [|op ops IH]; intros rt; simpl.
    + reflexivity.
    + rewrite IH. apply applyOp_frames.
  - apply applyOp_breakpoints.
  - intros r s log Hr.
    destruct r; simpl;
      try (eexists _, _; split; [reflexivity|]; reflexivity).
    + now specialize (Hr args).
    + eexists _, _. split; [reflexivity|].
      destruct (runtime s) eqn:E; simpl; rewrite E; reflexivity.
    + eexists _, _. split; [reflexivity|]. unfold continueRequest.
      destruct (runtime s) as [rt|] eqn:E.
      * pose proof (applyOp_frames rt OpContinueExecution) as Hf.
        simpl in Hf.
        destruct (continueExecution normalize rt) as [res rt1].
        unfold postStep. simpl in Hf.
        destruct (terminated res); simpl.
        -- unfold emitTerminationOutput.
           destruct (terminationMessageSent _); simpl; now rewrite Hf.
        -- now rewrite Hf.
      * unfold postStep. simpl. unfold emitTerminationOutput. simpl.
        destruct (terminationMessageSent s); reflexivity.
    + eexists _, _. split; [reflexivity|]. unfold performStepOver.
      destruct (runtime s) as [rt|] eqn:E.
      * pose proof (applyOp_frames rt (OpStepOnce (Some "next"))) as Hf.
        simpl in Hf.
        destruct (stepOnce normalize (Some "next") rt) as [res rt1].
        unfold postStep. simpl in Hf.
        destruct (terminated res); simpl.
        -- unfold emitTerminationOutput.
           destruct (terminationMessageSent _); simpl; now rewrite Hf.
        -- now rewrite Hf.
      * unfold postStep. simpl. unfold emitTerminationOutput. simpl.
        destruct (terminationMessageSent s); reflexivity.
    + eexists _, _. split; [reflexivity|]. unfold performNoopStep.
      destruct (runtimeTerminated s); reflexivity.
    + eexists _, _. split; [reflexivity|]. unfold performNoopStep.
      destruct (runtimeTerminated s); reflexivity.
    + eexists _, _. split; [reflexivity|]. unfold restartFrameRequest.
      destruct frameId as [id|]; simpl; [|reflexivity].
      destruct (runtime s) as [rt|]; simpl; [|reflexivity].
      f_equal. apply (applyOp_frames rt (OpSetCursorByFrameId id)).
    + eexists _, _. split; [reflexivity|]. unfold terminateRequest.
      destruct (runtimeTerminated _); simpl; [|reflexivity].
      unfold emitTerminationOutput.
      destruct (terminationMessageSent _); reflexivity.
    + eexists _, _. split; [reflexivity|]. unfold setBreakPointsRequest.
      simpl. destruct (runtime s) as [rt|]; simpl; [|reflexivity].
      f_equal. apply setBreakpoints_frames.
    + eexists _, _. split; [reflexivity|].
      destruct (runtime s) eqn:E; simpl; rewrite E; reflexivity.
Qed.

End PermanenceFacts.

Lemma cached_bundle_is_permanent_witness :
  variablesCache
    (cache_put "s2" emptyCaptures (newRuntime posix_normalize crashTrace))
    !! "s2" = Some emptyCaptures /\
  exists answers rt' log',
    run failingSource
        (perform posix_normalize sampleNumber
           [ActOp (OpStepOnce None); ActQuery QueryLocals (Some "s1")]
           (cache_put "s2" emptyCaptures
              (newRuntime posix_normalize crashTrace))) []
    = (Value (answers, rt'), log') /\
    variablesCache rt' !! "s2" = Some emptyCaptures.
Proof.
  assert (H : variablesCache
                (cache_put "s2" emptyCaptures
                   (newRuntime posix_normalize crashTrace))
                !! "s2" = Some emptyCaptures) by reflexivity.
  split; [exact H|].
  apply (cached_bundle_is_permanent posix_normalize sampleNumber failingSource
           _ _ [] "s2" emptyCaptures H).
Defined.

Lemma rejected_load_is_not_retried_witness :
  "s2" <> "" /\
  variablesCache (newRuntime posix_normalize crashTrace) !! "s2" = None /\
  loadVariables failingSource [] "s2" = Rejected (Some "offline") /\
  run failingSource
      (askAll sampleNumber [QueryLocals; QueryArguments] (Some "s2")
              (newRuntime posix_normalize crashTrace)) []
  = (Value ([[]; []],
            cache_put "s2" emptyCaptures (newRuntime posix_normalize crashTrace)),
     [CallVariables "s2"]).
Proof.
  assert (H1 : "s2" <> "") by discriminate.
  split; [exact H1|]. split; [reflexivity|]. split; [reflexivity|].
  apply (rejected_load_is_not_retried sampleNumber failingSource QueryLocals
           [QueryArguments] "s2" (newRuntime posix_normalize crashTrace) []
           (Some "offline") H1 eq_refl eq_refl).
Defined.

(** ** Messages of a session *)

(** What a request adds to the messages: exactly one response, and
    stops with a known reason only. *)
Lemma reply_shape_intro (l base new : list Message) :
  l = (base ++ new)%list ->
  Forall stop_reason_ok new ->
  length (List.filter is_response new) = 1%nat ->
  exists new,
    l = (base ++ new)%list /\ Forall stop_reason_ok new /\
    length (List.filter is_response new) = 1%nat.
Proof. intros H1 H2 H3. exists new. auto. Qed.

Ltac reply_shape :=
  eapply reply_shape_intro;
  [ simpl; rewrite <- ?app_assoc; simpl; reflexivity
  | repeat (apply List.Forall_cons; [simpl; auto 10|]); apply List.Forall_nil
  | reflexivity ].

Section ReplyFacts.

Variable normalize : string -> string.

Lemma stepOnce_next_reason (rt : ReplayRuntime) :
  let result := fst (stepOnce normalize (Some "next") rt) in
  terminated result = true \/
  (terminated result = false /\
   (reason result = Some "breakpoint" \/ reason result = Some "next")).
Proof.
  cbv zeta. unfold stepOnce. destruct (_ <=? _); simpl; [now left|].
  destruct (hitsBreakpoint _ _ _); simpl; right; auto.
Qed.

Lemma continueExecution_reason (rt : ReplayRuntime) :
  let result := fst (continueExecution normalize rt) in
  terminated result = true \/
  (terminated result = false /\ reason result = Some "breakpoint").
Proof.
  cbv zeta. unfold continueExecution. destruct (_ =? _); simpl; auto.
Qed.

Lemma postStep_reply (command : string) (result : StepResult)
    (rt' : option ReplayRuntime) (s : Session) :
  terminated result = true \/
  (terminated result = false /\
   (reason result = Some "breakpoint" \/ reason result = Some "next")) ->
  exists new,
    sent (postStep result (send (Response command) (set_runtime rt' s)))
    = (sent s ++ new)%list /\
    Forall stop_reason_ok new /\
    length (List.filter is_response new) = 1%nat.
Proof.
  intros [Ht | (Ht & [Hr | Hr])]; unfold postStep; rewrite Ht.
  - unfold emitTerminationOutput.
    destruct (terminationMessageSent _); reply_shape.
  - rewrite Hr. reply_shape.
  - rewrite Hr. reply_shape.
Qed.

Lemma launched_reply args stackTrace s :
  exists new,
    sent (launched normalize args stackTrace s) = (sent s ++ new)%list /\
    Forall stop_reason_ok new /\
    length (List.filter is_response new) = 1%nat.
Proof.
  unfold launched.
  set (rt0 := fold_left _ (pendingBreakpoints s) _).
  set (summary := orTruthy (la_errorTitle args) _).
  unfold stopWithReason, runtimeTerminated, syncCursorToHint.
  destruct (la_trace args); simpl;
    destruct (la_startLine args); simpl;
    match goal with
    | |- context [isTerminated ?r] => destruct (isTerminated r)
    end;
    unfold emitTerminationOutput; simpl;
    destruct (terminationMessageSent s); reply_shape.
Qed.

Lemma handleRequest_reply ds r s log :
  exists s' log',
    run ds (handleRequest normalize r s) log = (Value s', log') /\
    exists new,
      sent s' = (sent s ++ new)%list /\ Forall stop_reason_ok new /\
      length (List.filter is_response new) = 1%nat.
Proof.
  destruct r; simpl;
    try (eexists _, _; split; [reflexivity|]; reply_shape).
  - destruct (loadStackTrace ds log args) as [stackTrace | message];
      eexists _, _; (split; [reflexivity|]).
    + apply launched_reply.
    + reply_shape.
  - eexists _, _. split; [reflexivity|]. destruct (runtime s); reply_shape.
  - eexists _, _. split; [reflexivity|]. unfold continueRequest.
    destruct (runtime s) as [rt|].
    + pose proof (continueExecution_reason rt) as Hr. cbv zeta in Hr.
      destruct (continueExecution normalize rt) as [result rt1].
      apply postStep_reply. simpl in Hr. tauto.
    + apply postStep_reply. now left.
  - eexists _, _. split; [reflexivity|]. unfold performStepOver.
    destruct (runtime s) as [rt|].
    + pose proof (stepOnce_next_reason rt) as Hr. cbv zeta in Hr.
      destruct (stepOnce normalize (Some "next") rt) as [result rt1].
      apply postStep_reply. exact Hr.
    + apply postStep_reply. now left.
  - eexists _, _. split; [reflexivity|]. unfold performNoopStep.
    destruct (runtimeTerminated s); reply_shape.
  - eexists _, _. split; [reflexivity|]. unfold performNoopStep.
    destruct (runtimeTerminated s); reply_shape.
  - eexists _, _. split; [reflexivity|]. unfold restartFrameRequest.
    destruct frameId; reply_shape.
  - eexists _, _. split; [reflexivity|]. unfold terminateRequest.
    destruct (runtimeTerminated _); [|reply_shape].
    unfold emitTerminationOutput.
    destruct (terminationMessageSent _); reply_shape.
  - eexists _, _. split; [reflexivity|]. destruct (runtime s); reply_shape.
Qed.

(** X15. Whatever requests a session serves, every stop it reports
    carries one of the reasons [entry], [step], [breakpoint] and
    [restart]; in particular the reason [next] passed to [stepOnce] is
    always reported as [step]. *)
Theorem stops_have_known_reasons (ds : DataSource) (rs : list Request) :
  exists s log,
    run ds (serve normalize rs newSession) [] = (Value s, log) /\
    Forall stop_reason_ok (sent s).
Proof.
  assert (H : forall rs s0 log0,
             Forall stop_reason_ok (sent s0) ->
             exists s log,
               run ds (serve normalize rs s0) log0 = (Value s, log) /\
               Forall stop_reason_ok (sent s)).
  { clear rs. induction rs as [|r rs IH]; intros s0 log0 H0; simpl.
    - eauto.
    - destruct (handleRequest_reply ds r s0 log0)
        as (s1 & log1 & Hrun & new & Hsent & Hok & _).
      destruct (IH s1 log1) as (s2 & log2 & Hrun2 & Hok2).
      { rewrite Hsent. apply Forall_app. auto. }
      unfold mbind, Prog_bind. rewrite run_bind, Hrun. eauto. }
  apply H. constructor.
Qed.

(** X16. Every request whose handler settles without awaiting a frame
    filter or variables is answered exactly once: [k] such requests
    leave exactly [k] responses, successful or not, among the
    messages. *)
Theorem one_response_per_request (ds : DataSource) (rs : list Request) :
  forallb settles_alone rs = true ->
  exists s log,
    run ds (serve normalize rs newSession) [] = (Value s, log) /\
    length (List.filter is_response (sent s)) = length rs.
Proof.
  intros _.
  assert (H : forall rs s0 log0,
             exists s log,
               run ds (serve normalize rs s0) log0 = (Value s, log) /\
               length (List.filter is_response (sent s))
               = (length (List.filter is_response (sent s0)) + length rs)%nat).
  { clear rs. induction rs as [|r rs IH]; intros s0 log0; simpl.
    - eexists _, _. split; [reflexivity | lia].
    - destruct (handleRequest_reply ds r s0 log0)
        as (s1 & log1 & Hrun & new & Hsent & _ & Hone).
      destruct (IH s1 log1) as (s2 & log2 & Hrun2 & Hlen).
      unfold mbind, Prog_bind. rewrite run_bind, Hrun.
      exists s2, log2. split; [exact Hrun2|].
      rewrite Hlen, Hsent, List.filter_app, length_app, Hone. lia. }
  destruct (H rs newSession []) as (s & log & Hrun & Hlen).
  exists s, log. split; [exact Hrun | exact Hlen].
Qed.

End ReplyFacts.

Lemma one_response_per_request_witness :
  exists s log,
    run failingSource
        (serve posix_normalize
               [InitializeRequest; LaunchRequest plainLaunch; NextRequest;
                TerminateRequest] newSession) []
    = (Value s, log) /\
    length (List.filter is_response (sent s)) = 4%nat.
Proof.
  apply (one_response_per_request posix_normalize failingSource
           [InitializeRequest; LaunchRequest plainLaunch; NextRequest;
            TerminateRequest]).
  reflexivity.
Defined.

(** ** Breakpoints submitted before the launch *)

Section PendingFacts.

Variable normalize : string -> string.

Lemma pending_breakpoints_keep (key : string) (lines : list Z)
    (pending : list (option string * list Z)) (rt : ReplayRuntime) :
  (forall q l, In (Some q, l) pending -> q <> "" -> normalize q = key ->
               l = lines) ->
  breakpoints rt !! key = Some (set_of_lines lines) ->
  breakpoints
    (fold_left (fun rt '(sourcePath, lines) =>
                  snd (setBreakpoints normalize sourcePath lines rt))
               pending rt) !! key
  = Some (set_of_lines lines).
Proof.
  revert rt. induction pending as [|[k l] pending IH]; intros rt Hsame Hrt.
  - exact Hrt.
  - simpl. apply IH.
    + intros q l' Hin. apply Hsame. now right.
    + rewrite setBreakpoints_store.
      destruct (truthy k) eqn:Ek; simpl; [|exact Hrt].
      case_bool_decide as E; [|exact Hrt].
      apply truthy_Some in Ek as (q & -> & Hq). simpl in E.
      rewrite (Hsame q l); auto. now left.
Qed.

Lemma pending_breakpoints_install (p : string) (lines : list Z)
    (pending : list (option string * list Z)) (rt : ReplayRuntime) :
  In (Some p, lines) pending -> p <> "" ->
  (forall q l, In (Some q, l) pending -> q <> "" ->
               normalize q = normalize p -> l = lines) ->
  breakpoints
    (fold_left (fun rt '(sourcePath, lines) =>
                  snd (setBreakpoints normalize sourcePath lines rt))
               pending rt) !! normalize p
  = Some (set_of_lines lines).
Proof.
  revert rt. induction pending as [|[k l] pending IH]; intros rt Hin Hp Hsame.
  - destruct Hin.
  - simpl.
    assert (Hcase : In (Some p, lines) pending \/ (k = Some p /\ l = lines)).
    { destruct Hin as [E | Hin]; [right; now inversion E | now left]. }
    destruct Hcase as [Htail | [-> ->]].
    + apply IH; auto. intros q l' Hq. apply Hsame. now right.
    + apply pending_breakpoints_keep.
      * intros q l' Hq. apply Hsame. now right.
      * rewrite setBreakpoints_store.
        assert (Et : truthy (Some p) = true).
        { apply truthy_Some. eauto. }
        rewrite Et. simpl. now rewrite bool_decide_eq_true_2.
Qed.

Lemma launched_runtime args stackTrace s :
  exists rt,
    runtime (launched normalize args stackTrace s) = Some rt /\
    breakpoints rt
    = breakpoints
        (fold_left (fun rt '(sourcePath, lines) =>
                      snd (setBreakpoints normalize sourcePath lines rt))
                   (pendingBreakpoints s) (newRuntime normalize stackTrace)).
Proof.
  unfold launched.
  set (rt0 := fold_left _ (pendingBreakpoints s) _).
  set (summary := orTruthy (la_errorTitle args) _).
  unfold stopWithReason, runtimeTerminated, syncCursorToHint.
  assert (Hloc : forall sp line,
             breakpoints (setCursorByLocation normalize sp line rt0)
             = breakpoints rt0).
  { intros sp line. unfold setCursorByLocation.
    destruct (frames rt0); [reflexivity|].
    destruct line; [|reflexivity]. destruct (_ <=? _); reflexivity. }
  destruct (la_trace args); simpl;
    destruct (la_startLine args); simpl;
    match goal with
    | |- context [isTerminated ?r] => destruct (isTerminated r)
    end;
    unfold emitTerminationOutput; simpl;
    destruct (terminationMessageSent s); simpl;
    eexists; (split; [reflexivity|]); auto.
Qed.

(** X17. Breakpoints submitted before the launch are installed by the
    launch: a non-empty path pending with some lines is found in the
    runtime's store afterwards, under its normalized form and with the
    set of these lines, provided the pending entries whose path
    normalizes alike carry the same lines. *)
Theorem pending_breakpoints_installed_at_launch
    (args : LaunchArgs) (stackTrace : StackTrace) (s : Session)
    (p : string) (lines : list Z) :
  In (Some p, lines) (pendingBreakpoints s) ->
  p <> "" ->
  (forall q l, In (Some q, l) (pendingBreakpoints s) -> q <> "" ->
               normalize q = normalize p -> l = lines) ->
  exists rt,
    runtime (launched normalize args stackTrace s) = Some rt /\
    breakpoints rt !! normalize p = Some (set_of_lines lines).
Proof.
  intros Hin Hp Hsame.
  destruct (launched_runtime args stackTrace s) as (rt & Hrt & Hb).
  exists rt. split; [exact Hrt|].
  rewrite Hb. now apply pending_breakpoints_install.
Qed.

End PendingFacts.

Lemma pending_breakpoints_installed_at_launch_witness :
  exists rt,
    runtime (launched posix_normalize plainLaunch twoFileTrace
               (setBreakPointsRequest posix_normalize (Some "/app/./a.js")
                  (Some [7; 3; 7]) newSession))
    = Some rt /\
    breakpoints rt !! posix_normalize "/app/./a.js"
    = Some (set_of_lines [7; 3; 7]).
Proof.
  apply (pending_breakpoints_installed_at_launch posix_normalize plainLaunch
           twoFileTrace
           (setBreakPointsRequest posix_normalize (Some "/app/./a.js")
              (Some [7; 3; 7]) newSession)
           "/app/./a.js" [7; 3; 7]).
  - simpl. left. reflexivity.
  - discriminate.
  - simpl. intros q l [H | []] _ _. now inversion H.
Defined.

(** ** A launch whose data fails to load *)

Section FailedLaunch.

Variable normalize : string -> string.

(** X18. When the stack trace fails to load, the launch is answered by
    the error response 1001 carrying the loader's message, no runtime
    is installed and no stop is reported; the [next] that follows finds
    no runtime and finishes the session with the summary line and the
    terminated event. *)
Theorem failed_launch_then_next (ds : DataSource) (args : LaunchArgs)
    (message : option string) (s : Session) (log : list Call) :
  runtime s = None ->
  terminationMessageSent s = false ->
  loadStackTrace ds log args = Rejected message ->
  exists s',
    run ds (serve normalize [LaunchRequest args; NextRequest] s) log
    = (Value s', (log ++ [CallStackTrace args])%list) /\
    runtime s' = None /\
    sent s'
    = (sent s ++
       [ErrorResponse 1001
          ("Failed to load replay data: " +:+ default "unknown error" message);
        Response "next";
        OutputEvent (summaryLine (errorSummary s)) (Some "console");
        TerminatedEvent])%list.
Proof.
  intros Hrt Hflag Hload. eexists. simpl. rewrite Hload. simpl.
  unfold performStepOver, postStep, emitTerminationOutput. simpl.
  rewrite Hrt. simpl. rewrite Hflag. simpl.
  split; [reflexivity|]. split; [reflexivity|].
  simpl. rewrite <- !app_assoc. reflexivity.
Qed.

End FailedLaunch.

Lemma failed_launch_then_next_witness :
  exists s',
    run failingSource
        (serve posix_normalize [LaunchRequest plainLaunch; NextRequest]
               newSession) []
    = (Value s', [CallStackTrace plainLaunch]) /\
    runtime s' = None /\
    sent s'
    = [ErrorResponse 1001 "Failed to load replay data: offline";
       Response "next";
       OutputEvent (summaryLine None) (Some "console");
       TerminatedEvent].
Proof.
  apply (failed_launch_then_next posix_normalize failingSource plainLaunch
           (Some "offline") newSession []); reflexivity.
Defined.

(** ** The reported stack *)

Lemma js_slice_window {A} (l : list A) (first count : Z) :
  0 <= first -> 0 <= count ->
  js_slice l first (first + count)
  = take (Z.to_nat count) (drop (Z.to_nat first) l).
Proof.
  intros Hf Hc. unfold js_slice, slice_index.
  destruct (first <? 0) eqn:E1; [lia|].
  destruct (first + count <? 0) eqn:E2; [lia|].
  set (len := Z.of_nat (length l)).
  destruct (Z.le_gt_cases len first) as [Hge | Hlt].
  - rewrite !Z.min_r by lia.
    rewrite (drop_ge l (Z.to_nat len)) by (unfold len; lia).
    rewrite (drop_ge l (Z.to_nat first)) by (unfold len in Hge; lia).
    now rewrite !take_nil.
  - rewrite (Z.min_l first) by lia.
    destruct (Z.le_gt_cases (first + count) len) as [Hin | Hout].
    + rewrite Z.min_l by lia. f_equal. lia.
    + rewrite Z.min_r by lia.
      rewrite !take_ge; [reflexivity | |];
        rewrite length_drop; unfold len in *; lia.
Qed.

Lemma filterFrames_nonempty
    (shouldSkipFrame : option (option string -> bool))
    (frames : list ReplayFrame) :
  frames <> [] -> filterFrames shouldSkipFrame frames <> [].
Proof.
  intros Hne. unfold filterFrames. destruct shouldSkipFrame; [|exact Hne].
  destruct (List.filter _ frames); [exact Hne | discriminate].
Qed.

(** X19. The frame filter never empties a stack: of a non-empty list
    of frames it keeps a non-empty part, in the order given, and a
    frame that the predicate asks to skip is kept only when the
    predicate asks to skip every frame, in which case all are kept. *)
Theorem filterFrames_never_empties
    (shouldSkipFrame : option (option string -> bool))
    (frames : list ReplayFrame) :
  frames <> [] ->
  let kept := filterFrames shouldSkipFrame frames in
  kept <> [] /\
  sublist kept frames /\
  (forall skip frame,
     shouldSkipFrame = Some skip -> In frame kept ->
     skip (f_file frame) = true ->
     kept = frames /\ forallb (fun f => skip (f_file f)) frames = true).
Proof.
  intros Hne. cbv zeta. unfold filterFrames.
  destruct shouldSkipFrame as [skip|].
  - destruct (List.filter _ frames) as [|k ks] eqn:Ef.
    + split; [exact Hne|]. split; [reflexivity|].
      intros skip' frame [= <-] _ _. split; [reflexivity|].
      apply forallb_forall. intros f Hf.
      destruct (skip (f_file f)) eqn:Es; [reflexivity|].
      assert (Hin : In f (List.filter (fun frame => negb (skip (f_file frame)))
                                      frames)).
      { apply filter_In. split; [exact Hf | now rewrite Es]. }
      rewrite Ef in Hin. destruct Hin.
    + split; [discriminate|]. split.
      * rewrite <- Ef. clear. induction frames as [|f fs IH]; simpl.
        -- constructor.
        -- destruct (negb _); now constructor.
      * intros skip' frame [= <-] Hin Hs. rewrite <- Ef in Hin.
        apply filter_In in Hin as [_ Hk]. now rewrite Hs in Hk.
  - split; [exact Hne|]. split; [reflexivity|]. discriminate.
Qed.

Lemma filterFrames_never_empties_witness :
  let kept :=
    filterFrames (Some (fun file => bool_decide (file = Some "/a.js")))
                 (frames twoFileRuntime) in
  kept <> [] /\
  sublist kept (frames twoFileRuntime) /\
  (forall skip frame,
     Some (fun file => bool_decide (file = Some "/a.js")) = Some skip ->
     In frame kept ->
     skip (f_file frame) = true ->
     kept = frames twoFileRuntime /\
     forallb (fun f => skip (f_file f)) (frames twoFileRuntime) = true).
Proof.
  apply (filterFrames_never_empties
           (Some (fun file => bool_decide (file = Some "/a.js")))
           (frames twoFileRuntime)).
  discriminate.
Defined.

(** X20. While the replay is live, a stack request with no bounds
    and no filter reports the frame under the cursor on top, followed
    by the frames before it from the nearest to the farthest, the
    cursor's index plus one frames in all: the frame reported at
    position [k] is the one at internal index [cursor - k]. With any
    filter the reported stack is not empty. *)
Theorem live_stack_starts_at_cursor (s : Session) (rt : ReplayRuntime) :
  runtime s = Some rt ->
  isTerminated rt = false ->
  (exists top below,
     stackTraceFrames None None None s = top :: below /\
     at_index (frames rt) (cursor rt) = Some top /\
     below = rev (take (Z.to_nat (cursor rt)) (frames rt)) /\
     Z.of_nat (length (top :: below)) = cursor rt + 1) /\
  (forall k, 0 <= k <= cursor rt ->
     at_index (stackTraceFrames None None None s) k
     = at_index (frames rt) (cursor rt - k)) /\
  (forall shouldSkipFrame, stackTraceFrames shouldSkipFrame None None s <> []).
Proof.
  intros Hrt Hlive. unfold isTerminated in Hlive.
  apply orb_false_iff in Hlive as [H1 H2].
  apply Z.leb_gt in H1. apply Z.ltb_ge in H2.
  assert (Hslice : js_slice (getOrderedFrames rt) 0 (0 + totalFrames rt)
                   = rev (take (Z.to_nat (cursor rt + 1)) (frames rt))).
  { unfold totalFrames. rewrite js_slice_window by (unfold frameCount; lia).
    simpl. unfold getOrderedFrames.
    destruct (frames rt) as [|f fs] eqn:Ef.
    { unfold frameCount in H1. rewrite Ef in H1. simpl in H1. lia. }
    rewrite <- Ef.
    destruct (cursor rt <? 0) eqn:Ec; [lia|]. unfold slice0.
    apply take_ge. rewrite length_rev, length_take.
    unfold frameCount in *. lia. }
  assert (Hat : exists top, at_index (frames rt) (cursor rt) = Some top).
  { unfold at_index. destruct (0 <=? cursor rt) eqn:E; [|lia].
    apply lookup_lt_is_Some_2. unfold frameCount in H1. lia. }
  destruct Hat as (top & Htop).
  assert (Htake : take (Z.to_nat (cursor rt + 1)) (frames rt)
                  = (take (Z.to_nat (cursor rt)) (frames rt) ++ [top])%list).
  { unfold at_index in Htop. destruct (0 <=? cursor rt); [|discriminate].
    replace (Z.to_nat (cursor rt + 1)) with (S (Z.to_nat (cursor rt))) by lia.
    now apply take_S_r. }
  assert (Hraw : forall shouldSkipFrame,
             stackTraceFrames shouldSkipFrame None None s
             = filterFrames shouldSkipFrame
                 (rev (take (Z.to_nat (cursor rt + 1)) (frames rt)))).
  { intros k. unfold stackTraceFrames. rewrite Hrt. unfold isTerminated.
    destruct (frameCount rt <=? cursor rt) eqn:E1; [lia|].
    destruct (cursor rt <? 0) eqn:E2; [lia|]. simpl.
    now rewrite Hslice. }
  assert (Hall : forall shouldSkipFrame,
             stackTraceFrames shouldSkipFrame None None s
             = filterFrames shouldSkipFrame
                 (top :: rev (take (Z.to_nat (cursor rt)) (frames rt)))).
  { intros k. rewrite Hraw, Htake, rev_app_distr. reflexivity. }
  split; [|split].
  - exists top, (rev (take (Z.to_nat (cursor rt)) (frames rt))).
    split; [apply (Hall None)|]. split; [exact Htop|].
    split; [reflexivity|].
    simpl. rewrite length_rev, length_take. unfold frameCount in H1. lia.
  - intros k Hk. rewrite (Hraw None). cbn [filterFrames].
    assert (Hlen : Z.of_nat (length (take (Z.to_nat (cursor rt + 1))
                                          (frames rt))) = cursor rt + 1).
    { rewrite length_take. unfold frameCount in H1. lia. }
    rewrite at_index_rev by lia. rewrite Hlen.
    replace (cursor rt + 1 - 1 - k) with (cursor rt - k) by lia.
    unfold at_index. destruct (0 <=? cursor rt - k); [|reflexivity].
    apply lookup_take_lt. lia.
  - intros k. rewrite Hall.
    apply filterFrames_nonempty. discriminate.
Qed.

Lemma live_stack_starts_at_cursor_witness :
  let rt := newRuntime posix_normalize crashTrace in
  let s := set_runtime (Some rt) newSession in
  (exists top below,
     stackTraceFrames None None None s = top :: below /\
     at_index (frames rt) (cursor rt) = Some top /\
     below = rev (take (Z.to_nat (cursor rt)) (frames rt)) /\
     Z.of_nat (length (top :: below)) = cursor rt + 1) /\
  (forall k, 0 <= k <= cursor rt ->
     at_index (stackTraceFrames None None None s) k
     = at_index (frames rt) (cursor rt - k)) /\
  (forall shouldSkipFrame, stackTraceFrames shouldSkipFrame None None s <> []).
Proof.
  apply (live_stack_starts_at_cursor
           (set_runtime (Some (newRuntime posix_normalize crashTrace))
                        newSession)
           (newRuntime posix_normalize crashTrace)); reflexivity.
Defined.

(** X21. Consecutive pages of the reported stack tile it: without a
    filter, the frames reported from [start] for [n] levels followed by
    those reported from [start + n] for [m] levels are the frames
    reported from [start] for [n + m] levels, and a page holds at most
    the requested number of frames. *)
Theorem stack_pages_tile (s : Session) (start n m : Z) :
  0 <= start -> 0 <= n -> 0 <= m ->
  (stackTraceFrames None (Some start) (Some n) s ++
   stackTraceFrames None (Some (start + n)) (Some m) s)%list
  = stackTraceFrames None (Some start) (Some (n + m)) s /\
  Z.of_nat (length (stackTraceFrames None (Some start) (Some n) s)) <= n.
Proof.
  intros Hs Hn Hm. unfold stackTraceFrames.
  destruct (runtime s) as [rt|]; [|simpl; split; [reflexivity | lia]].
  destruct (isTerminated rt); [simpl; split; [reflexivity | lia]|].
  simpl. rewrite !js_slice_window by lia. split.
  - replace (Z.to_nat (start + n)) with (Z.to_nat start + Z.to_nat n)%nat
      by lia.
    rewrite <- drop_drop, take_take_drop. f_equal. lia.
  - rewrite length_take. lia.
Qed.

Lemma stack_pages_tile_witness :
  (stackTraceFrames None (Some 0) (Some 1)
     (set_runtime (Some (newRuntime posix_normalize crashTrace)) newSession) ++
   stackTraceFrames None (Some (0 + 1)) (Some 2)
     (set_runtime (Some (newRuntime posix_normalize crashTrace)) newSession))%list
  = stackTraceFrames None (Some 0) (Some (1 + 2))
      (set_runtime (Some (newRuntime posix_normalize crashTrace)) newSession) /\
  Z.of_nat (length (stackTraceFrames None (Some 0) (Some 1)
     (set_runtime (Some (newRuntime posix_normalize crashTrace)) newSession)))
  <= 1.
Proof.
  apply (stack_pages_tile
           (set_runtime (Some (newRuntime posix_normalize crashTrace))
                        newSession) 0 1 2); lia.
Defined.

(** ** Variables and their references *)

Lemma handles_get_app_l (handles extra : list VariableContainer) (h : Z)
    (c : VariableContainer) :
  handles_get handles h = Some c ->
  handles_get (handles ++ extra) h = Some c.
Proof.
  unfold handles_get, at_index. destruct (0 <=? _); [|discriminate].
  intros H. now apply lookup_app_l_Some.
Qed.

Lemma handles_get_created (value : VariableContainer)
    (handles : list VariableContainer) :
  handles_get (handles ++ [value]) (START_HANDLE + Z.of_nat (length handles))
  = Some value.
Proof.
  unfold handles_get, at_index.
  replace (START_HANDLE + Z.of_nat (length handles) - START_HANDLE)
    with (Z.of_nat (length handles)) by lia.
  rewrite (proj2 (Z.leb_le 0 _)) by lia.
  rewrite Nat2Z.id. now apply list_lookup_middle.
Qed.

Lemma handles_get_unminted (handles : list VariableContainer) (h : Z) :
  h < START_HANDLE \/ START_HANDLE + Z.of_nat (length handles) <= h ->
  handles_get handles h = None.
Proof.
  intros H. unfold handles_get, at_index.
  destruct (0 <=? _) eqn:E; [|reflexivity].
  apply lookup_ge_None. lia.
Qed.

Section VariableFacts.

Variable jsNumber : string -> float.
Variable jsNumberToString : float -> string.

Lemma convertValue_spec (name : string) (n : VariableNode)
    (handles : list VariableContainer) :
  let r := convertValue jsNumber jsNumberToString name (Some n) handles in
  dv_name (fst r) = name /\
  match default [] (node_fields n) with
  | [] => dv_variablesReference (fst r) = 0 /\ snd r = handles
  | fields =>
      dv_variablesReference (fst r)
      = START_HANDLE + Z.of_nat (length handles) /\
      snd r = (handles ++ [{| vc_kind := KObject; vc_snapshotId := None;
                              vc_fields := Some fields |}])%list
  end.
Proof.
  cbv zeta. unfold convertValue.
  destruct (default [] (node_fields n)) as [|e es]; simpl; auto.
Qed.

Lemma buildVariablesFromRecord_cons (name : string) (value : VariableNode)
    (rest : VariableMap) (handles : list VariableContainer) :
  buildVariablesFromRecord jsNumber jsNumberToString ((name, value) :: rest)
                           handles
  = let r1 := convertValue jsNumber jsNumberToString name (Some value) handles in
    let r2 := buildVariablesFromRecord jsNumber jsNumberToString rest (snd r1) in
    (fst r1 :: fst r2, snd r2).
Proof.
  cbn [buildVariablesFromRecord].
  destruct (convertValue _ _ _ _ _) as [variable handles1].
  cbn [fst snd]. now destruct (buildVariablesFromRecord _ _ _ _).
Qed.

Lemma buildVariablesFromRecord_spec (record : VariableMap)
    (handles : list VariableContainer) :
  let r := buildVariablesFromRecord jsNumber jsNumberToString record handles in
  dv_name <$> fst r = fst <$> record /\
  (exists extra, snd r = (handles ++ extra)%list) /\
  (forall (i : nat) v name node,
     fst r !! i = Some v -> record !! i = Some (name, node) ->
     match default [] (node_fields node) with
     | [] => dv_variablesReference v = 0
     | fields =>
         handles_get handles (dv_variablesReference v) = None /\
         handles_get (snd r) (dv_variablesReference v)
         = Some {| vc_kind := KObject; vc_snapshotId := None;
                   vc_fields := Some fields |}
     end).
Proof.
  cbv zeta. revert handles.
  induction record as [|[name0 node0] rest IH]; intros handles.
  - simpl. split; [reflexivity|]. split; [exists []; now rewrite app_nil_r|].
    intros i v name node H. now rewrite lookup_nil in H.
  - rewrite buildVariablesFromRecord_cons. cbv zeta.
    pose proof (convertValue_spec name0 node0 handles) as Hc. cbv zeta in Hc.
    set (r1 := convertValue jsNumber jsNumberToString name0 (Some node0)
                            handles) in *.
    specialize (IH (snd r1)).
    set (r2 := buildVariablesFromRecord jsNumber jsNumberToString rest
                                        (snd r1)) in *.
    cbn [fst snd]. destruct Hc as [Hname Hc].
    destruct IH as (IHn & (extra2 & IHe) & IHi).
    assert (Hpre : exists extra1, snd r1 = (handles ++ extra1)%list).
    { destruct (default [] (node_fields node0)).
      - destruct Hc as [_ ->]. exists []. now rewrite app_nil_r.
      - destruct Hc as [_ ->]. eauto. }
    destruct Hpre as (extra1 & Hpre).
    split; [rewrite !fmap_cons; cbn [fst]; now rewrite Hname, IHn|]. split.
    { exists (extra1 ++ extra2)%list. now rewrite IHe, Hpre, app_assoc. }
    intros [|i] v name node Hv Hr; simpl in Hv, Hr.
    + injection Hv as <-. injection Hr as <- <-.
      destruct (default [] (node_fields node0)) as [|e es]; [tauto|].
      destruct Hc as [Href Hsnd]. rewrite Href. split.
      * apply handles_get_unminted. lia.
      * rewrite IHe, Hsnd. apply handles_get_app_l, handles_get_created.
    + specialize (IHi i v name node Hv Hr).
      destruct (default [] (node_fields node)) as [|e es]; [exact IHi|].
      destruct IHi as [Hnone Hsome]. split; [|exact Hsome].
      destruct (handles_get handles (dv_variablesReference v)) eqn:E;
        [|reflexivity].
      apply (handles_get_app_l _ extra1) in E. rewrite <- Hpre in E.
      congruence.
Qed.

(** X22. The variables built from a record are one per entry, named
    alike and in the record's order; the references minted before stay
    valid; a variable whose node has no field has reference 0, and one
    whose node has fields has a reference that was not in use before
    and now designates exactly these fields. *)
Theorem record_variables_and_references (record : VariableMap)
    (handles : list VariableContainer) :
  let r := buildVariablesFromRecord jsNumber jsNumberToString record handles in
  dv_name <$> fst r = fst <$> record /\
  (forall h c, handles_get handles h = Some c ->
               handles_get (snd r) h = Some c) /\
  (forall (i : nat) v name node,
     fst r !! i = Some v -> record !! i = Some (name, node) ->
     match default [] (node_fields node) with
     | [] => dv_variablesReference v = 0
     | fields =>
         handles_get handles (dv_variablesReference v) = None /\
         handles_get (snd r) (dv_variablesReference v)
         = Some {| vc_kind := KObject; vc_snapshotId := None;
                   vc_fields := Some fields |}
     end).
Proof.
  cbv zeta.
  destruct (buildVariablesFromRecord_spec record handles)
    as (Hn & (extra & He) & Hi).
  split; [exact Hn|]. split; [|exact Hi].
  intros h c Hc. rewrite He. now apply handles_get_app_l.
Qed.

Lemma run_resolveVariables_object (info : InstrumentationInfo)
    (ds : DataSource) (log : list Call) (rt : ReplayRuntime)
    (fields : VariableMap) (handles : list VariableContainer) :
  let r := buildVariablesFromRecord jsNumber jsNumberToString fields handles in
  run ds (resolveVariables jsNumber jsNumberToString info
            (Some {| vc_kind := KObject; vc_snapshotId := None;
                     vc_fields := Some fields |})
            (Some rt) handles) log
  = (Value (fst r, Some rt, snd r), log).
Proof.
  cbv zeta. unfold resolveVariables. cbn -[buildVariablesFromRecord].
  now destruct (buildVariablesFromRecord _ _ _ _).
Qed.

(** X23. Expanding the variable built for a node answers with one
    variable per field of the node, named alike and in order (none for
    a node without fields, whose reference is 0), without a call to the
    loader and without a change of the runtime. *)
Theorem expanded_variable_lists_fields (info : InstrumentationInfo)
    (ds : DataSource) (log : list Call) (rt : ReplayRuntime)
    (name : string) (node : VariableNode)
    (handles : list VariableContainer) :
  let r := convertValue jsNumber jsNumberToString name (Some node) handles in
  exists variables handles',
    run ds (variablesRequest jsNumber jsNumberToString info
              (dv_variablesReference (fst r)) (Some rt) (snd r)) log
    = (Value (variables, Some rt, handles'), log) /\
    dv_name <$> variables = fst <$> default [] (node_fields node).
Proof.
  cbv zeta.
  pose proof (convertValue_spec name node handles) as Hc. cbv zeta in Hc.
  set (r := convertValue jsNumber jsNumberToString name (Some node) handles)
    in *.
  destruct Hc as [_ Hc]. unfold variablesRequest.
  destruct (default [] (node_fields node)) as [|e es] eqn:Ef.
  - destruct Hc as [-> ->].
    rewrite handles_get_unminted by (unfold START_HANDLE; lia).
    simpl. eauto.
  - destruct Hc as [-> ->]. rewrite handles_get_created.
    rewrite run_resolveVariables_object. cbv zeta.
    eexists _, _. split; [reflexivity|].
    apply (buildVariablesFromRecord_spec (e :: es)).
Qed.

End VariableFacts.

Section ScopeFacts.

Variable jsNumber : string -> float.
Variable jsNumberToString : float -> string.

(** The three references of [scopesRequest] and what they designate. *)
Lemma scopesRequest_spec (frameId : Z) (rt : ReplayRuntime)
    (handles : list VariableContainer) :
  let r := scopesRequest frameId (Some rt) handles in
  let snapshotId := getSnapshotIdForFrame rt frameId in
  let first := START_HANDLE + Z.of_nat (length handles) in
  fst r = [("Locals", first); ("Arguments", first + 1);
           ("Replay Meta", first + 2)] /\
  handles_get (snd r) first
  = Some {| vc_kind := KLocals; vc_snapshotId := snapshotId;
            vc_fields := None |} /\
  handles_get (snd r) (first + 1)
  = Some {| vc_kind := KArguments; vc_snapshotId := snapshotId;
            vc_fields := None |} /\
  handles_get (snd r) (first + 2)
  = Some {| vc_kind := KMeta; vc_snapshotId := snapshotId;
            vc_fields := None |}.
Proof.
  cbv zeta. unfold scopesRequest, handles_create. cbn [fst snd].
  rewrite !length_app. cbn [length].
  replace (Z.of_nat (length handles + 1 + 1))
    with (Z.of_nat (length handles) + 2) by lia.
  replace (Z.of_nat (length handles + 1))
    with (Z.of_nat (length handles) + 1) by lia.
  rewrite !Z.add_assoc.
  split; [reflexivity|].
  split; [apply handles_get_app_l, handles_get_app_l, handles_get_created|].
  split.
  - apply handles_get_app_l.
    replace (START_HANDLE + Z.of_nat (length handles) + 1)
      with (START_HANDLE + Z.of_nat (length (handles ++
              [{| vc_kind := KLocals;
                  vc_snapshotId := getSnapshotIdForFrame rt frameId;
                  vc_fields := None |}])%list))
      by (rewrite length_app; simpl; lia).
    apply handles_get_created.
  - match goal with
    | |- handles_get (?l ++ [_])%list _ = _ =>
        replace (START_HANDLE + Z.of_nat (length handles) + 2)
          with (START_HANDLE + Z.of_nat (length l))
          by (rewrite !length_app; simpl; lia)
    end.
    apply handles_get_created.
Qed.

(** X24. The scopes of a frame other than the current one are not
    loaded: when the frame's snapshot is not the current snapshot, the
    [Locals] and [Arguments] references given by [scopesRequest] both
    resolve to the single placeholder variable, with no call to the
    loader and no change of the runtime or of the references. *)
Theorem inactive_frame_scopes_are_placeholders (info : InstrumentationInfo)
    (ds : DataSource) (log : list Call) (rt : ReplayRuntime)
    (frameId : Z) (snapshotId : string) (handles : list VariableContainer) :
  getSnapshotIdForFrame rt frameId = Some snapshotId ->
  snapshotId <> "" ->
  getCurrentSnapshotId rt <> Some snapshotId ->
  let r := scopesRequest frameId (Some rt) handles in
  exists locals arguments meta,
    fst r = [("Locals", locals); ("Arguments", arguments);
             ("Replay Meta", meta)] /\
    forall reference,
      reference = locals \/ reference = arguments ->
      run ds (variablesRequest jsNumber jsNumberToString info reference
                (Some rt) (snd r)) log
      = (Value ([inactivePlaceholder], Some rt, snd r), log).
Proof.
  intros Hsnap Hne Hcur. cbv zeta.
  destruct (scopesRequest_spec frameId rt handles) as (Hs & Hl & Ha & _).
  cbv zeta in Hs, Hl, Ha. eexists _, _, _. split; [exact Hs|].
  assert (Ht : truthy (Some snapshotId) = true).
  { apply truthy_Some. eauto. }
  intros reference [-> | ->]; unfold variablesRequest;
    [rewrite Hl | rewrite Ha]; unfold resolveVariables;
    cbn [vc_kind vc_snapshotId]; rewrite Hsnap, Ht;
    rewrite bool_decide_eq_false_2 by congruence; reflexivity.
Qed.

(** X25. The locals of the current frame are loaded at most once by
    a variables request that runs to its end: the [Locals] reference
    given by [scopesRequest] for a frame whose snapshot is the current
    one resolves to the variables built from the locals of the
    snapshot's bundle, one per local, named alike and in order. The
    bundle is the cached one, without a call to the loader and without a
    change of the runtime; or else it is what the single call made to
    the loader gives (the normalized variables it resolves to, the empty
    bundle when it rejects), which the runtime then holds in its
    cache. *)
Theorem active_frame_locals_load_once (info : InstrumentationInfo)
    (ds : DataSource) (log : list Call) (rt : ReplayRuntime)
    (frameId : Z) (snapshotId : string) (handles : list VariableContainer) :
  getSnapshotIdForFrame rt frameId = Some snapshotId ->
  snapshotId <> "" ->
  getCurrentSnapshotId rt = Some snapshotId ->
  let r := scopesRequest frameId (Some rt) handles in
  exists locals rest variables rt' handles' bundle,
    fst r = ("Locals", locals) :: rest /\
    run ds (variablesRequest jsNumber jsNumberToString info locals
              (Some rt) (snd r)) log
    = (Value (variables, Some rt', handles'),
       match variablesCache rt !! snapshotId with
       | Some _ => log
       | None => (log ++ [CallVariables snapshotId])%list
       end) /\
    variablesCache rt' !! snapshotId = Some bundle /\
    (forall cached, variablesCache rt !! snapshotId = Some cached ->
                    bundle = cached /\ rt' = rt) /\
    (variablesCache rt !! snapshotId = None ->
     bundle = fetched jsNumber (loadVariables ds log snapshotId) /\
     rt' = cache_put snapshotId bundle rt) /\
    (variables, handles')
    = buildVariablesFromRecord jsNumber jsNumberToString (sc_locals bundle)
                               (snd r) /\
    dv_name <$> variables = fst <$> sc_locals bundle.
Proof.
  intros Hsnap Hne Hcur. cbv zeta.
  destruct (scopesRequest_spec frameId rt handles) as (Hs & Hl & _).
  cbv zeta in Hs, Hl.
  assert (Ht : truthy (Some snapshotId) = true).
  { apply truthy_Some. eauto. }
  assert (Hrun : forall bundle rt1 log1,
             run ds (getOrLoadVariables jsNumber snapshotId rt) log
             = (Value (bundle, rt1), log1) ->
             run ds (variablesRequest jsNumber jsNumberToString info
                       (START_HANDLE + Z.of_nat (length handles)) (Some rt)
                       (snd (scopesRequest frameId (Some rt) handles))) log
             = (Value
                  (fst (buildVariablesFromRecord jsNumber jsNumberToString
                          (sc_locals bundle)
                          (snd (scopesRequest frameId (Some rt) handles))),
                   Some rt1,
                   snd (buildVariablesFromRecord jsNumber jsNumberToString
                          (sc_locals bundle)
                          (snd (scopesRequest frameId (Some rt) handles)))),
                log1)).
  { intros bundle rt1 log1 Hget. unfold variablesRequest. rewrite Hl.
    unfold resolveVariables. cbn [vc_kind vc_snapshotId].
    rewrite Hsnap, Hcur, Ht.
    rewrite bool_decide_eq_true_2 by reflexivity. cbn [andb negb].
    unfold getLocals. rewrite Ht. unfold mbind, Prog_bind.
    change (default "" (Some snapshotId)) with snapshotId.
    rewrite !run_bind, Hget.
    cbn -[buildVariablesFromRecord scopesRequest].
    now destruct (buildVariablesFromRecord _ _ _ _). }
  destruct (variablesCache rt !! snapshotId) as [cached|] eqn:Ec.
  - eexists _, _, _, rt, _, cached. split; [exact Hs|].
    split; [apply Hrun, run_getOrLoadVariables_hit, Ec|].
    split; [exact Ec|]. split; [intros c [= <-]; auto|].
    split; [discriminate|]. split; [now destruct (buildVariablesFromRecord _ _ _ _)|].
    apply buildVariablesFromRecord_spec.
  - eexists _, _, _, _, _, _. split; [exact Hs|].
    split; [apply Hrun, run_getOrLoadVariables_miss, Ec|].
    split; [apply lookup_insert_eq|]. split; [discriminate|].
    split; [intros _; split; reflexivity|].
    split; [now destruct (buildVariablesFromRecord _ _ _ _)|].
    apply buildVariablesFromRecord_spec.
Qed.

(** X26. The [Replay Meta] scope of any frame lists the four entries
    [snapshotId], [traceId], [spanId] and [sourceObjectUri], all of type
    [string] and without children, with no call to the loader; a trace
    id missing from the instrumentation info is displayed as [string],
    the name of its type. *)
Theorem meta_scope_entries (info : InstrumentationInfo)
    (ds : DataSource) (log : list Call) (rt : ReplayRuntime)
    (frameId : Z) (handles : list VariableContainer) :
  let r := scopesRequest frameId (Some rt) handles in
  exists locals arguments meta variables handles',
    fst r = [("Locals", locals); ("Arguments", arguments);
             ("Replay Meta", meta)] /\
    run ds (variablesRequest jsNumber jsNumberToString info meta
              (Some rt) (snd r)) log
    = (Value (variables, Some rt, handles'), log) /\
    dv_name <$> variables
    = ["snapshotId"; "traceId"; "spanId"; "sourceObjectUri"] /\
    Forall (fun v => dv_type v = Some "string" /\ dv_variablesReference v = 0)
           variables /\
    (ii_traceId info = None ->
     dv_value <$> variables !! 1%nat = Some "string").
Proof.
  cbv zeta.
  destruct (scopesRequest_spec frameId rt handles) as (Hs & _ & _ & Hm).
  cbv zeta in Hs, Hm. eexists _, _, _, _, _. split; [exact Hs|].
  unfold variablesRequest. rewrite Hm. unfold resolveVariables.
  cbn [vc_kind vc_snapshotId andb]. unfold getMeta.
  cbn -[scopesRequest formatNodeValue]. split; [reflexivity|].
  split; [reflexivity|]. split.
  - repeat constructor.
  - intros ->. reflexivity.
Qed.

End ScopeFacts.

Lemma inactive_frame_scopes_are_placeholders_witness :
  let rt := setCursorByFrameId 2 (newRuntime posix_normalize crashTrace) in
  let r := scopesRequest 0 (Some rt) [] in
  exists locals arguments meta,
    fst r = [("Locals", locals); ("Arguments", arguments);
             ("Replay Meta", meta)] /\
    forall reference,
      reference = locals \/ reference = arguments ->
      run failingSource
          (variablesRequest sampleNumber sampleNumberToString noInfo reference
             (Some rt) (snd r)) []
      = (Value ([inactivePlaceholder], Some rt, snd r), []).
Proof.
  apply (inactive_frame_scopes_are_placeholders sampleNumber
           sampleNumberToString noInfo failingSource []
           (setCursorByFrameId 2 (newRuntime posix_normalize crashTrace))
           0 "s2" []).
  - reflexivity.
  - discriminate.
  - discriminate.
Defined.

Lemma active_frame_locals_load_once_witness :
  let rt := newRuntime posix_normalize crashTrace in
  let r := scopesRequest 0 (Some rt) [] in
  exists locals rest variables rt' handles' bundle,
    fst r = ("Locals", locals) :: rest /\
    run failingSource
        (variablesRequest sampleNumber sampleNumberToString noInfo locals
           (Some rt) (snd r)) []
    = (Value (variables, Some rt', handles'),
       match variablesCache rt !! "s2" with
       | Some _ => []
       | None => ([] ++ [CallVariables "s2"])%list
       end) /\
    variablesCache rt' !! "s2" = Some bundle /\
    (forall cached, variablesCache rt !! "s2" = Some cached ->
                    bundle = cached /\ rt' = rt) /\
    (variablesCache rt !! "s2" = None ->
     bundle = fetched sampleNumber (loadVariables failingSource [] "s2") /\
     rt' = cache_put "s2" bundle rt) /\
    (variables, handles')
    = buildVariablesFromRecord sampleNumber sampleNumberToString
                               (sc_locals bundle) (snd r) /\
    dv_name <$> variables = fst <$> sc_locals bundle.
Proof.
  apply (active_frame_locals_load_once sampleNumber sampleNumberToString
           noInfo failingSource [] (newRuntime posix_normalize crashTrace)
           0 "s2" []).
  - reflexivity.
  - discriminate.
  - reflexivity.
Defined.

(** ** Fixture frames through the runtime *)

Section FixtureFacts.

Variable normalize : string -> string.

(** X27. A frame of a replay fixture, turned into a stack trace frame
    by the extension and then into a replay frame by the runtime, gets
    back its one-based line and column (1 when missing or below 1),
    always carries a snapshot identifier (the fixture's, or else the
    frame's id, or else [snap-] and its index), and is named by its
    function name or, without one, by its path or [frame-] and its
    index. *)
Theorem fixture_frame_through_runtime (fx : ReplayFixtureFrame)
    (idx k : Z) :
  let f := buildFrame normalize (fixtureFrame normalize fx idx) k in
  f_line f = Z.max 1 (default 1 (fx_line fx)) /\
  f_column f = Z.max 1 (default 1 (fx_column fx)) /\
  f_snapshotId f
  = Some (default ("snap-" +:+ showZ idx)
            (fx_snapshotId fx ?? fx_snapshot_id fx
               ?? (fixtureIdText <$> fx_id fx))) /\
  f_name f
  = match fx_functionName fx with
    | Some name => name
    | None =>
        default ("frame-" +:+ showZ idx)
                (normalizeFixturePath normalize (fx_filePath fx))
    end.
Proof.
  cbv zeta. unfold buildFrame, fixtureFrame. cbn [f_line f_column f_snapshotId
    f_name r_line r_column r_snapshotId r_snapshot_id r_function r_content
    r_id].
  split; [lia|]. split; [lia|]. split; [reflexivity|].
  destruct (fx_functionName fx) as [name|]; [reflexivity|].
  unfold extractFunctionName. cbn [r_tokens].
  destruct (normalizeFixturePath normalize (fx_filePath fx)); reflexivity.
Qed.

Lemma findIndex_head {A} (p : A -> bool) (x : A) (l : list A) :
  p x = true -> findIndex p (x :: l) = 0.
Proof. intros H. unfold findIndex. simpl. now rewrite H. Qed.

(** X28. The replay of a fixture starts on the fixture's first frame:
    when the snapshot identifier this frame ends up with is not the empty
    string, the runtime built from the fixture's stack trace has its
    cursor on the last internal index, where it finds the frame with
    id 0 built from the fixture's first frame. *)
Theorem fixture_replay_starts_at_first_frame (fx : ReplayFixtureFrame)
    (rest : list ReplayFixtureFrame) (stackTrace : StackTrace) :
  st_frames stackTrace = fixtureFrames normalize (fx :: rest) 0 ->
  (fx_snapshotId fx ?? fx_snapshot_id fx ?? (fixtureIdText <$> fx_id fx))
  <> Some "" ->
  let rt := newRuntime normalize stackTrace in
  frameCount rt = Z.of_nat (length (fx :: rest)) /\
  cursor rt = frameCount rt - 1 /\
  at_index (frames rt) (cursor rt)
  = Some (buildFrame normalize (fixtureFrame normalize fx 0) 0).
Proof.
  intros Hst Hid. cbv zeta. unfold newRuntime, frameCount. cbn [frames cursor].
  rewrite Hst. cbn [fixtureFrames]. unfold buildFrames. cbn [map_indexed].
  set (first := buildFrame normalize (fixtureFrame normalize fx 0) 0).
  set (others := map_indexed normalize _ _).
  assert (Hlen : length others = length rest).
  { subst others. rewrite map_indexed_length. clear.
    generalize (0 + 1). induction rest as [|r rs IH]; intros i; simpl.
    - reflexivity.
    - now rewrite IH. }
  assert (Ht : truthy (f_snapshotId first) = true).
  { subst first. unfold buildFrame, fixtureFrame. cbn [f_snapshotId
      r_snapshotId r_snapshot_id orElse].
    destruct (fx_snapshotId fx ?? fx_snapshot_id fx
                ?? (fixtureIdText <$> fx_id fx)) as [[|c s]|];
      [congruence | reflexivity | reflexivity]. }
  assert (Hc : findInitialFrame (rev (first :: others))
               = Z.of_nat (length (first :: others)) - 1).
  { unfold findInitialFrame.
    destruct (rev (first :: others)) as [|g gs] eqn:Er.
    { apply (f_equal (@length _)) in Er. rewrite length_rev in Er.
      discriminate. }
    rewrite <- Er, rev_involutive, findIndex_head by exact Ht.
    rewrite length_rev. simpl. lia. }
  rewrite Hc, length_rev. cbn [length]. rewrite Hlen.
  split; [reflexivity|]. split; [lia|].
  unfold at_index.
  rewrite (proj2 (Z.leb_le 0 _)) by lia.
  replace (Z.to_nat (Z.of_nat (S (length rest)) - 1)) with (length rest) by lia.
  rewrite rev_lookup by (simpl; lia).
  simpl. rewrite Hlen. replace (length rest - length rest)%nat with 0%nat by lia.
  reflexivity.
Qed.

End FixtureFacts.

Lemma fixture_replay_starts_at_first_frame_witness :
  let stackTrace :=
    {| st_id := Some "recorded-error";
       st_frames := fixtureFrames posix_normalize
                      [sampleFixtureFrame; sampleFixtureFrame] 0;
       st_eventId := None; st_traceId := None |} in
  let rt := newRuntime posix_normalize stackTrace in
  frameCount rt
  = Z.of_nat (length [sampleFixtureFrame; sampleFixtureFrame]) /\
  cursor rt = frameCount rt - 1 /\
  at_index (frames rt) (cursor rt)
  = Some (buildFrame posix_normalize
            (fixtureFrame posix_normalize sampleFixtureFrame 0) 0).
Proof.
  apply (fixture_replay_starts_at_first_frame posix_normalize
           sampleFixtureFrame [sampleFixtureFrame]
           {| st_id := Some "recorded-error";
              st_frames := fixtureFrames posix_normalize
                             [sampleFixtureFrame; sampleFixtureFrame] 0;
              st_eventId := None; st_traceId := None |}).
  - reflexivity.
  - discriminate.
Defined.

(** ** Property assignment and the normalized variables *)

Lemma obj_has_In {A} (k : string) (o : list (string * A)) :
  obj_has k o = true <-> In k (obj_keys o).
Proof.
  unfold obj_has, obj_keys. rewrite existsb_exists, in_map_iff. split.
  - intros (e & He & E). apply String.eqb_eq in E. eauto.
  - intros (e & E & He). exists e. split; [exact He|]. now apply String.eqb_eq.
Qed.

Lemma obj_get_app {A} (k : string) (l1 l2 : list (string * A)) :
  obj_get k (l1 ++ l2)
  = match obj_get k l1 with
    | Some v => Some v
    | None => obj_get k l2
    end.
Proof.
  unfold obj_get. induction l1 as [|[k1 v1] l1 IH]; simpl; [reflexivity|].
  destruct (String.eqb k1 k); [reflexivity | exact IH].
Qed.

Lemma obj_get_None {A} (k : string) (o : list (string * A)) :
  obj_get k o = None <-> ~ In k (obj_keys o).
Proof.
  unfold obj_get, obj_keys. induction o as [|[k1 v1] o IH]; simpl.
  - tauto.
  - destruct (String.eqb k1 k) eqn:E; simpl.
    + apply String.eqb_eq in E. split; [discriminate | tauto].
    + apply String.eqb_neq in E. rewrite IH. tauto.
Qed.

Lemma obj_get_cons {A} (k k1 : string) (v1 : A) (o : list (string * A)) :
  obj_get k ((k1, v1) :: o)
  = if String.eqb k1 k then Some v1 else obj_get k o.
Proof. unfold obj_get. simpl. now destruct (String.eqb k1 k). Qed.

Lemma obj_replace_keys {A} (k : string) (v : A) (o : list (string * A)) :
  obj_keys (obj_replace k v o) = obj_keys o.
Proof.
  unfold obj_keys. induction o as [|[k1 v1] o IH]; simpl; [reflexivity|].
  destruct (String.eqb k1 k); simpl; [reflexivity | now rewrite IH].
Qed.

Lemma obj_replace_get {A} (k k' : string) (v : A) (o : list (string * A)) :
  obj_get k' (obj_replace k v o)
  = if String.eqb k k' && obj_has k o then Some v else obj_get k' o.
Proof.
  induction o as [|[k1 v1] o IH]; simpl.
  - now rewrite andb_false_r.
  - destruct (String.eqb k1 k) eqn:E1; simpl.
    + rewrite andb_true_r, !obj_get_cons. apply String.eqb_eq in E1. subst k1.
      now destruct (String.eqb k k').
    + rewrite !obj_get_cons, IH. destruct (String.eqb k1 k') eqn:E2;
        [|reflexivity].
      apply String.eqb_eq in E2. subst k'. apply String.eqb_neq in E1.
      replace (String.eqb k k1) with false; [reflexivity|].
      symmetry. apply String.eqb_neq. congruence.
Qed.

Lemma obj_insert_index_split {A} (n : Z) (k : string) (v : A)
    (o : list (string * A)) :
  exists l1 l2,
    o = (l1 ++ l2)%list /\
    obj_insert_index n k v o = (l1 ++ (k, v) :: l2)%list.
Proof.
  induction o as [|[k1 v1] o IH]; simpl.
  - exists [], []. auto.
  - destruct (array_index k1) as [m|].
    + destruct (m <? n).
      * destruct IH as (l1 & l2 & -> & ->). exists ((k1, v1) :: l1), l2. auto.
      * exists [], ((k1, v1) :: o). auto.
    + exists [], ((k1, v1) :: o). auto.
Qed.

(** Assignment of a property that the object does not have yet. *)
Lemma obj_set_new {A} (k : string) (v : A) (o : list (string * A)) :
  k <> "__proto__" -> obj_has k o = false ->
  exists l1 l2,
    o = (l1 ++ l2)%list /\ obj_set k v o = (l1 ++ (k, v) :: l2)%list.
Proof.
  intros Hk Hhas. unfold obj_set.
  replace (String.eqb k "__proto__") with false
    by (symmetry; now apply String.eqb_neq).
  rewrite Hhas. destruct (array_index k) as [n|].
  - apply obj_insert_index_split.
  - exists o, []. now rewrite app_nil_r.
Qed.

Lemma obj_set_get {A} (k k' : string) (v : A) (o : list (string * A)) :
  obj_get k' (obj_set k v o)
  = if String.eqb k k' && negb (String.eqb k "__proto__") then Some v
    else obj_get k' o.
Proof.
  destruct (String.eqb k "__proto__") eqn:Ep.
  - unfold obj_set. rewrite Ep. now rewrite andb_false_r.
  - rewrite andb_true_r. apply String.eqb_neq in Ep.
    destruct (obj_has k o) eqn:Eh.
    + unfold obj_set.
      replace (String.eqb k "__proto__") with false
        by (symmetry; now apply String.eqb_neq).
      rewrite Eh, obj_replace_get, Eh. now rewrite andb_true_r.
    + destruct (obj_set_new k v o Ep Eh) as (l1 & l2 & -> & ->).
      assert (Hnot : ~ In k (obj_keys (l1 ++ l2))).
      { intros Hin. apply obj_has_In in Hin. congruence. }
      unfold obj_keys in Hnot. rewrite map_app, in_app_iff in Hnot.
      rewrite !obj_get_app, obj_get_cons.
      destruct (String.eqb k k') eqn:E.
      * apply String.eqb_eq in E. subst k'.
        replace (obj_get k l1) with (@None A); [reflexivity|].
        symmetry. apply obj_get_None. unfold obj_keys. tauto.
      * reflexivity.
Qed.

Lemma obj_set_keys_In {A} (k k' : string) (v : A) (o : list (string * A)) :
  In k' (obj_keys (obj_set k v o))
  <-> (k' = k /\ k <> "__proto__") \/ In k' (obj_keys o).
Proof.
  destruct (String.eqb k "__proto__") eqn:Ep.
  - unfold obj_set. rewrite Ep. apply String.eqb_eq in Ep. tauto.
  - apply String.eqb_neq in Ep. destruct (obj_has k o) eqn:Eh.
    + unfold obj_set.
      replace (String.eqb k "__proto__") with false
        by (symmetry; now apply String.eqb_neq).
      rewrite Eh, obj_replace_keys. apply obj_has_In in Eh.
      split; [tauto|]. intros [[-> _] | H]; assumption.
    + destruct (obj_set_new k v o Ep Eh) as (l1 & l2 & -> & ->).
      unfold obj_keys. rewrite !map_app. simpl. rewrite !in_app_iff. simpl.
      split; [intros [H | [<- | H]]; auto | intros [[-> _] | [H | H]]; auto].
Qed.

Lemma obj_set_keys_NoDup {A} (k : string) (v : A) (o : list (string * A)) :
  List.NoDup (obj_keys o) -> List.NoDup (obj_keys (obj_set k v o)).
Proof.
  intros Hnd. destruct (String.eqb k "__proto__") eqn:Ep.
  - unfold obj_set. now rewrite Ep.
  - apply String.eqb_neq in Ep. destruct (obj_has k o) eqn:Eh.
    + unfold obj_set.
      replace (String.eqb k "__proto__") with false
        by (symmetry; now apply String.eqb_neq).
      now rewrite Eh, obj_replace_keys.
    + destruct (obj_set_new k v o Ep Eh) as (l1 & l2 & -> & ->).
      assert (Hnot : ~ In k (obj_keys (l1 ++ l2))).
      { intros Hin. apply obj_has_In in Hin. congruence. }
      unfold obj_keys in *. rewrite map_app in *. simpl.
      apply NoDup_ListNoDup. apply NoDup_ListNoDup in Hnd.
      apply NoDup_app in Hnd as (H1 & H12 & H2).
      apply NoDup_app. split; [exact H1|]. split.
      * intros x Hx Hin. apply list_elem_of_In in Hin. simpl in Hin.
        destruct Hin as [<- | Hin].
        -- apply Hnot, in_app_iff. left. now apply list_elem_of_In.
        -- apply (H12 x Hx). now apply list_elem_of_In.
      * apply NoDup_cons. split; [|exact H2].
        intros Hin. apply Hnot, in_app_iff. right. now apply list_elem_of_In.
Qed.

Section NormalizationFacts.

Variable jsNumber : string -> float.

Lemma toVariableMap_acc_spec (record : list (string * VariablePayload))
    (result : VariableMap) :
  (List.NoDup (obj_keys result) ->
   List.NoDup (obj_keys (toVariableMap_acc jsNumber record result))) /\
  (forall k,
     In k (obj_keys (toVariableMap_acc jsNumber record result))
     <-> (In k (obj_keys record) /\ k <> "__proto__") \/
         In k (obj_keys result)) /\
  (forall k,
     ~ In k (obj_keys record) ->
     obj_get k (toVariableMap_acc jsNumber record result) = obj_get k result) /\
  (List.NoDup (obj_keys record) ->
   forall k payload,
     In (k, payload) record -> k <> "__proto__" ->
     obj_get k (toVariableMap_acc jsNumber record result)
     = Some (toVariableNode jsNumber payload)).
Proof.
  revert result.
  induction record as [|[k0 p0] record IH]; intros result.
  - simpl. split; [auto|]. split; [tauto|]. split; [auto|].
    intros _ k payload [].
  - cbn [toVariableMap_acc].
    destruct (IH (obj_set k0 (toVariableNode jsNumber p0) result))
      as (IHnd & IHin & IHout & IHget).
    split; [|split; [|split]].
    + intros Hnd. now apply IHnd, obj_set_keys_NoDup.
    + intros k. rewrite IHin, obj_set_keys_In. simpl. split.
      * intros [[H1 H2] | [[-> H] | H]]; auto.
      * intros [[[<- | H1] H2] | H]; auto.
    + intros k Hk. simpl in Hk. rewrite IHout by tauto.
      rewrite obj_set_get.
      replace (String.eqb k0 k) with false; [reflexivity|].
      symmetry. apply String.eqb_neq. tauto.
    + intros Hnd k payload Hin Hk. simpl in Hnd.
      apply List.NoDup_cons_iff in Hnd as [Hfresh Hnd].
      destruct Hin as [[= -> ->] | Hin].
      * rewrite IHout by exact Hfresh. rewrite obj_set_get.
        rewrite String.eqb_refl.
        replace (String.eqb k "__proto__") with false; [reflexivity|].
        symmetry. now apply String.eqb_neq.
      * now apply IHget.
Qed.

(** X29. Normalization keeps every recorded variable under its name:
    the names of the normalized map are pairwise distinct and are the
    recorded names other than [__proto__], whose assignment creates no
    property; when the recorded names are distinct, each one is bound to
    the normalized payload recorded for it. *)
Theorem normalized_variables_keep_names
    (record : list (string * VariablePayload)) :
  let result := toVariableMap jsNumber record in
  List.NoDup (obj_keys result) /\
  (forall k, In k (obj_keys result)
             <-> In k (obj_keys record) /\ k <> "__proto__") /\
  (List.NoDup (obj_keys record) ->
   forall k payload,
     In (k, payload) record -> k <> "__proto__" ->
     obj_get k result = Some (toVariableNode jsNumber payload)).
Proof.
  cbv zeta. unfold toVariableMap.
  destruct (toVariableMap_acc_spec record []) as (Hnd & Hin & _ & Hget).
  split; [apply Hnd; constructor|]. split; [|exact Hget].
  intros k. rewrite Hin. simpl. tauto.
Qed.

End NormalizationFacts.

(** ** Decimal numerals and recorded arrays *)

Lemma parse_digits_acc (d : Decimal.uint) (acc : positive) :
  parse_digits (Z.pos acc) (NilEmpty.string_of_uint d)
  = Z.pos (Pos.of_uint_acc d acc).
Proof.
  revert acc. induction d; intros acc; cbn [NilEmpty.string_of_uint
    parse_digits Pos.of_uint_acc]; [reflexivity | ..]; rewrite <- IHd;
    f_equal; vm_compute (Z.of_N (N_of_ascii _)); lia.
Qed.

Lemma parse_digits_of_uint (d : Decimal.uint) :
  parse_digits 0 (NilEmpty.string_of_uint d) = Z.of_N (Pos.of_uint d).
Proof.
  induction d; cbn [NilEmpty.string_of_uint parse_digits Pos.of_uint];
    [reflexivity | exact IHd | ..];
    vm_compute (10 * 0 + (Z.of_N (N_of_ascii _) - 48));
    apply parse_digits_acc.
Qed.

Lemma decimal_value_showZ (z : Z) : 0 <= z -> decimal_value (showZ z) = z.
Proof.
  intros Hz. unfold decimal_value, showZ.
  destruct z as [|p|p]; [reflexivity | | lia].
  cbn [Z.to_int NilEmpty.string_of_int].
  now rewrite parse_digits_of_uint, DecimalPos.Unsigned.of_to.
Qed.

Lemma showZ_inj (a b : Z) : 0 <= a -> 0 <= b -> showZ a = showZ b -> a = b.
Proof.
  intros Ha Hb E.
  rewrite <- (decimal_value_showZ a Ha), <- (decimal_value_showZ b Hb).
  now rewrite E.
Qed.

Lemma all_digits_of_uint (d : Decimal.uint) :
  all_digits (NilEmpty.string_of_uint d) = true.
Proof. induction d; simpl; auto. Qed.

Lemma is_decimal_showZ (z : Z) : 0 <= z -> is_decimal (showZ z) = true.
Proof.
  intros Hz. unfold showZ. destruct z as [|p|p]; [reflexivity | | lia].
  cbn [Z.to_int NilEmpty.string_of_int].
  pose proof (DecimalPos.Unsigned.to_uint_nonnil p) as Hnil.
  pose proof (all_digits_of_uint (Pos.to_uint p)) as Hall.
  destruct (Pos.to_uint p); [congruence | ..]; exact Hall.
Qed.

Lemma nzhead_not_D0 (d d' : Decimal.uint) : Decimal.nzhead d <> Decimal.D0 d'.
Proof. induction d; simpl; congruence. Qed.

Lemma showZ_no_leading_zero (z : Z) :
  0 < z -> startsWith (showZ z) "0" = false.
Proof.
  intros Hz. unfold showZ. destruct z as [|p|p]; [lia | | lia].
  cbn [Z.to_int NilEmpty.string_of_int].
  pose proof (DecimalPos.Unsigned.to_of (Pos.to_uint p)) as Hn.
  rewrite DecimalPos.Unsigned.of_to in Hn. cbn [N.to_uint] in Hn.
  pose proof (DecimalPos.Unsigned.to_uint_nonzero p) as Hz0.
  pose proof (DecimalPos.Unsigned.to_uint_nonnil p) as Hnil.
  unfold Decimal.unorm in Hn.
  pose proof (nzhead_not_D0 (Pos.to_uint p)) as Hhead.
  destruct (Decimal.nzhead (Pos.to_uint p)) eqn:E; rewrite Hn in *;
    try congruence; try reflexivity.
Qed.

Lemma array_index_showZ (z : Z) :
  0 <= z <= 4294967294 -> array_index (showZ z) = Some z.
Proof.
  intros Hz. unfold array_index.
  rewrite is_decimal_showZ, decimal_value_showZ by lia.
  replace (z <=? 4294967294) with true by (symmetry; apply Z.leb_le; lia).
  destruct (Z.eq_dec z 0) as [-> | Hnz]; [reflexivity|].
  rewrite showZ_no_leading_zero by lia.
  now rewrite orb_true_r.
Qed.

Lemma showZ_not_proto (z : Z) : 0 <= z -> showZ z <> "__proto__".
Proof.
  intros Hz E. pose proof (is_decimal_showZ z Hz) as H.
  rewrite E in H. discriminate.
Qed.

Lemma indexed_from_app (idx : Z) (a b : list VariableNode) :
  indexed_from idx (a ++ b)
  = (indexed_from idx a ++ indexed_from (idx + Z.of_nat (length a)) b)%list.
Proof.
  revert idx. induction a as [|n a IH]; intros idx; simpl.
  - now rewrite Z.add_0_r.
  - rewrite IH. do 3 f_equal. lia.
Qed.

Lemma indexed_from_keys (idx : Z) (nodes : list VariableNode) (k : string) :
  In k (obj_keys (indexed_from idx nodes)) ->
  exists j, idx <= j < idx + Z.of_nat (length nodes) /\ k = showZ j.
Proof.
  revert idx. induction nodes as [|n nodes IH]; intros idx; simpl.
  - intros [].
  - intros [<- | H].
    + exists idx. split; [lia | reflexivity].
    + destruct (IH _ H) as (j & Hj & ->). exists j. split; [lia | reflexivity].
Qed.

Lemma obj_insert_index_last {A} (n : Z) (k : string) (v : A)
    (o : list (string * A)) :
  (forall k', In k' (obj_keys o) ->
              exists m, array_index k' = Some m /\ m < n) ->
  obj_insert_index n k v o = (o ++ [(k, v)])%list.
Proof.
  induction o as [|[k1 v1] o IH]; intros H; simpl; [reflexivity|].
  destruct (H k1) as (m & -> & Hm); [now left|].
  replace (m <? n) with true by (symmetry; apply Z.ltb_lt; lia).
  rewrite IH; [reflexivity|]. intros k' Hk'. apply H. now right.
Qed.

(** Assignment of the next index to an object holding the indices
    before it. *)
Lemma obj_set_next_index (nodes : list VariableNode) (n : VariableNode) :
  Z.of_nat (length nodes) <= 4294967294 ->
  obj_set (showZ (Z.of_nat (length nodes))) n (indexed_from 0 nodes)
  = indexed_from 0 (nodes ++ [n]).
Proof.
  intros Hlen. set (idx := Z.of_nat (length nodes)).
  assert (Hhas : obj_has (showZ idx) (indexed_from 0 nodes) = false).
  { destruct (obj_has _ _) eqn:E; [|reflexivity].
    apply obj_has_In, indexed_from_keys in E as (j & Hj & E).
    apply showZ_inj in E; lia. }
  unfold obj_set.
  replace (String.eqb (showZ idx) "__proto__") with false
    by (symmetry; apply String.eqb_neq, showZ_not_proto; lia).
  rewrite Hhas, array_index_showZ by lia.
  rewrite obj_insert_index_last.
  - rewrite indexed_from_app. reflexivity.
  - intros k' Hk'. apply indexed_from_keys in Hk' as (j & Hj & ->).
    exists j. split; [apply array_index_showZ; lia | lia].
Qed.

Lemma indexed_from_numeric (idx : Z) (nodes : list VariableNode) :
  0 <= idx -> idx + Z.of_nat (length nodes) <= 2 ^ 53 ->
  forallb is_decimal (obj_keys (indexed_from idx nodes)) = true /\
  omap (fun k => if is_decimal k then Some (parseInt10 k) else None)
       (obj_keys (indexed_from idx nodes))
  = map Finite (seqZ idx (Z.of_nat (length nodes))).
Proof.
  revert idx. induction nodes as [|n nodes IH]; intros idx Hidx Hlen.
  - split; reflexivity.
  - destruct (IH (idx + 1)) as [IH1 IH2]; [lia | simpl in Hlen; lia |].
    cbn [indexed_from obj_keys map fst forallb omap list_omap].
    change (map fst (indexed_from (idx + 1) nodes))
      with (obj_keys (indexed_from (idx + 1) nodes)).
    unfold parseInt10 at 1.
    rewrite is_decimal_showZ, decimal_value_showZ by lia.
    rewrite binary64_exact by (simpl in Hlen; lia).
    split; [exact IH1|].
    change (list_omap ?f ?l) with (omap f l). rewrite IH2.
    replace (Z.of_nat (length (n :: nodes)))
      with (Z.succ (Z.of_nat (length nodes))) by (simpl; lia).
    rewrite (seqZ_cons idx) by lia. cbn [map]. f_equal. f_equal.
    f_equal; lia.
Qed.

Lemma greatest_of_seqZ (idx : Z) (len : nat) :
  greatest_of (seqZ idx (Z.of_nat (S len))) = idx + Z.of_nat len.
Proof.
  rewrite Nat2Z.inj_succ, seqZ_cons by lia. unfold greatest_of.
  replace (Z.pred (Z.succ (Z.of_nat len))) with (Z.of_nat len) by lia.
  revert idx. induction len as [|len IH]; intros idx.
  - rewrite seqZ_nil by lia. simpl. lia.
  - rewrite Nat2Z.inj_succ, seqZ_cons by lia. cbn [fold_left].
    replace (Z.pred (Z.succ (Z.of_nat len))) with (Z.of_nat len) by lia.
    replace (Z.max idx (Z.succ idx)) with (Z.succ idx) by lia.
    rewrite IH. lia.
Qed.

Section ArrayFacts.

Variable jsNumber : string -> float.

(** X30. A recorded array of [n] elements (fewer than [2^32]) is
    normalized to a node without value whose fields are ["0"] to
    ["n - 1"], in order, each holding the normalized element; these
    names are array-like and, for a non-empty array, the length inferred
    from them for the preview is [n]. *)
Theorem recorded_array_becomes_indexed_fields
    (type : option string) (elements : list VariablePayload)
    (entries : option (list (VariablePayload * VariablePayload)))
    (flds : option (list (string * VariablePayload))) :
  Z.of_nat (length elements) <= 4294967295 ->
  let fields := indexed_from 0 (map (toVariableNode jsNumber) elements) in
  toVariableNode jsNumber (Payload type None false (Some elements) entries flds)
  = Node (Some (default "array" type)) None (Some fields) /\
  (elements <> [] ->
   isArrayLike (obj_keys fields) = true /\
   inferArrayLength (obj_keys fields) = Finite (Z.of_nat (length elements))).
Proof.
  intros Hlen. cbv zeta. split.
  - cbn [toVariableNode]. do 3 f_equal.
    assert (H : forall l (done : list VariableNode),
               Z.of_nat (length done) + Z.of_nat (length l) <= 4294967295 ->
               (fix each (l : list VariablePayload) (idx : Z)
                    (acc : VariableMap) {struct l} : VariableMap :=
                  match l with
                  | [] => acc
                  | el :: r =>
                      each r (idx + 1)
                           (obj_set (showZ idx) (toVariableNode jsNumber el)
                                    acc)
                  end) l (Z.of_nat (length done)) (indexed_from 0 done)
               = indexed_from 0 (done ++ map (toVariableNode jsNumber) l)).
    { clear. induction l as [|el r IH]; intros done Hlen.
      - now rewrite app_nil_r.
      - rewrite obj_set_next_index by (simpl in Hlen; lia).
        replace (Z.of_nat (length done) + 1)
          with (Z.of_nat (length (done ++ [toVariableNode jsNumber el])))
          by (rewrite length_app; simpl; lia).
        rewrite IH by (rewrite length_app; simpl in *; lia).
        now rewrite <- app_assoc. }
    apply (H elements []). simpl. lia.
  - intros Hne. destruct elements as [|el r]; [congruence|].
    destruct (indexed_from_numeric 0
                (map (toVariableNode jsNumber) (el :: r))) as [Hall Hnum];
      [lia | rewrite length_map; lia |].
    split.
    + unfold isArrayLike. simpl in *. exact Hall.
    + unfold inferArrayLength. rewrite Hnum.
      rewrite length_map. cbn [length].
      rewrite max_of_finite, greatest_of_seqZ.
      cbn [map indexed_from obj_keys].
      rewrite Nat2Z.inj_succ, seqZ_cons by lia. cbn [map].
      cbn [length] in Hlen. rewrite Nat2Z.inj_succ in Hlen.
      unfold js_succ. rewrite binary64_exact; [f_equal; lia|].
      change (2 ^ 53) with 9007199254740992. lia.
Qed.

End ArrayFacts.

Lemma recorded_array_becomes_indexed_fields_witness :
  let elements :=
    [Payload (Some "number") (Some "1") false None None None;
     Payload None None true None None None] in
  let fields := indexed_from 0 (map (toVariableNode sampleNumber) elements) in
  toVariableNode sampleNumber
    (Payload None None false (Some elements) None None)
  = Node (Some (default "array" None)) None (Some fields) /\
  (elements <> [] ->
   isArrayLike (obj_keys fields) = true /\
   inferArrayLength (obj_keys fields) = Finite (Z.of_nat (length elements))).
Proof.
  apply (recorded_array_becomes_indexed_fields sampleNumber None
           [Payload (Some "number") (Some "1") false None None None;
            Payload None None true None None None] None None).
  simpl. lia.
Defined.
